(** * playwright-bdd: generation of test files and assembly of Cucumber messages

    A shallow embedding of [src/gen/index.ts] (class [TestFilesGenerator])
    and of [src/reporter/cucumber/messagesBuilder/Builder.ts] (class
    [MessagesBuilder]), with the properties their specification states.

    Layout: the POSIX flavour of [node:path] that the generator calls, the
    exit monad of the generation pass, the generator, the messages builder,
    and then the lemmas and theorems. *)

From Stdlib Require Import ZArith List Ascii String Bool Lia DecimalString.
From stdpp Require Import base option list strings gmap.

Local Open Scope string_scope.

(* ===================================================================== *)
(** ** Characters and string helpers                                      *)
(* ===================================================================== *)

Definition slash : ascii := ascii_of_nat 47.
Definition dquote : ascii := ascii_of_nat 34.
Definition newline : ascii := ascii_of_nat 10.

Definition str1 (c : ascii) : string := String c EmptyString.

(** A number inside a template literal. *)
Definition showNat (n : nat) : string := NilEmpty.string_of_uint (Nat.to_uint n).

(** [s.startsWith(p)] *)
Definition startsWith (s p : string) : bool := String.prefix p s.

(** [parts.join(sep)] *)
Fixpoint join (sep : string) (parts : list string) : string :=
  match parts with
  | [] => EmptyString
  | [p] => p
  | p :: rest => p ++ sep ++ join sep rest
  end.

(** [sub] occurs in [s] as a contiguous substring. *)
Fixpoint includes (s sub : string) : bool :=
  String.prefix sub s ||
  match s with
  | EmptyString => false
  | String _ rest => includes rest sub
  end.

(* ===================================================================== *)
(** ** node:path, POSIX flavour                                           *)
(* ===================================================================== *)

Module Path.

(** [s.split('/')]: a string always splits into at least one piece. *)
Fixpoint split (s : string) : list string :=
  match s with
  | EmptyString => [EmptyString]
  | String c rest =>
      if Ascii.eqb c slash then EmptyString :: split rest
      else match split rest with
           | [] => [str1 c]
           | piece :: pieces => String c piece :: pieces
           end
  end.

Definition isAbsolute (p : string) : bool := startsWith p (str1 slash).

(** Normalisation of the pieces of an absolute path: empty pieces and
    [.] are dropped, [..] removes the directory before it and is itself
    dropped at the root.  [stack] holds the directories kept so far,
    innermost first. *)
Fixpoint normalizeFrom (stack : list string) (pieces : list string) : list string :=
  match pieces with
  | [] => rev stack
  | p :: rest =>
      if String.eqb p EmptyString then normalizeFrom stack rest
      else if String.eqb p "." then normalizeFrom stack rest
      else if String.eqb p ".." then normalizeFrom (tl stack) rest
      else normalizeFrom (p :: stack) rest
  end.

Definition normalize (pieces : list string) : list string :=
  normalizeFrom [] pieces.

(** The directories of [path.resolve(from, to)], [cwd] being
    [process.cwd()]: arguments are taken right to left until one is
    absolute, the working directory standing behind them all. *)
Definition resolveSegments (cwd from to : string) : list string :=
  if isAbsolute to then normalize (split to)
  else if isAbsolute from then normalize (split from ++ split to)
  else normalize (split cwd ++ split from ++ split to).

Definition render (segments : list string) : string :=
  str1 slash ++ join (str1 slash) segments.

(** [path.resolve(from, to)] *)
Definition resolve (cwd from to : string) : string :=
  render (resolveSegments cwd from to).

(** The pair of suffixes left once the longest common prefix is cut. *)
Fixpoint stripCommon (a b : list string) : list string * list string :=
  match a, b with
  | x :: a', y :: b' =>
      if String.eqb x y then stripCommon a' b' else (a, b)
  | _, _ => (a, b)
  end.

(** [path.relative(from, to)]: both arguments are resolved against the
    working directory, one [..] is produced for every directory of
    [from] below the common ancestor, followed by what is left of [to]. *)
Definition relative (cwd from to : string) : string :=
  let '(up, down) :=
    stripCommon (resolveSegments cwd cwd from) (resolveSegments cwd cwd to) in
  join (str1 slash) (repeat ".." (List.length up) ++ down).

(** A piece without a separator in it. *)
Fixpoint slashFree (s : string) : bool :=
  match s with
  | EmptyString => true
  | String c rest => negb (Ascii.eqb c slash) && slashFree rest
  end.

(** A directory or file name as it stands in a resolved path. *)
Definition properName (s : string) : bool :=
  slashFree s && negb (String.eqb s EmptyString) && negb (String.eqb s ".")
  && negb (String.eqb s "..").


End Path.

(** [to] lies underneath the directory [root] (or is [root] itself). *)
Definition underneath (cwd root to : string) : Prop :=
  Path.resolveSegments cwd cwd root `prefix_of` Path.resolveSegments cwd cwd to.


(* ===================================================================== *)
(** ** The generation pass: state, events and the exit monad             *)
(* ===================================================================== *)

(** An undefined step of a pickle, as a test file lists it. *)
Record UndefinedStep : Type := {
  step_text : string;
  step_line : nat
}.

(** The fields of [TestFile] that the generator reads.  [content] is what
    [save()] writes. *)
Record TestFile : Type := {
  sourceUri : string;
  outputPath : string;
  testCount : nat;
  undefinedSteps : list UndefinedStep;
  content : string
}.

(** What [TestFile.build()] derives from a document, the support code
    library, the configuration and the tag expression. *)
Record Built : Type := {
  built_testCount : nat;
  built_undefinedSteps : list UndefinedStep;
  built_content : string
}.

(** What one generation pass does to the outside world, in order. *)
Inductive Event : Type :=
  | Log (message : string)               (* logger.log: verbose output *)
  | Warn (messages : list string)        (* logger.warn *)
  | BuildTestFile (uri : string)         (* new TestFile({...}).build() *)
  | PrintSnippets (shown : list TestFile)(* new Snippets(this.files, ...).print() *)
  | Remove (path : string)               (* fs.rm(testFile) *)
  | Save (path : string).                (* file.save() *)

(** An event that changes the files on disk. *)
Definition mutatesFiles (e : Event) : bool :=
  match e with
  | Remove _ | Save _ => true
  | _ => false
  end.

(** The paths saved by a sequence of events, in order. *)
Definition savedPaths (es : list Event) : list string :=
  omap (fun e => match e with Save path => Some path | _ => None end) es.

Record GenState : Type := {
  files : list TestFile;              (* this.files *)
  library : list string;              (* this.supportCodeLibrary.stepDefinitions *)
  disk : gmap string string;          (* the file system: path to content *)
  events : list Event                 (* most recent last *)
}.

(** Either the computation returned, or [exit(...messages)] was called. *)
Inductive Outcome (A : Type) : Type :=
  | Returned (a : A)
  | Exited (messages : list string).
Arguments Returned {A} a.
Arguments Exited {A} messages.

Definition Gen (A : Type) : Type := GenState -> Outcome A * GenState.

Definition ret {A} (a : A) : Gen A := fun st => (Returned a, st).

Definition bind {A B} (m : Gen A) (k : A -> Gen B) : Gen B :=
  fun st =>
    match m st with
    | (Returned a, st') => k a st'
    | (Exited messages, st') => (Exited messages, st')
    end.

(** Modelled from the spec: [exit] of [utils/exit] is not among the
    sources; a fatal error aborts the generation pass and stops all
    further generation-path work, reporting the messages. *)
Definition exit {A} (messages : list string) : Gen A :=
  fun st => (Exited messages, st).

Definition emit (e : Event) : Gen unit :=
  fun st => (Returned tt,
             {| files := files st; library := library st; disk := disk st;
                events := events st ++ [e] |}).

Definition getFiles : Gen (list TestFile) := fun st => (Returned (files st), st).

Definition setFiles (fs : list TestFile) : Gen unit :=
  fun st => (Returned tt,
             {| files := fs; library := library st; disk := disk st;
                events := events st |}).

Definition getLibrary : Gen (list string) := fun st => (Returned (library st), st).

Definition setLibrary (lib : list string) : Gen unit :=
  fun st => (Returned tt,
             {| files := files st; library := lib; disk := disk st;
                events := events st |}).

Definition getDisk : Gen (gmap string string) := fun st => (Returned (disk st), st).

Definition setDisk (d : gmap string string) : Gen unit :=
  fun st => (Returned tt,
             {| files := files st; library := library st; disk := d;
                events := events st |}).

#[global] Instance gen_ret : MRet Gen := fun A a => ret a.
#[global] Instance gen_bind : MBind Gen := fun A B k m => bind m k.

(** [xs.map(f)] where [f] may exit: elements are visited left to right
    and the first exit stops the traversal. *)
Fixpoint mapGen {A B} (f : A -> Gen B) (xs : list A) : Gen (list B) :=
  match xs with
  | [] => ret []
  | x :: rest =>
      y ← f x; ys ← mapGen f rest; ret (y :: ys)
  end.

(** [xs.forEach(f)] *)
Fixpoint forEachGen {A} (f : A -> Gen unit) (xs : list A) : Gen unit :=
  match xs with
  | [] => ret tt
  | x :: rest => f x;; forEachGen f rest
  end.

(* ===================================================================== *)
(** ** TestFilesGenerator (src/gen/index.ts)                              *)
(* ===================================================================== *)

Record ImportTestFrom : Type := {
  importFile : string;
  importVarName : option string
}.

(** The fields of [BDDConfig] that the generator reads. *)
Record BDDConfig : Type := {
  outputDir : string;
  featuresRoot : string;
  importTestFrom : option ImportTestFrom;
  verbose : bool;
  tags : option string
}.

(** A parse error of the features loader: the source it was found in
    (uri and location) and the parser's message. *)
Record ParseError : Type := {
  source_uri : string;
  source_line : nat;
  source_column : nat;
  message : string
}.

Record GherkinDocument : Type := {
  uri : string;
  pickleNames : list string
}.

(** What the collaborators hand to one generation pass: the resolved run
    configuration, the outcome of the features loader and the loaded
    support code. *)
Record Loaded : Type := {
  sourcePaths : list string;          (* runConfiguration.sources.paths *)
  supportPaths : list string;         (* requirePaths.concat(importPaths) *)
  tsNodeRegister : bool;              (* hasTsNodeRegister(runConfiguration) *)
  parseErrors : list ParseError;      (* featuresLoader.parseErrors *)
  documentsCount : nat;               (* featuresLoader.getDocumentsCount() *)
  documentsWithPickles : list GherkinDocument;
  stepDefinitions : list string;      (* loadSteps(...).stepDefinitions *)
  decoratorSteps : list string        (* added by appendDecoratorSteps *)
}.

Section Generator.

(** [getPlaywrightConfigDir()] and [process.cwd()] *)
Variable configDir : string.
Variable cwd : string.
(** [this.config] *)
Variable config : BDDConfig.
(** [hasCustomTest] of [stepDefinitions/createBdd] *)
Variable hasCustomTest : bool.
(** [TestFile.build()] for the loaded support code: what the test file
    of a document contains, or the fatal error met while assembling it. *)
Variable build : list string -> GherkinDocument -> Outcome Built.
(** [fast-glob]: the existing files that match a pattern. *)
Variable fg : string -> gmap string string -> list string.
Variable convertPathToPattern : string -> string.

Definition warnForTsNodeRegister (loaded : Loaded) : Gen unit :=
  if tsNodeRegister loaded
  then emit (Warn
         [ "WARNING: usage of requireModule: ['ts-node/register'] is not recommended for playwright-bdd.";
           "Remove this option from defineBddConfig() and";
           "Playwright's built-in loader will be used to compile TypeScript step definitions." ])
  else ret tt.

Definition loadCucumberConfig (loaded : Loaded) : Gen unit :=
  warnForTsNodeRegister loaded.

Definition handleParseErrors (loaded : Loaded) : Gen unit :=
  match parseErrors loaded with
  | [] => ret tt
  | errors =>
      let message :=
        join (str1 newline)
          (map (fun parseError =>
                  "Parse error in " ++ str1 dquote ++ source_uri parseError
                    ++ str1 dquote ++ " " ++ message parseError)
               errors) in
      exit [message]
  end.

(** [loadFeatures()]: the features loader is a collaborator, and
    [loaded] is what [await this.featuresLoader.load(...)] has left in
    it once it has settled.  A load that does not settle has no outcome
    here: what is proved of a pass is proved of a pass whose loads
    settle. *)
Definition loadFeatures (loaded : Loaded) : Gen unit :=
  emit (Log ("Loading features from: " ++ join ", " (sourcePaths loaded)));;
  handleParseErrors loaded;;
  emit (Log ("Loaded features: " ++ showNat (documentsCount loaded))).

Definition loadDecoratorSteps (loaded : Loaded) : Gen unit :=
  match importTestFrom config with
  | Some _ =>
      lib ← getLibrary;
      setLibrary (lib ++ decoratorSteps loaded)
  | None => ret tt
  end.

Definition loadSteps (loaded : Loaded) : Gen unit :=
  emit (Log ("Loading steps from: " ++ join ", " (supportPaths loaded)));;
  setLibrary (stepDefinitions loaded);;
  loadDecoratorSteps loaded;;
  lib ← getLibrary;
  emit (Log ("Loaded steps: " ++ showNat (List.length lib))).

Definition getSpecPathByFeaturePath (relFeaturePath : string) : Gen string :=
  let absFeaturePath := Path.resolve cwd configDir relFeaturePath in
  let relOutputPath := Path.relative cwd (featuresRoot config) absFeaturePath in
  (if startsWith relOutputPath ".."
   then exit [ "All feature files should be located underneath featuresRoot.";
               "Please change featuresRoot or paths in configuration." ++ str1 newline;
               "featureFile: " ++ absFeaturePath ++ str1 newline;
               "featuresRoot: " ++ featuresRoot config ++ str1 newline ]
   else ret tt);;
  let absOutputPath := Path.resolve cwd (outputDir config) relOutputPath in
  ret (absOutputPath ++ ".spec.js").

(** [new TestFile({ gherkinDocument, supportCodeLibrary, outputPath,
    config, tagsExpression }).build()] *)
Definition newTestFile (gherkinDocument : GherkinDocument) : Gen TestFile :=
  lib ← getLibrary;
  path ← getSpecPathByFeaturePath (uri gherkinDocument);
  emit (BuildTestFile (uri gherkinDocument));;
  match build lib gherkinDocument with
  | Returned b =>
      ret {| sourceUri := uri gherkinDocument;
             outputPath := path;
             testCount := built_testCount b;
             undefinedSteps := built_undefinedSteps b;
             content := built_content b |}
  | Exited messages => exit messages
  end.

Definition buildFiles (loaded : Loaded) : Gen unit :=
  built ← mapGen newTestFile (documentsWithPickles loaded);
  setFiles (List.filter (fun file => (0 <? testCount file)%nat) built).

Definition countUndefinedSteps (fs : list TestFile) : nat :=
  fold_left (fun sum file => (sum + List.length (undefinedSteps file))%nat) fs 0%nat.

Definition checkUndefinedSteps : Gen unit :=
  fs ← getFiles;
  if (0 <? countUndefinedSteps fs)%nat
  then emit (PrintSnippets fs);; exit []
  else ret tt.

Definition checkImportTestFrom : Gen unit :=
  if hasCustomTest && negb (bool_decide (is_Some (importTestFrom config)))
  then exit [ "When using custom " ++ str1 dquote ++ "test" ++ str1 dquote
                ++ " function in createBdd() you should";
              "set " ++ str1 dquote ++ "importTestFrom" ++ str1 dquote
                ++ " config option that points to file exporting custom test." ]
  else ret tt.

(** [fs.rm(testFile)] *)
Definition rm (testFile : string) : Gen unit :=
  emit (Remove testFile);;
  d ← getDisk;
  setDisk (delete testFile d).

Definition clearOutputDir : Gen unit :=
  let pattern := convertPathToPattern (outputDir config) ++ "/**/*.spec.js" in
  d ← getDisk;
  let testFiles := fg pattern d in
  emit (Log ("Clearing output dir: " ++ showNat (List.length testFiles) ++ " file(s)"));;
  forEachGen rm testFiles.

(** Modelled from the spec: [TestFile.save] is not among the sources;
    generated test files are written under the configured output
    directory, at the file's output path. *)
Definition save (file : TestFile) : Gen unit :=
  emit (Save (outputPath file));;
  d ← getDisk;
  setDisk (<[outputPath file := content file]> d).

Definition saveFiles : Gen unit :=
  fs ← getFiles;
  forEachGen
    (fun file =>
       save file;;
       emit (Log ("Generated: " ++ Path.relative cwd cwd (outputPath file))))
    fs;;
  emit (Log ("Generated files: " ++ showNat (List.length fs))).

(** [generate()]: the two loads run under one [Promise.all]; neither
    touches the disk, and they are taken here in the order they are
    started.  [withExitHandler] makes an exit inside the pass the outcome
    of the pass. *)
Definition generate (loaded : Loaded) : Gen unit :=
  loadCucumberConfig loaded;;
  loadFeatures loaded;;
  loadSteps loaded;;
  buildFiles loaded;;
  checkUndefinedSteps;;
  checkImportTestFrom;;
  clearOutputDir;;
  saveFiles.

(** [extractSteps()]: the step definitions of the loaded support code. *)
Definition extractSteps (loaded : Loaded) : Gen (list string) :=
  loadCucumberConfig loaded;;
  loadSteps loaded;;
  getLibrary.


End Generator.

Definition initialState (d : gmap string string) : GenState :=
  {| files := []; library := []; disk := d; events := [] |}.

(* ===================================================================== *)
(** ** Notions used to state the properties of a generation pass         *)
(* ===================================================================== *)

(** [st'] is reached from [st] without touching the disk: the files on
    disk are the same and no removal or save happened in between. *)
Definition untouched (st st' : GenState) : Prop :=
  disk st' = disk st /\
  exists added, events st' = (events st ++ added)%list /\
                Forall (fun e => mutatesFiles e = false) added.

(** A computation that never touches the disk, whatever its outcome. *)
Definition quiet {A} (m : Gen A) : Prop :=
  forall st o st', m st = (o, st') -> untouched st st'.

(** A computation that leaves [this.files] alone. *)
Definition keepsFiles {A} (m : Gen A) : Prop :=
  forall st o st', m st = (o, st') -> files st' = files st.

(** The events of saving one file after the other. *)
Definition saveEvents (cwd : string) (fs : list TestFile) : list Event :=
  flat_map (fun file => [Save (outputPath file);
                         Log ("Generated: " ++ Path.relative cwd cwd (outputPath file))])
           fs.

(** The error that [getSpecPathByFeaturePath] raises for a feature at
    [absFeaturePath]. *)
Definition outsideRootMessages (config : BDDConfig) (absFeaturePath : string)
    : list string :=
  [ "All feature files should be located underneath featuresRoot.";
    "Please change featuresRoot or paths in configuration." ++ str1 newline;
    "featureFile: " ++ absFeaturePath ++ str1 newline;
    "featuresRoot: " ++ featuresRoot config ++ str1 newline ].
(** The disk once the files at [paths] are removed, and once the test
    files [fs] are written. *)
Definition removeAll (paths : list string) (d : gmap string string)
    : gmap string string :=
  fold_left (fun d path => delete path d) paths d.

Definition writeAll (fs : list TestFile) (d : gmap string string)
    : gmap string string :=
  fold_left (fun d file => <[outputPath file := content file]> d) fs d.

(** The step definitions that [loadSteps] leaves in the support code
    library. *)
Definition loadedSteps (config : BDDConfig) (loaded : Loaded) : list string :=
  match importTestFrom config with
  | Some _ => (stepDefinitions loaded ++ decoratorSteps loaded)%list
  | None => stepDefinitions loaded
  end.

(** The pattern of the generated files that [clearOutputDir] removes. *)
Definition stalePattern (config : BDDConfig) (convertPathToPattern : string -> string)
    : string :=
  convertPathToPattern (outputDir config) ++ "/**/*.spec.js".


(** What is known of a test file that [newTestFile] returns for a
    document, the step definitions being [lib]. *)
Definition builtFrom (configDir cwd : string) (config : BDDConfig)
    (build : list string -> GherkinDocument -> Outcome Built)
    (lib : list string) (doc : GherkinDocument) (file : TestFile) : Prop :=
  sourceUri file = uri doc /\
  (forall s, getSpecPathByFeaturePath configDir cwd config (uri doc) s
             = (Returned (outputPath file), s)) /\
  exists b,
    build lib doc = Returned b /\
    testCount file = built_testCount b /\
    undefinedSteps file = built_undefinedSteps b /\
    content file = built_content b.

(** The line of the report for one parse error, and the whole report. *)
Definition parseErrorLine (parseError : ParseError) : string :=
  "Parse error in " ++ str1 dquote ++ source_uri parseError
    ++ str1 dquote ++ " " ++ message parseError.

Definition parseErrorReport (errors : list ParseError) : string :=
  join (str1 newline) (map parseErrorLine errors).

(** The location of a parse error in the form in which the Gherkin
    parser writes it at the head of the error's message,
    [(line:column)]. *)
Definition locationText (parseError : ParseError) : string :=
  "(" ++ showNat (source_line parseError) ++ ":"
      ++ showNat (source_column parseError) ++ ")".

(** A parse error as the Gherkin parser makes it: the message is the
    location of the error, a colon and what the parser met there. *)
Definition fromParser (parseError : ParseError) : bool :=
  startsWith (message parseError) (locationText parseError ++ ": ").

(** An event of the phases that follow the loading of the features. *)
Definition afterLoading (e : Event) : bool :=
  match e with
  | BuildTestFile _ | PrintSnippets _ | Remove _ | Save _ => true
  | _ => false
  end.

(* ===================================================================== *)
(** ** Sample inputs                                                      *)
(* ===================================================================== *)

Definition sampleConfig : BDDConfig :=
  {| outputDir := "/proj/.features-gen";
     featuresRoot := "/proj/features";
     importTestFrom := None;
     verbose := false;
     tags := None |}.

(** A build in which a document has one test per pickle, and one
    undefined step when no step definition is loaded. *)
Definition sampleBuild (lib : list string) (doc : GherkinDocument) : Outcome Built :=
  Returned
    {| built_testCount := List.length (pickleNames doc);
       built_undefinedSteps :=
         match lib with
         | [] => [ {| step_text := "I open the page"; step_line := 4 |} ]
         | _ => []
         end;
       built_content := "// Generated from: " ++ uri doc |}.

(** A glob that finds every file on the disk. *)
Definition sampleGlob (pattern : string) (d : gmap string string) : list string :=
  map fst (map_to_list d).

Definition sampleDocuments : list GherkinDocument :=
  [ {| uri := "features/login.feature"; pickleNames := ["signs in"; "signs out"] |};
    {| uri := "features/wip/draft.feature"; pickleNames := [] |} ].

Definition sampleLoaded (steps : list string) (errors : list ParseError)
    (docs : list GherkinDocument) : Loaded :=
  {| sourcePaths := ["features/**/*.feature"];
     supportPaths := ["steps/*.ts"];
     tsNodeRegister := false;
     parseErrors := errors;
     documentsCount := List.length docs;
     documentsWithPickles := docs;
     stepDefinitions := steps;
     decoratorSteps := [] |}.

Definition sampleParseError : ParseError :=
  {| source_uri := "features/broken.feature";
     source_line := 7;
     source_column := 3;
     message := "(7:3): unexpected end of file" |}.

Definition sampleDisk : gmap string string :=
  {[ "/proj/.features-gen/old.feature.spec.js" := "// stale" ]}.

Definition sampleGenerate (loaded : Loaded) (d : gmap string string)
    : Outcome unit * GenState :=
  generate "/proj" "/proj" sampleConfig false sampleBuild sampleGlob id
           loaded (initialState d).


(* ===================================================================== *)
(** ** MessagesBuilder (src/reporter/cucumber/messagesBuilder/Builder.ts) *)
(* ===================================================================== *)

Module Messages.

Local Open Scope Z_scope.

(** *** Playwright's reporter model *)

Inductive TestStatus : Type :=
  | passed | failed | timedOut | skipped | interrupted.

#[global] Instance TestStatus_eq_dec : EqDecision TestStatus.
Proof. solve_decision. Defined.

Record Project : Type := {
  projectName : string;
  testDir : string
}.

(** [pw.TestCase]: [project] is [test.parent.project()]. *)
Record PwTestCase : Type := {
  id : string;
  title : string;
  expectedStatus : TestStatus;
  project : option Project
}.

(** Times are milliseconds; [startTime] is [result.startTime.getTime()]. *)
Record TimeMeasured : Type := {
  startTime : Z;
  duration : Z
}.

(** [pw.TestResult] *)
Record PwTestResult : Type := {
  retry : nat;
  status : TestStatus;
  timing : TimeMeasured
}.

(** [pw.FullResult]: [startTime] and [duration] exist since Playwright
    1.37 only. *)
Record FullResult : Type := {
  fullStatus : TestStatus;
  fullStartTime : option Z;
  fullDuration : option Z
}.

(** *** Cucumber messages *)

Record Timestamp : Type := {
  seconds : Z;
  nanos : Z
}.

(** [a] is not later than [b]. *)
Definition notAfter (a b : Timestamp) : Prop :=
  seconds a < seconds b \/ (seconds a = seconds b /\ nanos a <= nanos b).

(** Modelled from the spec: [toCucumberTimestamp] of [./timing] is not
    among the sources; timestamps are in protocol-native units, which
    for the Cucumber [Timestamp] message are whole seconds and the
    nanoseconds left over.  [Z.rem] is the remainder of JavaScript. *)
Definition toCucumberTimestamp (time : Z) : Timestamp :=
  {| seconds := time / 1000;
     nanos := Z.rem time 1000 * 1000000 |}.

Record TestRunStarted : Type := {
  started_timestamp : Timestamp
}.

Record TestRunFinished : Type := {
  success : bool;
  finished_timestamp : Timestamp
}.

(** Modelled from the spec: [TestCaseRunEnvelope] of [./TestCaseRun] is
    not among the sources; the envelopes of one run attempt are
    test-case-started, the started and finished envelopes of its steps
    and hooks, and test-case-finished. *)
Inductive RunKind : Type :=
  | testCaseStarted | testStepStarted | testStepFinished
  | hookStarted | hookFinished | testCaseFinished.

(** The kinds of envelope of the protocol. *)
Inductive Kind : Type :=
  | meta | source | gherkinDocument | pickle | stepDefinition | hook
  | testRunStarted | testCase | runAttempt (k : RunKind) | testRunFinished.

#[global] Instance RunKind_eq_dec : EqDecision RunKind.
Proof. solve_decision. Defined.
#[global] Instance Kind_eq_dec : EqDecision Kind.
Proof. solve_decision. Defined.

(** The order of the kinds in a built report: the static data, the start
    of the run, the test cases, the run attempts, the end of the run. *)
Definition orderedKinds (nSource nDocument nPickle nStepDefinition nHook nTestCase : nat)
    (attempts : list RunKind) : list Kind :=
  ([meta] ++ repeat source nSource ++ repeat gherkinDocument nDocument
     ++ repeat pickle nPickle ++ repeat stepDefinition nStepDefinition
     ++ repeat hook nHook ++ [testRunStarted] ++ repeat testCase nTestCase
     ++ map runAttempt attempts ++ [testRunFinished])%list.


(** [y] is none of [keys]. *)
Definition absent (keys : list string) (y : string) : bool :=
  negb (existsb (String.eqb y) keys).

(** The ids of a list without repetition, each at the place where it
    occurs first. *)
Fixpoint firstOccurrences (ids : list string) : list string :=
  match ids with
  | [] => []
  | x :: rest => x :: List.filter (fun y => negb (String.eqb y x)) (firstOccurrences rest)
  end.


Section WithBody.

(** What the collaborators put inside the messages they build; the
    builder never looks into it. *)
Context {Body : Type}.

Record TestCaseRunEnvelope : Type := {
  runKind : RunKind;
  runBody : Body
}.

(** One message of the output stream: an object with exactly one of
    the protocol's keys. *)
Inductive Envelope : Type :=
  | Meta (m : Body)
  | Source (m : Body)
  | GherkinDoc (m : Body)
  | Pickle (m : Body)
  | StepDefinition (m : Body)
  | HookDef (m : Body)
  | RunStarted (m : TestRunStarted)
  | TestCaseDef (m : Body)
  | RunAttempt (m : TestCaseRunEnvelope)
  | RunFinished (m : TestRunFinished).

Definition kindOf (e : Envelope) : Kind :=
  match e with
  | Meta _ => meta
  | Source _ => source
  | GherkinDoc _ => gherkinDocument
  | Pickle _ => pickle
  | StepDefinition _ => stepDefinition
  | HookDef _ => hook
  | RunStarted _ => testRunStarted
  | TestCaseDef _ => testCase
  | RunAttempt m => runAttempt (runKind m)
  | RunFinished _ => testRunFinished
  end.

(** [this.report], its keys in the order they are written. *)
Record Report : Type := {
  report_meta : option Body;
  report_source : list Body;
  report_gherkinDocument : list Body;
  report_pickle : list Body;
  report_stepDefinition : list Body;
  report_hook : list Body;
  report_testRunStarted : option TestRunStarted;
  report_testCase : list Body;
  report_testCaseRuns : list TestCaseRunEnvelope;
  report_testRunFinished : option TestRunFinished
}.

Definition emptyReport : Report :=
  {| report_meta := None; report_source := []; report_gherkinDocument := [];
     report_pickle := []; report_stepDefinition := []; report_hook := [];
     report_testRunStarted := None; report_testCase := [];
     report_testCaseRuns := []; report_testRunFinished := None |}.

(** *** The aggregation *)

(** Modelled from the spec: [TestCaseRun] is not among the sources; one
    attempt of a test, made of the test and the result when the attempt
    ends.  The builder reads [test], [result] and [projectInfo] of it. *)
Record TestCaseRun : Type := {
  run_test : PwTestCase;
  run_result : PwTestResult
}.

Definition projectInfo (run : TestCaseRun) : option Project :=
  project (run_test run).

(** Modelled from the spec: [TestCase] is not among the sources; a
    Test Case is the logical identity of one test, owns the ordered
    list of its Test Case Runs, one per attempt, and the documents
    it was generated from. *)
Record TestCase : Type := {
  testCase_id : string;
  testCase_documents : list Body;
  testCase_runs : list TestCaseRun
}.

Definition newTestCase (testId : string) (documents : list Body) : TestCase :=
  {| testCase_id := testId; testCase_documents := documents; testCase_runs := [] |}.

Definition addRun (run : TestCaseRun) (testCase : TestCase) : TestCase :=
  {| testCase_id := testCase_id testCase;
     testCase_documents := testCase_documents testCase;
     testCase_runs := testCase_runs testCase ++ [run] |}.

(** Modelled from the spec: [AutofillMap] of [utils/AutofillMap] is
    not among the sources; a map whose entries are created lazily on
    the first use of a key and never destroyed.  Entries are kept in
    the order of their creation, the order in which a [Map] is
    iterated. *)
Definition AutofillMap (V : Type) : Type := list (string * V).

Fixpoint get {V} (key : string) (m : AutofillMap V) : option V :=
  match m with
  | [] => None
  | (k, v) :: rest => if String.eqb k key then Some v else get key rest
  end.

Definition getOrCreate {V} (key : string) (createFn : unit -> V)
    (m : AutofillMap V) : AutofillMap V :=
  match get key m with
  | Some _ => m
  | None => (m ++ [(key, createFn tt)])%list
  end.

(** The object stored under [key] is changed in place. *)
Fixpoint update {V} (key : string) (f : V -> V) (m : AutofillMap V) : AutofillMap V :=
  match m with
  | [] => []
  | (k, v) :: rest =>
      if String.eqb k key then (k, f v) :: rest
      else (k, v) :: update key f rest
  end.

Definition values {V} (m : AutofillMap V) : list V := map snd m.

(** A hook as met during a run; the builder only asks it for its
    message. *)
Record Hook : Type := {
  hook_internalId : string;
  hook_body : Body
}.

(** [GherkinDocuments] once [load] has run: the documents of each
    project and the messages built from them. *)
Record GherkinDocuments : Type := {
  getDocumentsForProject : option Project -> list Body;
  sourceMessages : list Body;
  gherkinDocumentMessages : list Body
}.

Record Builder : Type := {
  report : Report;
  fullResult : option FullResult;
  testCaseRuns : list TestCaseRun;
  testCases : AutofillMap TestCase;
  hooks : AutofillMap Hook;
  gherkinDocuments : GherkinDocuments;
  fullResultTiming : option TimeMeasured;
  buildStarted : bool;                      (* this.buildMessagesPromise is set *)
  collected : list Envelope                 (* received by the EventDataCollector *)
}.

End WithBody.

Arguments TestCaseRunEnvelope : clear implicits.
Arguments Envelope : clear implicits.
Arguments Report : clear implicits.
Arguments TestCase : clear implicits.
Arguments Hook : clear implicits.
Arguments GherkinDocuments : clear implicits.
Arguments Builder : clear implicits.

Section Assembler.

Context {Body : Type}.

Local Abbreviation Builder := (Builder Body).
Local Abbreviation Report := (Report Body).
Local Abbreviation Envelope := (Envelope Body).

(** [hasBddConfig] of [config/env], applied to
    [test.parent.project()?.testDir]. *)
Variable hasBddConfig : option string -> bool.
(** The constructor of [TestCaseRun] enters the hooks of the attempt
    into [this.hooks]. *)
Variable registerHooks :
  PwTestCase -> PwTestResult -> AutofillMap (Hook Body) -> AutofillMap (Hook Body).
(** [this.gherkinDocuments.load(this.testCaseRuns)] *)
Variable loadDocuments : list TestCaseRun -> GherkinDocuments Body.
(** [new Meta().buildMessage()] *)
Variable metaMessage : Body.
(** [new Pickles().buildMessages(this.testCases)] *)
Variable pickleMessages : AutofillMap (TestCase Body) -> list Body.
(** [hook.buildMessage()] and [testCase.buildMessage()] *)
Variable hookMessage : Hook Body -> Body.
Variable testCaseMessage : TestCase Body -> Body.
(** [testCaseRun.buildMessages()], the run knowing its test case. *)
Variable runMessages :
  TestCaseRun -> option (TestCase Body) -> list (TestCaseRunEnvelope Body).
(** [new Date()] at the moment the timing is computed. *)
Variable now : Z.

(** **** Field updates *)

Definition withReport (r : Report) (b : Builder) : Builder :=
  {| report := r; fullResult := fullResult b; testCaseRuns := testCaseRuns b;
     testCases := testCases b; hooks := hooks b;
     gherkinDocuments := gherkinDocuments b;
     fullResultTiming := fullResultTiming b;
     buildStarted := buildStarted b; collected := collected b |}.

Definition withFullResult (fr : FullResult) (b : Builder) : Builder :=
  {| report := report b; fullResult := Some fr; testCaseRuns := testCaseRuns b;
     testCases := testCases b; hooks := hooks b;
     gherkinDocuments := gherkinDocuments b;
     fullResultTiming := fullResultTiming b;
     buildStarted := buildStarted b; collected := collected b |}.

Definition withRun (run : TestCaseRun)
    (hs : AutofillMap (Hook Body)) (b : Builder) : Builder :=
  {| report := report b; fullResult := fullResult b;
     testCaseRuns := testCaseRuns b ++ [run];
     testCases := testCases b; hooks := hs;
     gherkinDocuments := gherkinDocuments b;
     fullResultTiming := fullResultTiming b;
     buildStarted := buildStarted b; collected := collected b |}.

Definition withTestCases (tcs : AutofillMap (TestCase Body)) (b : Builder) : Builder :=
  {| report := report b; fullResult := fullResult b; testCaseRuns := testCaseRuns b;
     testCases := tcs; hooks := hooks b;
     gherkinDocuments := gherkinDocuments b;
     fullResultTiming := fullResultTiming b;
     buildStarted := buildStarted b; collected := collected b |}.

Definition withDocuments (docs : GherkinDocuments Body) (b : Builder) : Builder :=
  {| report := report b; fullResult := fullResult b; testCaseRuns := testCaseRuns b;
     testCases := testCases b; hooks := hooks b;
     gherkinDocuments := docs;
     fullResultTiming := fullResultTiming b;
     buildStarted := buildStarted b; collected := collected b |}.

Definition withTiming (t : TimeMeasured) (b : Builder) : Builder :=
  {| report := report b; fullResult := fullResult b; testCaseRuns := testCaseRuns b;
     testCases := testCases b; hooks := hooks b;
     gherkinDocuments := gherkinDocuments b;
     fullResultTiming := Some t;
     buildStarted := buildStarted b; collected := collected b |}.

Definition withBuildStarted (b : Builder) : Builder :=
  {| report := report b; fullResult := fullResult b; testCaseRuns := testCaseRuns b;
     testCases := testCases b; hooks := hooks b;
     gherkinDocuments := gherkinDocuments b;
     fullResultTiming := fullResultTiming b;
     buildStarted := true; collected := collected b |}.

Definition withCollected (es : list Envelope) (b : Builder) : Builder :=
  {| report := report b; fullResult := fullResult b; testCaseRuns := testCaseRuns b;
     testCases := testCases b; hooks := hooks b;
     gherkinDocuments := gherkinDocuments b;
     fullResultTiming := fullResultTiming b;
     buildStarted := buildStarted b; collected := collected b ++ es |}.

(** [new MessagesBuilder()] *)
Definition newBuilder : Builder :=
  {| report := emptyReport; fullResult := None; testCaseRuns := [];
     testCases := []; hooks := [];
     gherkinDocuments :=
       {| getDocumentsForProject := fun _ => [];
          sourceMessages := []; gherkinDocumentMessages := [] |};
     fullResultTiming := None; buildStarted := false; collected := [] |}.

(** **** The reporter's events *)

Definition onTestEnd (b : Builder) (test : PwTestCase) (result : PwTestResult) : Builder :=
  (* Skip tests of non-bdd projects *)
  if negb (hasBddConfig (testDir <$> project test)) then b
  (* For skipped tests there is no bddData attachment *)
  else if bool_decide (expectedStatus test = skipped) then b
  else
    let testCaseRun := {| run_test := test; run_result := result |} in
    withRun testCaseRun (registerHooks test result (hooks b)) b.

Definition onEnd (b : Builder) (fr : FullResult) : Builder :=
  withFullResult fr b.

(** **** Building the report *)

(** [loadFeatures()]: [loadDocuments] is what
    [await this.gherkinDocuments.load(this.testCaseRuns)] leaves once it
    has settled; a load that does not settle has no outcome here. *)
Definition loadFeatures (b : Builder) : Builder :=
  withDocuments (loadDocuments (testCaseRuns b)) b.

Definition createTestCase (tcs : AutofillMap (TestCase Body))
    (docs : GherkinDocuments Body) (testCaseRun : TestCaseRun)
    : AutofillMap (TestCase Body) :=
  let testId := id (run_test testCaseRun) in
  let gherkinDocsForProject := getDocumentsForProject docs (projectInfo testCaseRun) in
  let tcs' := getOrCreate testId (fun _ => newTestCase testId gherkinDocsForProject) tcs in
  update testId (addRun testCaseRun) tcs'.

Definition createTestCases (b : Builder) : Builder :=
  withTestCases
    (fold_left (fun tcs run => createTestCase tcs (gherkinDocuments b) run)
               (testCaseRuns b) (testCases b))
    b.

Definition addMeta (b : Builder) : Builder :=
  let r := report b in
  withReport
    {| report_meta := Some metaMessage;
       report_source := report_source r;
       report_gherkinDocument := report_gherkinDocument r;
       report_pickle := report_pickle r;
       report_stepDefinition := report_stepDefinition r;
       report_hook := report_hook r;
       report_testRunStarted := report_testRunStarted r;
       report_testCase := report_testCase r;
       report_testCaseRuns := report_testCaseRuns r;
       report_testRunFinished := report_testRunFinished r |} b.

Definition addSourcesAndDocuments (b : Builder) : Builder :=
  let r := report b in
  withReport
    {| report_meta := report_meta r;
       report_source := sourceMessages (gherkinDocuments b);
       report_gherkinDocument := gherkinDocumentMessages (gherkinDocuments b);
       report_pickle := report_pickle r;
       report_stepDefinition := report_stepDefinition r;
       report_hook := report_hook r;
       report_testRunStarted := report_testRunStarted r;
       report_testCase := report_testCase r;
       report_testCaseRuns := report_testCaseRuns r;
       report_testRunFinished := report_testRunFinished r |} b.

Definition addPickles (b : Builder) : Builder :=
  let r := report b in
  withReport
    {| report_meta := report_meta r;
       report_source := report_source r;
       report_gherkinDocument := report_gherkinDocument r;
       report_pickle := pickleMessages (testCases b);
       report_stepDefinition := report_stepDefinition r;
       report_hook := report_hook r;
       report_testRunStarted := report_testRunStarted r;
       report_testCase := report_testCase r;
       report_testCaseRuns := report_testCaseRuns r;
       report_testRunFinished := report_testRunFinished r |} b.

Definition addHooks (b : Builder) : Builder :=
  let r := report b in
  withReport
    {| report_meta := report_meta r;
       report_source := report_source r;
       report_gherkinDocument := report_gherkinDocument r;
       report_pickle := report_pickle r;
       report_stepDefinition := report_stepDefinition r;
       report_hook := report_hook r ++ map hookMessage (values (hooks b));
       report_testRunStarted := report_testRunStarted r;
       report_testCase := report_testCase r;
       report_testCaseRuns := report_testCaseRuns r;
       report_testRunFinished := report_testRunFinished r |} b.

Definition addTestCases (b : Builder) : Builder :=
  let r := report b in
  withReport
    {| report_meta := report_meta r;
       report_source := report_source r;
       report_gherkinDocument := report_gherkinDocument r;
       report_pickle := report_pickle r;
       report_stepDefinition := report_stepDefinition r;
       report_hook := report_hook r;
       report_testRunStarted := report_testRunStarted r;
       report_testCase :=
         report_testCase r ++ map testCaseMessage (values (testCases b));
       report_testCaseRuns := report_testCaseRuns r;
       report_testRunFinished := report_testRunFinished r |} b.

Definition addTestCaseRuns (b : Builder) : Builder :=
  let r := report b in
  withReport
    {| report_meta := report_meta r;
       report_source := report_source r;
       report_gherkinDocument := report_gherkinDocument r;
       report_pickle := report_pickle r;
       report_stepDefinition := report_stepDefinition r;
       report_hook := report_hook r;
       report_testRunStarted := report_testRunStarted r;
       report_testCase := report_testCase r;
       report_testCaseRuns :=
         report_testCaseRuns r ++
         concat (map (fun run =>
                        runMessages run (get (id (run_test run)) (testCases b)))
                     (testCaseRuns b));
       report_testRunFinished := report_testRunFinished r |} b.

Definition getEndTime (t : TimeMeasured) : Z := startTime t + duration t.

(** Modelled from the spec: [calcMinMaxByArray] of [./timing] is not
    among the sources; the start is the earliest available start time
    across all observed attempts, and the duration reaches from it to
    the latest end.  With nothing observed both are the present. *)
Definition calcMinMaxByArray (items : list TimeMeasured) : TimeMeasured :=
  let first := match items with [] => now | item :: _ => startTime item end in
  let last := match items with [] => now | item :: _ => getEndTime item end in
  let earliest :=
    fold_left (fun acc item => if startTime item <? acc then startTime item else acc)
              items first in
  let latest :=
    fold_left (fun acc item => if acc <? getEndTime item then getEndTime item else acc)
              items last in
  {| startTime := earliest; duration := latest - earliest |}.

(** [None] stands for the [TypeError] of reading [this.fullResult]
    before [onEnd]. *)
Definition getFullResultTiming (b : Builder) : option (TimeMeasured * Builder) :=
  match fullResultTiming b with
  | Some t => Some (t, b)
  | None =>
      fr ← fullResult b;
      let t :=
        match fullStartTime fr, fullDuration fr with
        | Some s, Some d => {| startTime := s; duration := d |}
        | _, _ =>
            (* Calculate overall startTime and duration based on test timings *)
            calcMinMaxByArray (map (fun t => timing (run_result t)) (testCaseRuns b))
        end in
      Some (t, withTiming t b)
  end.

Definition addTestRunStarted (b : Builder) : option Builder :=
  '(t, b) ← getFullResultTiming b;
  let r := report b in
  Some (withReport
    {| report_meta := report_meta r;
       report_source := report_source r;
       report_gherkinDocument := report_gherkinDocument r;
       report_pickle := report_pickle r;
       report_stepDefinition := report_stepDefinition r;
       report_hook := report_hook r;
       report_testRunStarted :=
         Some {| started_timestamp := toCucumberTimestamp (startTime t) |};
       report_testCase := report_testCase r;
       report_testCaseRuns := report_testCaseRuns r;
       report_testRunFinished := report_testRunFinished r |} b).

Definition addTestRunFinished (b : Builder) : option Builder :=
  '(t, b) ← getFullResultTiming b;
  fr ← fullResult b;
  let r := report b in
  Some (withReport
    {| report_meta := report_meta r;
       report_source := report_source r;
       report_gherkinDocument := report_gherkinDocument r;
       report_pickle := report_pickle r;
       report_stepDefinition := report_stepDefinition r;
       report_hook := report_hook r;
       report_testRunStarted := report_testRunStarted r;
       report_testCase := report_testCase r;
       report_testCaseRuns := report_testCaseRuns r;
       report_testRunFinished :=
         Some {| success := bool_decide (fullStatus fr = passed);
                 finished_timestamp :=
                   toCucumberTimestamp (startTime t + duration t) |} |} b).

(** [Array.isArray(value) ? value : [value]], nothing for [null]. *)
Definition single {A} (wrap : A -> Envelope) (value : option A) : list Envelope :=
  match value with
  | None => []
  | Some message => [wrap message]
  end.

(** [Object.values(this.report)]: the values in the order of the keys. *)
Definition reportValues (r : Report) : list (list Envelope) :=
  [ single Meta (report_meta r);
    map Source (report_source r);
    map GherkinDoc (report_gherkinDocument r);
    map Pickle (report_pickle r);
    map StepDefinition (report_stepDefinition r);
    map HookDef (report_hook r);
    single RunStarted (report_testRunStarted r);
    map TestCaseDef (report_testCase r);
    map RunAttempt (report_testCaseRuns r);
    single RunFinished (report_testRunFinished r) ].

(** The envelopes that [emitMessages] hands to the broadcaster, in
    order. *)
Definition emitMessages (b : Builder) : list Envelope :=
  concat (reportValues (report b)).

Definition buildEventDataCollector (b : Builder) : Builder :=
  withCollected (emitMessages b) b.

(** [None]: [onEnd] has not been called, the build stays pending. *)
Definition doBuildMessages (b : Builder) : option Builder :=
  _ ← fullResult b;
  (* order here is important *)
  let b := loadFeatures b in
  let b := createTestCases b in
  let b := addMeta b in
  let b := addSourcesAndDocuments b in
  let b := addPickles b in
  let b := addHooks b in
  b ← addTestRunStarted b;
  let b := addTestCases b in
  let b := addTestCaseRuns b in
  b ← addTestRunFinished b;
  Some (buildEventDataCollector b).

(** Messages are built once for all reporters. *)
Definition buildMessages (b : Builder) : option Builder :=
  if buildStarted b then Some b
  else doBuildMessages (withBuildStarted b).

(** A whole run of the reporter: every test end, then the end of the
    run, then the build. *)
Definition absorb (ends : list (PwTestCase * PwTestResult)) (b : Builder) : Builder :=
  fold_left (fun b e => onTestEnd b (fst e) (snd e)) ends b.

Definition reportOf (ends : list (PwTestCase * PwTestResult)) (fr : FullResult)
    : option Builder :=
  buildMessages (onEnd (absorb ends newBuilder) fr).

(** **** Notions used to state the properties of the builder *)

(** A test end that [onTestEnd] records: the test belongs to a BDD
    project and is not expected to be skipped. *)
Definition recorded (e : PwTestCase * PwTestResult) : bool :=
  hasBddConfig (testDir <$> project (fst e))
  && negb (bool_decide (expectedStatus (fst e) = skipped)).

Definition runOf (e : PwTestCase * PwTestResult) : TestCaseRun :=
  {| run_test := fst e; run_result := snd e |}.

(** The runs made for the recorded test ends, in the order observed. *)
Definition recordedRuns (ends : list (PwTestCase * PwTestResult)) : list TestCaseRun :=
  map runOf (List.filter recorded ends).

(** The runs among [runs] of the test [testId], in order. *)
Definition runsOfTest (testId : string) (runs : list TestCaseRun) : list TestCaseRun :=
  List.filter (fun run => String.eqb (id (run_test run)) testId) runs.

(** The runs that the test case of [testId] owns, none when there is no
    such test case. *)
Definition ownedRuns (testId : string) (tcs : AutofillMap (TestCase Body))
    : list TestCaseRun :=
  match get testId tcs with
  | Some tc => testCase_runs tc
  | None => []
  end.

(** Every test case is stored under its own id. *)
Definition wellKeyed (tcs : AutofillMap (TestCase Body)) : Prop :=
  forall testId tc, get testId tcs = Some tc -> testCase_id tc = testId.

(** The test cases that [createTestCases] makes of the recorded runs. *)
Definition groupedTestCases (ends : list (PwTestCase * PwTestResult))
    : AutofillMap (TestCase Body) :=
  fold_left
    (fun tcs run => createTestCase tcs (loadDocuments (recordedRuns ends)) run)
    (recordedRuns ends) [].


(** The timing of the whole run that [getFullResultTiming] settles on. *)
Definition overallTiming (fr : FullResult) (runs : list TestCaseRun) : TimeMeasured :=
  match fullStartTime fr, fullDuration fr with
  | Some s, Some d => {| startTime := s; duration := d |}
  | _, _ => calcMinMaxByArray (map (fun t => timing (run_result t)) runs)
  end.


End Assembler.

(** *** Sample inputs *)

Definition sampleHasBddConfig (dir : option string) : bool :=
  bool_decide (dir = Some ".features-gen").

Definition bddProject : Project :=
  {| projectName := "bdd"; testDir := ".features-gen" |}.

Definition plainProject : Project :=
  {| projectName := "unit"; testDir := "tests" |}.

Definition sampleTest (testId : string) (expected : TestStatus) (p : Project)
    : PwTestCase :=
  {| id := testId; title := "signs in"; expectedStatus := expected;
     project := Some p |}.

Definition sampleResult (attempt : nat) (outcome : TestStatus) (start length : Z)
    : PwTestResult :=
  {| retry := attempt; status := outcome;
     timing := {| startTime := start; duration := length |} |}.

Definition sampleDocumentsOf (runs : list TestCaseRun) : GherkinDocuments string :=
  {| getDocumentsForProject := fun _ => ["features/login.feature"];
     sourceMessages := ["features/login.feature"];
     gherkinDocumentMessages := ["features/login.feature"] |}.

Definition sampleRunMessages (run : TestCaseRun) (tc : option (TestCase string))
    : list (TestCaseRunEnvelope string) :=
  [ {| runKind := testCaseStarted; runBody := id (run_test run) |};
    {| runKind := testStepStarted; runBody := "Given I open the page" |};
    {| runKind := testStepFinished; runBody := "Given I open the page" |};
    {| runKind := testCaseFinished; runBody := id (run_test run) |} ].

Definition sampleReportOf (ends : list (PwTestCase * PwTestResult)) (fr : FullResult)
    : option (Builder string) :=
  reportOf sampleHasBddConfig (fun _ _ hs => hs) sampleDocumentsOf "meta"
           (fun tcs => map fst tcs) hook_body testCase_id sampleRunMessages 0
           ends fr.

(** A full result of a Playwright older than 1.37. *)
Definition sampleFullResult : FullResult :=
  {| fullStatus := passed; fullStartTime := None; fullDuration := None |}.

Definition skippedEnd : PwTestCase * PwTestResult :=
  (sampleTest "t2" skipped bddProject, sampleResult 0 skipped 1100 0).

Definition plainEnd : PwTestCase * PwTestResult :=
  (sampleTest "t3" passed plainProject, sampleResult 0 failed 1200 40).

Definition failedAttempt : PwTestCase * PwTestResult :=
  (sampleTest "t1" passed bddProject, sampleResult 0 failed 1000 250).

Definition passedAttempt : PwTestCase * PwTestResult :=
  (sampleTest "t1" passed bddProject, sampleResult 1 passed 1300 200).

(** A test that fails and passes when retried, a test expected to be
    skipped, and a test of a project without BDD configuration. *)
Definition sampleEnds : list (PwTestCase * PwTestResult) :=
  [ failedAttempt; skippedEnd; plainEnd; passedAttempt ].


End Messages.

(* ===================================================================== *)
(** ** BDD config (src/config/index.ts)                                   *)
(* ===================================================================== *)

Module Config.

(** The values that the fields of an input config hold.  [Import] is an
    [ImportTestFrom] object, [Undefined] a field written out with no
    value. *)
Inductive Value : Type :=
  | Undefined
  | Bool (b : bool)
  | Str (s : string)
  | Strs (l : list string)
  | Import (file : string) (varName : option string).

#[global] Instance Value_eq_dec : EqDecision Value.
Proof. solve_decision. Defined.

(** A config object: its own properties by name. *)
Abbreviation ConfigObject := (gmap string Value).

(** [obj.key]: a missing property reads as [undefined]. *)
Definition prop (key : string) (obj : ConfigObject) : Value :=
  default Undefined (obj !! key).

(** The truthiness of JavaScript. *)
Definition truthy (v : Value) : bool :=
  match v with
  | Undefined => false
  | Bool b => b
  | Str s => negb (String.eqb s EmptyString)
  | Strs _ => true
  | Import _ _ => true
  end.

(** What [path.resolve] throws for an argument that is not a string. *)
Inductive Thrown : Type :=
  | TypeError.

Definition defaults : ConfigObject :=
  <["outputDir" := Str ".features-gen"]>
  (<["verbose" := Bool false]>
  (<["examplesTitleFormat" := Str "Example #<_index_>"]>
  (<["publishQuiet" := Bool true]>
  (<["quotes" := Str "double"]> ∅)))).

(** The process that evaluates the Playwright config: the index of the
    worker, when it is one, and the environment that [saveConfigToEnv]
    of [./env] writes. *)
Record Process (Env : Type) : Type := {
  TEST_WORKER_INDEX : option string;
  environment : Env
}.
Arguments TEST_WORKER_INDEX {Env} _.
Arguments environment {Env} _.

Definition isWorker {Env} (p : Process Env) : bool :=
  match TEST_WORKER_INDEX p with
  | Some index => negb (String.eqb index EmptyString)
  | None => false
  end.

Section WithDirs.

(** [getPlaywrightConfigDir()] and [process.cwd()] *)
Variable configDir : string.
Variable cwd : string.

(** [path.resolve(configDir, v)] *)
Definition resolveIn (v : Value) : Thrown + string :=
  match v with
  | Str s => inr (Path.resolve cwd configDir s)
  | _ => inl TypeError
  end.

Definition resolveImportTestFrom (importTestFrom : Value) : Thrown + Value :=
  if truthy importTestFrom
  then
    (* typeof importTestFrom === 'string' ? { file: importTestFrom } : importTestFrom *)
    match importTestFrom with
    | Str s => inr (Import (Path.resolve cwd configDir s) None)
    | Import file varName => inr (Import (Path.resolve cwd configDir file) varName)
    | _ => inl TypeError         (* no [file] to resolve *)
    end
  else inr Undefined.

(** [Object.assign({}, defaults, inputConfig)]: the properties of the
    input win over the defaults. *)
Definition assignDefaults (inputConfig : option ConfigObject) : ConfigObject :=
  match inputConfig with
  | Some input => input ∪ defaults
  | None => defaults
  end.

Definition getConfig (inputConfig : option ConfigObject) : Thrown + ConfigObject :=
  let config := assignDefaults inputConfig in
  match resolveIn (prop "outputDir" config) with
  | inl e => inl e
  | inr dir =>
      match resolveImportTestFrom (prop "importTestFrom" config) with
      | inl e => inl e
      | inr importTestFrom =>
          inr (<["importTestFrom" := importTestFrom]>
               (<["outputDir" := Str dir]> config))
      end
  end.

Definition extractCucumberConfig (config : ConfigObject) : ConfigObject :=
  delete "importTestFrom" (delete "outputDir" config).

Definition defineBddConfig {Env} (saveConfigToEnv : ConfigObject -> Env -> Env)
    (inputConfig : option ConfigObject) (p : Process Env)
    : Thrown + (Value * Process Env) :=
  match getConfig inputConfig with
  | inl e => inl e
  | inr config =>
      (* In main process store config in env to be accessible by workers *)
      let p' :=
        if isWorker p then p
        else {| TEST_WORKER_INDEX := TEST_WORKER_INDEX p;
                environment := saveConfigToEnv config (environment p) |} in
      inr (prop "outputDir" config, p')
  end.

End WithDirs.

(** The first project of [test/projects/playwright.config.ts]. *)
Definition projectOne : ConfigObject :=
  <["outputDir" := Str ".features-gen/one"]>
  (<["importTestFrom" := Str "one/steps/fixtures.ts"]>
  (<["paths" := Strs ["one/*.feature"]]>
  (<["require" := Strs ["one/steps/steps-*.ts"]]> ∅))).

(** Its config, the Playwright config lying in [/proj]. *)
Definition resolvedProjectOne : ConfigObject :=
  match getConfig "/proj" "/proj" (Some projectOne) with
  | inr config => config
  | inl _ => ∅
  end.

(** The main process, with an environment that lists the configs saved. *)
Definition mainProcess : Process (list ConfigObject) :=
  {| TEST_WORKER_INDEX := None; environment := [] |}.


End Config.


(* ===================================================================== *)
(** * Properties of the paths                                             *)
(* ===================================================================== *)

Module PathFacts.

Import Path.

Local Open Scope list_scope.

Lemma split_slashFree s : Forall (fun p => slashFree p = true) (split s).
Proof.
  induction s as [| c rest IH]; simpl.
  - repeat constructor.
  - destruct (Ascii.eqb c slash) eqn:E.
    + constructor; [reflexivity | exact IH].
    + destruct (split rest) as [| piece pieces]; inversion IH; subst;
        constructor; simpl; try rewrite E; auto.
Qed.

(** A string without separator is its own single piece. *)
Lemma split_single p : slashFree p = true -> split p = [p].
Proof.
  induction p as [| c rest IH]; simpl; [reflexivity |].
  intros H. apply andb_true_iff in H as [Hc Hrest].
  apply negb_true_iff in Hc. rewrite Hc, (IH Hrest). reflexivity.
Qed.

Lemma split_cons_piece p s :
  slashFree p = true -> split (p ++ str1 slash ++ s)%string = p :: split s.
Proof.
  induction p as [| c rest IH]; simpl; intros H.
  - reflexivity.
  - apply andb_true_iff in H as [Hc Hrest]. apply negb_true_iff in Hc.
    rewrite Hc, (IH Hrest). reflexivity.
Qed.

Lemma split_join segments :
  segments <> [] ->
  Forall (fun p => slashFree p = true) segments ->
  split (join (str1 slash) segments) = segments.
Proof.
  induction segments as [| p rest IH]; [congruence |]. intros _ H.
  inversion H as [| ? ? Hp Hrest]; subst.
  destruct rest as [| q rest'].
  - simpl. apply split_single. exact Hp.
  - change (join (str1 slash) (p :: q :: rest'))
      with (p ++ str1 slash ++ join (str1 slash) (q :: rest'))%string.
    rewrite split_cons_piece by exact Hp. f_equal. apply IH; [discriminate | exact Hrest].
Qed.

Lemma normalizeFrom_app stack a b :
  normalizeFrom stack (a ++ b) = normalizeFrom (rev (normalizeFrom stack a)) b.
Proof.
  revert stack. induction a as [| p rest IH]; intros stack; simpl.
  - rewrite rev_involutive. reflexivity.
  - destruct (String.eqb p EmptyString); [apply IH |].
    destruct (String.eqb p "."); [apply IH |].
    destruct (String.eqb p ".."); apply IH.
Qed.

Lemma normalizeFrom_proper stack segments :
  Forall (fun p => properName p = true) segments ->
  normalizeFrom stack segments = rev stack ++ segments.
Proof.
  intros H. revert stack. induction H as [| p rest Hp _ IH]; intros stack; simpl.
  - rewrite app_nil_r. reflexivity.
  - unfold properName in Hp.
    apply andb_true_iff in Hp as [Hp Hdd]. apply andb_true_iff in Hp as [Hp Hd].
    apply andb_true_iff in Hp as [_ He].
    apply negb_true_iff in Hdd, Hd, He. rewrite He, Hd, Hdd, IH. simpl.
    rewrite <- app_assoc. reflexivity.
Qed.

(** What normalisation keeps are proper names. *)
Lemma normalizeFrom_keeps_proper stack pieces :
  Forall (fun p => properName p = true) stack ->
  Forall (fun p => slashFree p = true) pieces ->
  Forall (fun p => properName p = true) (normalizeFrom stack pieces).
Proof.
  intros Hstack Hpieces. revert stack Hstack.
  induction Hpieces as [| p rest Hp _ IH]; intros stack Hstack; simpl.
  - apply Forall_rev. exact Hstack.
  - destruct (String.eqb p EmptyString) eqn:He; [apply IH, Hstack |].
    destruct (String.eqb p ".") eqn:Hd; [apply IH, Hstack |].
    destruct (String.eqb p "..") eqn:Hdd.
    + apply IH. destruct stack; [constructor | inversion Hstack; assumption].
    + apply IH. constructor; [| exact Hstack].
      unfold properName. rewrite Hp, He, Hd, Hdd. reflexivity.
Qed.

Lemma resolveSegments_proper cwd from to :
  Forall (fun p => properName p = true) (resolveSegments cwd from to).
Proof.
  unfold resolveSegments, normalize.
  destruct (isAbsolute to); [| destruct (isAbsolute from)];
    apply normalizeFrom_keeps_proper; try constructor;
    repeat apply Forall_app_2; apply split_slashFree.
Qed.

Lemma properName_slashFree segments :
  Forall (fun p => properName p = true) segments ->
  Forall (fun p => slashFree p = true) segments.
Proof.
  intros Hall. eapply List.Forall_impl; [| exact Hall].
  intros p H. unfold properName in H.
  repeat (apply andb_true_iff in H as [H _]). exact H.
Qed.

(** Splitting a joined list of proper names and normalising the pieces
    on top of a stack adds the names to the stack. *)
Lemma normalizeFrom_split_join stack segments :
  Forall (fun p => properName p = true) segments ->
  normalizeFrom stack (split (join (str1 slash) segments)) = rev stack ++ segments.
Proof.
  intros H. destruct segments as [| p rest].
  - simpl. rewrite app_nil_r. reflexivity.
  - rewrite split_join; [| discriminate | apply properName_slashFree, H].
    apply normalizeFrom_proper, H.
Qed.

(** Resolving the rendering of resolved segments gives them back. *)
Lemma resolveSegments_render cwd segments :
  Forall (fun p => properName p = true) segments ->
  resolveSegments cwd cwd (render segments) = segments.
Proof.
  intros H.
  assert (Habs : isAbsolute (render segments) = true).
  { unfold isAbsolute, startsWith, render.
    destruct (join (str1 slash) segments); reflexivity. }
  unfold resolveSegments. rewrite Habs. unfold normalize, render.
  change (split (str1 slash ++ join (str1 slash) segments)%string)
    with (EmptyString :: split (join (str1 slash) segments)).
  cbn [normalizeFrom String.eqb]. apply (normalizeFrom_split_join [] segments H).
Qed.

Lemma stripCommon_app root down : stripCommon root (root ++ down) = ([], down).
Proof.
  induction root as [| p rest IH]; simpl.
  - destruct down; reflexivity.
  - rewrite String.eqb_refl. exact IH.
Qed.

Lemma join_proper_not_absolute segments :
  Forall (fun p => properName p = true) segments ->
  isAbsolute (join (str1 slash) segments) = false.
Proof.
  intros H. destruct segments as [| p rest]; [reflexivity |].
  inversion H as [| ? ? Hp _]; subst. unfold properName in Hp.
  repeat (apply andb_true_iff in Hp as [Hp ?]).
  destruct p as [| c p']; [discriminate |].
  simpl in Hp. apply andb_true_iff in Hp as [Hc _]. apply negb_true_iff in Hc.
  assert (Hne : c <> slash) by (intros ->; rewrite Ascii.eqb_refl in Hc; discriminate).
  unfold isAbsolute, startsWith, str1. destruct rest as [| q r].
  - cbn [join String.prefix]. destruct (ascii_dec slash c); congruence.
  - change (join (String slash EmptyString) (String c p' :: q :: r))
      with (String c (p' ++ String slash EmptyString
                         ++ join (String slash EmptyString) (q :: r)))%string.
    cbn [String.prefix]. destruct (ascii_dec slash c); congruence.
Qed.

(** Resolving a relative path of proper names against a directory puts
    the names below the directory. *)
Lemma resolveSegments_below cwd dir down :
  isAbsolute cwd = true ->
  Forall (fun p => properName p = true) down ->
  resolveSegments cwd dir (join (str1 slash) down) = resolveSegments cwd cwd dir ++ down.
Proof.
  intros Hcwd Hdown. unfold resolveSegments.
  rewrite (join_proper_not_absolute down Hdown), Hcwd. unfold normalize.
  destruct (isAbsolute dir).
  - rewrite normalizeFrom_app, normalizeFrom_split_join by exact Hdown.
    rewrite rev_involutive. reflexivity.
  - rewrite app_assoc, normalizeFrom_app, normalizeFrom_split_join by exact Hdown.
    rewrite rev_involutive. reflexivity.
Qed.

End PathFacts.


(* ===================================================================== *)
(** * Properties of the generation pass                                   *)
(* ===================================================================== *)

Local Open Scope list_scope.

(** ** Running the exit monad *)

Lemma run_bind {A B} (m : Gen A) (k : A -> Gen B) (st : GenState) :
  (m ≫= k) st =
  match m st with
  | (Returned a, st') => k a st'
  | (Exited messages, st') => (Exited messages, st')
  end.
Proof. reflexivity. Qed.

Lemma bind_inv {A B} (m : Gen A) (k : A -> Gen B) st o st' :
  (m ≫= k) st = (o, st') ->
  (exists a s1, m st = (Returned a, s1) /\ k a s1 = (o, st')) \/
  (exists messages, m st = (Exited messages, st') /\ o = Exited messages).
Proof.
  rewrite run_bind. destruct (m st) as [[a | messages] s1]; intros H.
  - left. eauto.
  - right. inversion H; subst. eauto.
Qed.


Lemma untouched_refl st : untouched st st.
Proof.
  split; [reflexivity |]. exists []. rewrite app_nil_r. split; [reflexivity | constructor].
Qed.

Lemma untouched_trans st1 st2 st3 :
  untouched st1 st2 -> untouched st2 st3 -> untouched st1 st3.
Proof.
  intros [Hd1 (a1 & He1 & Hf1)] [Hd2 (a2 & He2 & Hf2)]. split.
  - congruence.
  - exists (a1 ++ a2). split.
    + rewrite He2, He1, app_assoc. reflexivity.
    + apply Forall_app. split; assumption.
Qed.


Lemma quiet_ret {A} (a : A) : quiet (ret a).
Proof. intros st o st' H. inversion H; subst. apply untouched_refl. Qed.

Lemma quiet_exit {A} messages : quiet (@exit A messages).
Proof. intros st o st' H. inversion H; subst. apply untouched_refl. Qed.

Lemma quiet_emit e : mutatesFiles e = false -> quiet (emit e).
Proof.
  intros He st o st' H. inversion H; subst. split; [reflexivity |].
  exists [e]. split; [reflexivity | repeat constructor; assumption].
Qed.

Lemma quiet_bind {A B} (m : Gen A) (k : A -> Gen B) :
  quiet m -> (forall a, quiet (k a)) -> quiet (m ≫= k).
Proof.
  intros Hm Hk st o st' H. apply bind_inv in H as [(a & s1 & H1 & H2) | (ms & H1 & _)].
  - eapply untouched_trans; [eapply Hm | eapply Hk]; eassumption.
  - eapply Hm; eassumption.
Qed.

Lemma quiet_getFiles : quiet getFiles.
Proof. intros st o st' H. inversion H; subst. apply untouched_refl. Qed.

Lemma quiet_getLibrary : quiet getLibrary.
Proof. intros st o st' H. inversion H; subst. apply untouched_refl. Qed.

Lemma quiet_setFiles fs : quiet (setFiles fs).
Proof.
  intros st o st' H. inversion H; subst. split; [reflexivity |].
  exists []. simpl. rewrite app_nil_r. split; [reflexivity | constructor].
Qed.

Lemma quiet_setLibrary lib : quiet (setLibrary lib).
Proof.
  intros st o st' H. inversion H; subst. split; [reflexivity |].
  exists []. simpl. rewrite app_nil_r. split; [reflexivity | constructor].
Qed.

Lemma quiet_mapGen {A B} (f : A -> Gen B) xs :
  (forall x, quiet (f x)) -> quiet (mapGen f xs).
Proof.
  intros Hf. induction xs as [| x rest IH]; simpl.
  - apply quiet_ret.
  - apply quiet_bind; [apply Hf |]. intros y.
    apply quiet_bind; [apply IH |]. intros ys. apply quiet_ret.
Qed.

Lemma keepsFiles_ret {A} (a : A) : keepsFiles (ret a).
Proof. intros st o st' H. inversion H; subst. reflexivity. Qed.

Lemma keepsFiles_exit {A} messages : keepsFiles (@exit A messages).
Proof. intros st o st' H. inversion H; subst. reflexivity. Qed.

Lemma keepsFiles_emit e : keepsFiles (emit e).
Proof. intros st o st' H. inversion H; subst. reflexivity. Qed.

Lemma keepsFiles_bind {A B} (m : Gen A) (k : A -> Gen B) :
  keepsFiles m -> (forall a, keepsFiles (k a)) -> keepsFiles (m ≫= k).
Proof.
  intros Hm Hk st o st' H. apply bind_inv in H as [(a & s1 & H1 & H2) | (ms & H1 & _)].
  - rewrite (Hk _ _ _ _ H2). eapply Hm; eassumption.
  - eapply Hm; eassumption.
Qed.

Lemma keepsFiles_getFiles : keepsFiles getFiles.
Proof. intros st o st' H. inversion H; subst. reflexivity. Qed.

Lemma keepsFiles_getLibrary : keepsFiles getLibrary.
Proof. intros st o st' H. inversion H; subst. reflexivity. Qed.

Lemma keepsFiles_setLibrary lib : keepsFiles (setLibrary lib).
Proof. intros st o st' H. inversion H; subst. reflexivity. Qed.

Lemma keepsFiles_getDisk : keepsFiles getDisk.
Proof. intros st o st' H. inversion H; subst. reflexivity. Qed.

Lemma keepsFiles_setDisk d : keepsFiles (setDisk d).
Proof. intros st o st' H. inversion H; subst. reflexivity. Qed.

Lemma keepsFiles_mapGen {A B} (f : A -> Gen B) xs :
  (forall x, keepsFiles (f x)) -> keepsFiles (mapGen f xs).
Proof.
  intros Hf. induction xs as [| x rest IH]; simpl.
  - apply keepsFiles_ret.
  - apply keepsFiles_bind; [apply Hf |]. intros y.
    apply keepsFiles_bind; [apply IH |]. intros ys. apply keepsFiles_ret.
Qed.

Lemma keepsFiles_forEachGen {A} (f : A -> Gen unit) xs :
  (forall x, keepsFiles (f x)) -> keepsFiles (forEachGen f xs).
Proof.
  intros Hf. induction xs as [| x rest IH]; simpl.
  - apply keepsFiles_ret.
  - apply keepsFiles_bind; [apply Hf |]. intros _. apply IH.
Qed.

Create HintDb gen discriminated.
#[export] Hint Resolve quiet_ret quiet_exit quiet_getFiles quiet_getLibrary
  quiet_setFiles quiet_setLibrary keepsFiles_ret keepsFiles_exit keepsFiles_emit
  keepsFiles_getFiles keepsFiles_getLibrary keepsFiles_setLibrary
  keepsFiles_getDisk keepsFiles_setDisk : gen.

(** One step through a computation built from the primitives. *)
Ltac quiet_step :=
  first
    [ apply quiet_bind; [| intros ? ]
    | apply quiet_emit; reflexivity
    | solve [auto with gen] ].

Ltac keeps_step :=
  first
    [ apply keepsFiles_bind; [| intros ? ]
    | solve [auto with gen] ].

(** ** The phases of [generate] *)

Section GeneratorFacts.

Variable configDir : string.
Variable cwd : string.
Variable config : BDDConfig.
Variable hasCustomTest : bool.
Variable build : list string -> GherkinDocument -> Outcome Built.
Variable fg : string -> gmap string string -> list string.
Variable convertPathToPattern : string -> string.

Local Abbreviation getSpecPath := (getSpecPathByFeaturePath configDir cwd config).
Local Abbreviation newFile := (newTestFile configDir cwd config build).
Local Abbreviation buildAll := (buildFiles configDir cwd config build).
Local Abbreviation clear := (clearOutputDir config fg convertPathToPattern).
Local Abbreviation run :=
  (generate configDir cwd config hasCustomTest build fg convertPathToPattern).

Lemma quiet_loadCucumberConfig loaded : quiet (loadCucumberConfig loaded).
Proof.
  unfold loadCucumberConfig, warnForTsNodeRegister.
  destruct (tsNodeRegister loaded); quiet_step.
Qed.

Lemma quiet_handleParseErrors loaded : quiet (handleParseErrors loaded).
Proof. unfold handleParseErrors. destruct (parseErrors loaded); quiet_step. Qed.

Lemma quiet_loadFeatures loaded : quiet (loadFeatures loaded).
Proof.
  unfold loadFeatures. repeat quiet_step. apply quiet_handleParseErrors.
Qed.

Lemma quiet_loadSteps loaded : quiet (loadSteps config loaded).
Proof.
  unfold loadSteps, loadDecoratorSteps.
  repeat quiet_step. destruct (importTestFrom config); repeat quiet_step.
Qed.

Lemma quiet_getSpecPath rel : quiet (getSpecPath rel).
Proof.
  unfold getSpecPathByFeaturePath.
  quiet_step; [| quiet_step].
  destruct (startsWith _ _); quiet_step.
Qed.

Lemma quiet_newTestFile doc : quiet (newFile doc).
Proof.
  unfold newTestFile. quiet_step; [quiet_step |].
  quiet_step; [apply quiet_getSpecPath |].
  quiet_step; [quiet_step |].
  destruct (build _ _); quiet_step.
Qed.

Lemma quiet_buildFiles loaded : quiet (buildAll loaded).
Proof.
  unfold buildFiles. quiet_step; [| quiet_step].
  apply quiet_mapGen. apply quiet_newTestFile.
Qed.

Lemma quiet_checkUndefinedSteps : quiet checkUndefinedSteps.
Proof.
  unfold checkUndefinedSteps. quiet_step; [quiet_step |].
  destruct (_ <? _)%nat; repeat quiet_step.
Qed.

Lemma quiet_checkImportTestFrom : quiet (checkImportTestFrom config hasCustomTest).
Proof. unfold checkImportTestFrom. destruct (_ && _); quiet_step. Qed.

Lemma keepsFiles_loadCucumberConfig loaded : keepsFiles (loadCucumberConfig loaded).
Proof.
  unfold loadCucumberConfig, warnForTsNodeRegister.
  destruct (tsNodeRegister loaded); keeps_step.
Qed.

Lemma keepsFiles_loadFeatures loaded : keepsFiles (loadFeatures loaded).
Proof.
  unfold loadFeatures, handleParseErrors. repeat keeps_step.
  destruct (parseErrors loaded); keeps_step.
Qed.

Lemma keepsFiles_loadSteps loaded : keepsFiles (loadSteps config loaded).
Proof.
  unfold loadSteps, loadDecoratorSteps.
  repeat keeps_step. destruct (importTestFrom config); repeat keeps_step.
Qed.

Lemma keepsFiles_newTestFile doc : keepsFiles (newFile doc).
Proof.
  unfold newTestFile, getSpecPathByFeaturePath. repeat keeps_step.
  - destruct (startsWith _ _); keeps_step.
  - destruct (build _ _); keeps_step.
Qed.

Lemma keepsFiles_checkUndefinedSteps : keepsFiles checkUndefinedSteps.
Proof.
  unfold checkUndefinedSteps. keeps_step; [keeps_step |].
  destruct (_ <? _)%nat; repeat keeps_step.
Qed.

Lemma keepsFiles_checkImportTestFrom :
  keepsFiles (checkImportTestFrom config hasCustomTest).
Proof. unfold checkImportTestFrom. destruct (_ && _); keeps_step. Qed.

Lemma keepsFiles_clearOutputDir : keepsFiles clear.
Proof.
  unfold clearOutputDir. repeat keeps_step.
  apply keepsFiles_forEachGen. intros x. unfold rm. repeat keeps_step.
Qed.

Lemma keepsFiles_saveFiles : keepsFiles (saveFiles cwd).
Proof.
  unfold saveFiles. repeat keeps_step.
  apply keepsFiles_forEachGen. intros x. unfold save. repeat keeps_step.
Qed.

(** The part of [generate] that follows [checkUndefinedSteps]. *)
Lemma keepsFiles_afterCheck :
  keepsFiles (checkImportTestFrom config hasCustomTest;; clear;; saveFiles cwd).
Proof.
  keeps_step; [apply keepsFiles_checkImportTestFrom |].
  keeps_step; [apply keepsFiles_clearOutputDir | apply keepsFiles_saveFiles].
Qed.

(** The part of [generate] that precedes [buildFiles]. *)
Lemma quiet_loads loaded :
  forall st o st',
    (loadCucumberConfig loaded;; loadFeatures loaded) st = (o, st') ->
    untouched st st' /\ files st' = files st.
Proof.
  intros st o st' H. split.
  - revert H. apply quiet_bind; [apply quiet_loadCucumberConfig |].
    intros _. apply quiet_loadFeatures.
  - revert H. apply keepsFiles_bind; [apply keepsFiles_loadCucumberConfig |].
    intros _. apply keepsFiles_loadFeatures.
Qed.

(** ** Counting undefined steps *)

Lemma countUndefinedSteps_from (fs : list TestFile) (n : nat) :
  fold_left (fun sum file => (sum + List.length (undefinedSteps file))%nat) fs n
  = (n + countUndefinedSteps fs)%nat.
Proof.
  unfold countUndefinedSteps. revert n.
  induction fs as [| f rest IH]; intros n; simpl.
  - lia.
  - rewrite IH. rewrite (IH (List.length (undefinedSteps f))). lia.
Qed.

Lemma countUndefinedSteps_cons f fs :
  countUndefinedSteps (f :: fs)
  = (List.length (undefinedSteps f) + countUndefinedSteps fs)%nat.
Proof.
  unfold countUndefinedSteps at 1. simpl. apply countUndefinedSteps_from.
Qed.

(** The sum is positive exactly when some file has an undefined step. *)
Lemma countUndefinedSteps_pos fs :
  (0 < countUndefinedSteps fs)%nat <-> Exists (fun f => undefinedSteps f <> []) fs.
Proof.
  induction fs as [| f rest IH].
  - split; [cbv; lia | intros H; inversion H].
  - rewrite countUndefinedSteps_cons, Exists_cons. split.
    + intros H. destruct (undefinedSteps f) eqn:E.
      * right. apply IH. simpl in H. lia.
      * left. discriminate.
    + intros [H | H].
      * destruct (undefinedSteps f); [congruence | simpl; lia].
      * apply IH in H. lia.
Qed.

Lemma checkUndefinedSteps_run st :
  checkUndefinedSteps st =
  if (0 <? countUndefinedSteps (files st))%nat
  then (Exited [],
        {| files := files st; library := library st; disk := disk st;
           events := events st ++ [PrintSnippets (files st)] |})
  else (Returned tt, st).
Proof.
  unfold checkUndefinedSteps. rewrite run_bind. simpl.
  destruct (0 <? countUndefinedSteps (files st))%nat; reflexivity.
Qed.

End GeneratorFacts.

(* ===================================================================== *)
(** * The generation pass as a whole                                      *)
(* ===================================================================== *)

Section GenerationPass.

Variable configDir : string.
Variable cwd : string.
Variable config : BDDConfig.
Variable hasCustomTest : bool.
Variable build : list string -> GherkinDocument -> Outcome Built.
Variable fg : string -> gmap string string -> list string.
Variable convertPathToPattern : string -> string.

Local Abbreviation getSpecPath := (getSpecPathByFeaturePath configDir cwd config).
Local Abbreviation newFile := (newTestFile configDir cwd config build).
Local Abbreviation buildAll := (buildFiles configDir cwd config build).
Local Abbreviation clear := (clearOutputDir config fg convertPathToPattern).
Local Abbreviation run :=
  (generate configDir cwd config hasCustomTest build fg convertPathToPattern).

(** Up to and including [checkUndefinedSteps] the pass never touches the
    disk. *)
Lemma quiet_until_check loaded :
  quiet (loadCucumberConfig loaded;; loadFeatures loaded;;
         loadSteps config loaded;; buildAll loaded).
Proof.
  quiet_step; [apply quiet_loadCucumberConfig |].
  quiet_step; [apply quiet_loadFeatures |].
  quiet_step; [apply quiet_loadSteps | apply quiet_buildFiles].
Qed.

Lemma keepsFiles_before_build loaded :
  keepsFiles (loadCucumberConfig loaded;; loadFeatures loaded;;
              loadSteps config loaded).
Proof.
  keeps_step; [apply keepsFiles_loadCucumberConfig |].
  keeps_step; [apply keepsFiles_loadFeatures | apply keepsFiles_loadSteps].
Qed.

(** [generate] is the four loading and building phases followed by the
    checks and the writes. *)
Lemma generate_split loaded st :
  run loaded st =
  ((loadCucumberConfig loaded;; loadFeatures loaded;;
    loadSteps config loaded;; buildAll loaded);;
   checkUndefinedSteps;;
   (checkImportTestFrom config hasCustomTest;; clear;; saveFiles cwd)) st.
Proof.
  unfold generate. rewrite !run_bind.
  destruct (loadCucumberConfig loaded st) as [[[] | ?] s1]; [| reflexivity].
  rewrite !run_bind.
  destruct (loadFeatures loaded s1) as [[[] | ?] s2]; [| reflexivity].
  rewrite !run_bind.
  destruct (loadSteps config loaded s2) as [[[] | ?] s3]; [| reflexivity].
  rewrite !run_bind.
  destruct (buildAll loaded s3) as [[[] | ?] s4]; reflexivity.
Qed.

(** When [buildFiles] exits, [this.files] is what it was before. *)
Lemma buildFiles_exit_keeps loaded st messages st' :
  buildAll loaded st = (Exited messages, st') -> files st' = files st.
Proof.
  unfold buildFiles. intros H.
  apply bind_inv in H as [(built & s1 & H1 & H2) | (ms & H1 & _)].
  - inversion H2.
  - eapply keepsFiles_mapGen; [| eassumption]. intros doc.
    apply keepsFiles_newTestFile.
Qed.

Lemma until_build_exit_keeps loaded st messages st' :
  (loadCucumberConfig loaded;; loadFeatures loaded;;
   loadSteps config loaded;; buildAll loaded) st = (Exited messages, st') ->
  files st' = files st.
Proof.
  intros H.
  apply bind_inv in H as [([] & s1 & H1 & H) | (ms & H1 & _)];
    [| eapply keepsFiles_loadCucumberConfig; eassumption].
  rewrite <- (keepsFiles_loadCucumberConfig _ _ _ _ H1).
  apply bind_inv in H as [([] & s2 & H2 & H) | (ms & H2 & _)];
    [| eapply keepsFiles_loadFeatures; eassumption].
  rewrite <- (keepsFiles_loadFeatures _ _ _ _ H2).
  apply bind_inv in H as [([] & s3 & H3 & H) | (ms & H3 & _)];
    [| eapply keepsFiles_loadSteps; eassumption].
  rewrite <- (keepsFiles_loadSteps _ _ _ _ _ H3).
  eapply buildFiles_exit_keeps; eassumption.
Qed.

(** ** What a pass that completes has done *)

Lemma savedPaths_app a b : savedPaths (a ++ b) = savedPaths a ++ savedPaths b.
Proof. unfold savedPaths. apply omap_app. Qed.

Lemma savedPaths_quiet es :
  Forall (fun e => mutatesFiles e = false) es -> savedPaths es = [].
Proof.
  induction 1 as [| e es He _ IH]; [reflexivity |].
  destruct e; try discriminate; exact IH.
Qed.

Lemma savedPaths_removes paths : savedPaths (map Remove paths) = [].
Proof. induction paths as [| p rest IH]; [reflexivity | exact IH]. Qed.

Lemma forEach_rm_run paths st :
  exists st', forEachGen rm paths st = (Returned tt, st') /\
              files st' = files st /\
              events st' = events st ++ map Remove paths.
Proof.
  revert st. induction paths as [| p rest IH]; intros st; simpl.
  - exists st. rewrite app_nil_r. auto.
  - rewrite run_bind. unfold rm at 1. simpl.
    match goal with |- context [forEachGen rm rest ?s] =>
      destruct (IH s) as (st' & Hrun & Hfiles & Hevents) end.
    exists st'. rewrite Hrun, Hfiles, Hevents. simpl.
    rewrite <- app_assoc. auto.
Qed.

Lemma clearOutputDir_run st :
  exists st' added,
    clear st = (Returned tt, st') /\ files st' = files st /\
    events st' = events st ++ added /\ savedPaths added = [].
Proof.
  unfold clearOutputDir. rewrite run_bind. simpl. rewrite run_bind. simpl.
  match goal with |- context [forEachGen rm ?ps ?s] =>
    destruct (forEach_rm_run ps s) as (st' & Hrun & Hfiles & Hevents);
    exists st', (Log ("Clearing output dir: " ++ showNat (List.length ps)
                        ++ " file(s)")%string :: map Remove ps)
  end.
  rewrite Hrun, Hfiles, Hevents. simpl. rewrite <- app_assoc.
  repeat split. apply savedPaths_removes.
Qed.


Lemma savedPaths_saveEvents fs : savedPaths (saveEvents cwd fs) = map outputPath fs.
Proof.
  induction fs as [| f rest IH]; [reflexivity |].
  unfold saveEvents in *. simpl. unfold savedPaths in *. simpl. f_equal. exact IH.
Qed.

Lemma forEach_save_run fs st :
  exists st',
    forEachGen
      (fun file =>
         save file;;
         emit (Log ("Generated: " ++ Path.relative cwd cwd (outputPath file))%string))
      fs st = (Returned tt, st') /\
    files st' = files st /\
    events st' = events st ++ saveEvents cwd fs.
Proof.
  revert st. induction fs as [| f rest IH]; intros st; simpl.
  - exists st. rewrite app_nil_r. auto.
  - rewrite run_bind. unfold save at 1. simpl.
    match goal with |- context [forEachGen _ rest ?s] =>
      destruct (IH s) as (st' & Hrun & Hfiles & Hevents) end.
    exists st'. rewrite Hrun, Hfiles, Hevents. simpl.
    rewrite <- !app_assoc. auto.
Qed.

Lemma saveFiles_run st :
  exists st',
    saveFiles cwd st = (Returned tt, st') /\ files st' = files st /\
    events st' = events st ++ saveEvents cwd (files st) ++
                 [Log ("Generated files: " ++ showNat (List.length (files st)))%string].
Proof.
  unfold saveFiles. rewrite run_bind. simpl. rewrite run_bind.
  destruct (forEach_save_run (files st) st) as (s1 & Hrun & Hfiles & Hevents).
  rewrite Hrun. simpl. eexists. split; [reflexivity |]. simpl.
  rewrite Hfiles, Hevents, <- app_assoc. auto.
Qed.

(** The files that [buildFiles] keeps are the built ones with a test,
    and one file is built per document. *)
Lemma mapGen_newTestFile_sources docs st built st' :
  mapGen newFile docs st = (Returned built, st') ->
  map sourceUri built = map uri docs.
Proof.
  revert st built. induction docs as [| doc rest IH]; intros st built H; simpl in H.
  - inversion H. reflexivity.
  - apply bind_inv in H as [(file & s1 & H1 & H) | (ms & _ & ?)]; [| discriminate].
    apply bind_inv in H as [(files' & s2 & H2 & H) | (ms & _ & ?)]; [| discriminate].
    inversion H; subst. simpl. f_equal; [| eapply IH; eassumption].
    unfold newTestFile in H1.
    apply bind_inv in H1 as [(lib & t1 & _ & H1) | (ms & _ & ?)]; [| discriminate].
    apply bind_inv in H1 as [(path & t2 & _ & H1) | (ms & _ & ?)]; [| discriminate].
    apply bind_inv in H1 as [([] & t3 & _ & H1) | (ms & _ & ?)]; [| discriminate].
    destruct (build lib doc); inversion H1. reflexivity.
Qed.

Lemma buildFiles_returns loaded st st' :
  buildAll loaded st = (Returned tt, st') ->
  exists built,
    map sourceUri built = map uri (documentsWithPickles loaded) /\
    files st' = List.filter (fun file => (0 <? testCount file)%nat) built.
Proof.
  unfold buildFiles. intros H.
  apply bind_inv in H as [(built & s1 & H1 & H2) | (ms & _ & ?)]; [| discriminate].
  exists built. split.
  - eapply mapGen_newTestFile_sources; eassumption.
  - inversion H2. reflexivity.
Qed.

Lemma until_build_returns loaded st st' :
  (loadCucumberConfig loaded;; loadFeatures loaded;;
   loadSteps config loaded;; buildAll loaded) st = (Returned tt, st') ->
  exists built,
    map sourceUri built = map uri (documentsWithPickles loaded) /\
    files st' = List.filter (fun file => (0 <? testCount file)%nat) built.
Proof.
  intros H.
  apply bind_inv in H as [([] & s1 & _ & H) | (ms & _ & ?)]; [| discriminate].
  apply bind_inv in H as [([] & s2 & _ & H) | (ms & _ & ?)]; [| discriminate].
  apply bind_inv in H as [([] & s3 & _ & H) | (ms & _ & ?)]; [| discriminate].
  eapply buildFiles_returns; eassumption.
Qed.

(** C6. In a pass that completes, one test file is built per document,
    and the generator's file list is the built files whose test count is
    positive: a built file with no test is not in the list, the saved
    paths are exactly the output paths of the files in the list, and the
    reported total is the length of the list. *)
Theorem files_without_tests_are_dropped loaded st st' :
  run loaded st = (Returned tt, st') ->
  exists built added,
    map sourceUri built = map uri (documentsWithPickles loaded) /\
    files st' = List.filter (fun file => (0 <? testCount file)%nat) built /\
    (forall file, In file built -> testCount file = 0%nat -> ~ In file (files st')) /\
    events st' = events st ++ added /\
    savedPaths added = map outputPath (files st') /\
    last added
      = Some (Log ("Generated files: " ++ showNat (List.length (files st')))%string).
Proof.
  intros Hrun. rewrite generate_split in Hrun.
  apply bind_inv in Hrun as [([] & s4 & Hpre & Hrest) | (ms & _ & ?)]; [| discriminate].
  destruct (until_build_returns _ _ _ Hpre) as (built & Hsrc & Hfiles).
  pose proof (quiet_until_check _ _ _ _ Hpre) as [_ (a1 & He1 & Hq1)].
  apply bind_inv in Hrest as [([] & s5 & Hcheck & Hrest) | (ms & _ & ?)]; [| discriminate].
  pose proof (quiet_checkUndefinedSteps _ _ _ Hcheck) as [_ (a2 & He2 & Hq2)].
  pose proof (keepsFiles_checkUndefinedSteps _ _ _ Hcheck) as Hf2.
  apply bind_inv in Hrest as [([] & s6 & Himport & Hrest) | (ms & _ & ?)]; [| discriminate].
  pose proof (quiet_checkImportTestFrom config hasCustomTest _ _ _ Himport)
    as [_ (a3 & He3 & Hq3)].
  pose proof (keepsFiles_checkImportTestFrom config hasCustomTest _ _ _ Himport) as Hf3.
  apply bind_inv in Hrest as [([] & s7 & Hclear & Hsave) | (ms & _ & ?)]; [| discriminate].
  destruct (clearOutputDir_run s6) as (s7' & a4 & Hclear' & Hf4 & He4 & Hs4).
  rewrite Hclear' in Hclear. inversion Hclear; subst s7'; clear Hclear.
  destruct (saveFiles_run s7) as (s8 & Hsave' & Hf5 & He5).
  rewrite Hsave' in Hsave. inversion Hsave; subst s8; clear Hsave.
  assert (Hlist : files st' = List.filter (fun file => (0 <? testCount file)%nat) built)
    by congruence.
  assert (Hsame : files s7 = files st') by congruence.
  exists built,
    (a1 ++ a2 ++ a3 ++ a4 ++ saveEvents cwd (files s7) ++
     [Log ("Generated files: " ++ showNat (List.length (files s7)))%string]).
  split; [exact Hsrc |]. split; [exact Hlist |]. split.
  { intros file _ Hzero Hin. rewrite Hlist in Hin.
    apply filter_In in Hin as [_ Hpos]. rewrite Hzero in Hpos. discriminate. }
  split.
  { rewrite He5, He4, He3, He2, He1. rewrite <- !app_assoc. reflexivity. }
  split.
  - rewrite !savedPaths_app, (savedPaths_quiet a1 Hq1), (savedPaths_quiet a2 Hq2),
      (savedPaths_quiet a3 Hq3), Hs4, savedPaths_saveEvents, Hsame.
    simpl. apply app_nil_r.
  - rewrite !app_assoc, last_snoc, Hsame. reflexivity.
Qed.

(** ** Features outside the features root *)

Lemma stripCommon_prefix a b :
  fst (Path.stripCommon a b) = [] -> a `prefix_of` b.
Proof.
  revert b. induction a as [| x a' IH]; intros b H.
  - apply prefix_nil.
  - destruct b as [| y b']; simpl in H; [discriminate |].
    destruct (String.eqb x y) eqn:E; [| discriminate].
    apply String.eqb_eq in E. subst y. apply prefix_cons. apply IH. exact H.
Qed.

Lemma join_dotdot_startsWith rest :
  startsWith (join (str1 slash) (".."%string :: rest)) ".." = true.
Proof. destruct rest; reflexivity. Qed.

(** A path that is not underneath the root has a relative path that
    starts with [..]. *)
Lemma relative_outside root to :
  ~ underneath cwd root to ->
  startsWith (Path.relative cwd root to) ".." = true.
Proof.
  unfold underneath, Path.relative. intros Hout.
  destruct (Path.stripCommon _ _) as [up down] eqn:E.
  destruct up as [| u up'].
  - exfalso. apply Hout. apply stripCommon_prefix. rewrite E. reflexivity.
  - simpl repeat. simpl app. apply join_dotdot_startsWith.
Qed.


Lemma getSpecPath_startsWith_dotdot rel st :
  startsWith (Path.relative cwd (featuresRoot config) (Path.resolve cwd configDir rel))
             ".." = true ->
  getSpecPath rel st = (Exited (outsideRootMessages config (Path.resolve cwd configDir rel)), st).
Proof.
  intros H. unfold getSpecPathByFeaturePath. rewrite run_bind, H. reflexivity.
Qed.

Lemma newTestFile_outside doc st :
  ~ underneath cwd (featuresRoot config) (Path.resolve cwd configDir (uri doc)) ->
  newFile doc st
  = (Exited (outsideRootMessages config (Path.resolve cwd configDir (uri doc))), st).
Proof.
  intros H. unfold newTestFile. rewrite run_bind. simpl. rewrite run_bind.
  rewrite getSpecPath_startsWith_dotdot; [reflexivity |].
  apply relative_outside. exact H.
Qed.

(** A traversal exits as soon as one of its elements always does. *)
Lemma mapGen_exits {A B} (f : A -> Gen B) xs x :
  In x xs ->
  (forall st, exists messages, f x st = (Exited messages, st)) ->
  forall st, exists messages st', mapGen f xs st = (Exited messages, st').
Proof.
  intros Hin Hx. induction xs as [| y rest IH]; [destruct Hin |].
  intros st. simpl. rewrite run_bind.
  destruct Hin as [-> | Hin].
  - destruct (Hx st) as (ms & ->). eauto.
  - destruct (f y st) as [[b | ms] s1]; [| eauto].
    rewrite run_bind. destruct (IH Hin s1) as (ms & s2 & ->). eauto.
Qed.

Lemma buildFiles_outside loaded doc :
  In doc (documentsWithPickles loaded) ->
  ~ underneath cwd (featuresRoot config) (Path.resolve cwd configDir (uri doc)) ->
  forall st, exists messages st', buildAll loaded st = (Exited messages, st').
Proof.
  intros Hin Hout st. unfold buildFiles. rewrite run_bind.
  destruct (mapGen_exits newFile _ doc Hin) with (st := st) as (ms & s1 & ->); [| eauto].
  intros s. eexists. apply newTestFile_outside. exact Hout.
Qed.

(** C5. For a feature file whose absolute path is not underneath the
    features root, the path relative to the root starts with [..] and
    path derivation exits with an error whose messages name the feature
    file and the features root; a generation pass that has such a
    document among its documents with pickles exits without having
    touched the disk. *)
Theorem feature_outside_root_is_fatal rel :
  ~ underneath cwd (featuresRoot config) (Path.resolve cwd configDir rel) ->
  startsWith (Path.relative cwd (featuresRoot config) (Path.resolve cwd configDir rel))
             ".." = true /\
  (forall st,
     getSpecPath rel st
     = (Exited
          [ "All feature files should be located underneath featuresRoot."%string;
            ("Please change featuresRoot or paths in configuration." ++ str1 newline)%string;
            ("featureFile: " ++ Path.resolve cwd configDir rel ++ str1 newline)%string;
            ("featuresRoot: " ++ featuresRoot config ++ str1 newline)%string ],
        st)) /\
  (forall loaded doc st o st',
     In doc (documentsWithPickles loaded) -> uri doc = rel ->
     run loaded st = (o, st') ->
     (exists messages, o = Exited messages) /\ untouched st st' /\
     files st' = files st).
Proof.
  intros Hout. split; [apply relative_outside; exact Hout |]. split.
  - intros st. apply getSpecPath_startsWith_dotdot, relative_outside, Hout.
  - intros loaded doc st o st' Hin Huri Hrun. subst rel.
    rewrite generate_split in Hrun.
    apply bind_inv in Hrun as [([] & s4 & Hpre & _) | (ms & Hpre & ->)].
    + exfalso.
      apply bind_inv in Hpre as [([] & s1 & _ & H) | (ms & _ & ?)]; [| discriminate].
      apply bind_inv in H as [([] & s2 & _ & H) | (ms & _ & ?)]; [| discriminate].
      apply bind_inv in H as [([] & s3 & _ & H) | (ms & _ & ?)]; [| discriminate].
      destruct (buildFiles_outside loaded doc Hin Hout s3) as (ms & s & Hexit).
      rewrite Hexit in H. discriminate.
    + split; [eauto |]. split.
      * eapply quiet_until_check; eassumption.
      * eapply until_build_exit_keeps; eassumption.
Qed.

(** ** Features underneath the features root *)

(** For a feature underneath the features root whose path relative to
    the root does not start with two dots, the derived path is that
    relative path below the output directory, with the suffix of test
    files. *)
Lemma spec_path_mirrors_feature_path rel down st :
  Path.isAbsolute cwd = true ->
  Path.resolveSegments cwd configDir rel
  = Path.resolveSegments cwd cwd (featuresRoot config) ++ down ->
  startsWith (join (str1 slash) down) ".." = false ->
  Path.relative cwd (featuresRoot config) (Path.resolve cwd configDir rel)
  = join (str1 slash) down /\
  getSpecPath rel st
  = (Returned
       (Path.render (Path.resolveSegments cwd cwd (outputDir config) ++ down)
          ++ ".spec.js")%string,
     st).
Proof.
  intros Hcwd Hunder Hdots.
  assert (Hproper : Forall (fun p => Path.properName p = true) down).
  { pose proof (PathFacts.resolveSegments_proper cwd configDir rel) as H.
    rewrite Hunder in H. apply Forall_app in H as [_ H]. exact H. }
  assert (Hrel : Path.relative cwd (featuresRoot config)
                               (Path.resolve cwd configDir rel)
                 = join (str1 slash) down).
  { unfold Path.relative, Path.resolve.
    rewrite PathFacts.resolveSegments_render
      by apply PathFacts.resolveSegments_proper.
    rewrite Hunder, PathFacts.stripCommon_app. reflexivity. }
  split; [exact Hrel |].
  unfold getSpecPathByFeaturePath. rewrite run_bind, Hrel, Hdots.
  unfold Path.resolve.
  rewrite (PathFacts.resolveSegments_below cwd (outputDir config) down Hcwd Hproper).
  reflexivity.
Qed.

(** Path derivation is a function of the configuration and the feature
    path alone: the state it runs in has no part in its outcome. *)
Lemma spec_path_is_deterministic rel st1 st2 :
  fst (getSpecPath rel st1) = fst (getSpecPath rel st2).
Proof.
  unfold getSpecPathByFeaturePath. rewrite !run_bind.
  destruct (startsWith _ _); reflexivity.
Qed.

(** ** Parse errors *)

Lemma prefix_app_l x a b :
  String.prefix x a = true -> String.prefix x (a ++ b)%string = true.
Proof.
  revert a. induction x as [| c x IH]; intros a H;
    [destruct (a ++ b)%string; reflexivity |].
  destruct a as [| c' a]; simpl in *; [discriminate |].
  destruct (ascii_dec c c'); [apply IH; exact H | discriminate].
Qed.

Lemma prefix_refl x : String.prefix x x = true.
Proof.
  induction x as [| c x IH]; [reflexivity |]. simpl.
  destruct (ascii_dec c c); [exact IH | congruence].
Qed.

Lemma includes_prefix s sub : String.prefix sub s = true -> includes s sub = true.
Proof. intros H. destruct s; cbn [includes]; rewrite H; reflexivity. Qed.

Lemma includes_refl s : includes s s = true.
Proof. apply includes_prefix, prefix_refl. Qed.

Lemma includes_app_r a b sub :
  includes b sub = true -> includes (a ++ b)%string sub = true.
Proof.
  intros H. induction a as [| c a IH]; [exact H |].
  simpl. rewrite IH. apply orb_true_r.
Qed.

Lemma includes_app_l a b sub :
  includes a sub = true -> includes (a ++ b)%string sub = true.
Proof.
  induction a as [| c a IH]; intros H.
  - simpl in H. rewrite orb_false_r in H.
    apply includes_prefix. change b with (EmptyString ++ b)%string.
    apply prefix_app_l. exact H.
  - simpl in H. apply orb_true_iff in H as [H | H].
    + apply includes_prefix. apply (prefix_app_l _ (String c a)). exact H.
    + change (includes (String c (a ++ b)) sub = true). simpl.
      rewrite (IH H). apply orb_true_r.
Qed.

Lemma includes_join sep parts p sub :
  In p parts -> includes p sub = true -> includes (join sep parts) sub = true.
Proof.
  intros Hin Hp. induction parts as [| q rest IH]; [destruct Hin |].
  destruct rest as [| r rest'].
  - destruct Hin as [-> | []]. exact Hp.
  - change (join sep (q :: r :: rest')) with (q ++ sep ++ join sep (r :: rest'))%string.
    destruct Hin as [-> | Hin].
    + apply includes_app_l. exact Hp.
    + apply includes_app_r, includes_app_r. apply IH. exact Hin.
Qed.

Lemma parseErrorLine_includes e :
  includes (parseErrorLine e) (source_uri e) = true /\
  includes (parseErrorLine e) (message e) = true.
Proof.
  unfold parseErrorLine. split.
  - apply includes_app_r, includes_app_r, includes_app_l, includes_refl.
  - do 5 apply includes_app_r. apply includes_refl.
Qed.

Lemma string_prefix_app_inv a b s :
  String.prefix (a ++ b)%string s = true -> String.prefix a s = true.
Proof.
  revert s. induction a as [| c a IH]; intros s H; [destruct s; reflexivity |].
  destruct s as [| c' s]; simpl in *; [discriminate |].
  destruct (ascii_dec c c'); [apply IH; exact H | discriminate].
Qed.

(** The line of an error of the parser shows where the error lies: the
    location stands at the head of the message, and the message is in
    the line. *)
Lemma parseErrorLine_location e :
  fromParser e = true -> includes (parseErrorLine e) (locationText e) = true.
Proof.
  unfold fromParser, startsWith, parseErrorLine. intros H.
  do 5 apply includes_app_r. apply includes_prefix.
  eapply string_prefix_app_inv. exact H.
Qed.

Lemma handleParseErrors_run loaded st :
  parseErrors loaded <> [] ->
  handleParseErrors loaded st = (Exited [parseErrorReport (parseErrors loaded)], st).
Proof.
  intros H. unfold handleParseErrors.
  destruct (parseErrors loaded) as [| e rest]; [congruence | reflexivity].
Qed.

(** C9. When the features loader has collected parse errors, [generate]
    exits during the loading of the features, before any test file is
    built and without touching the disk; the one message of the exit is
    the lines [Parse error in "<uri>" <message>] of all the errors,
    joined by newlines.  It includes the file and the message of each
    error, and with the message of an error of the parser its location,
    which the parser writes at the head of the message as
    [(line:column)]. *)
Theorem parse_errors_abort_generation loaded st :
  parseErrors loaded <> [] ->
  exists st' added,
    run loaded st = (Exited [parseErrorReport (parseErrors loaded)], st') /\
    files st' = files st /\
    disk st' = disk st /\
    events st' = events st ++ added /\
    Forall (fun e => afterLoading e = false) added /\
    Forall (fun e =>
              includes (parseErrorReport (parseErrors loaded)) (source_uri e) = true /\
              includes (parseErrorReport (parseErrors loaded)) (message e) = true /\
              (fromParser e = true ->
               includes (parseErrorReport (parseErrors loaded)) (locationText e) = true))
           (parseErrors loaded).
Proof.
  intros Herr.
  unfold generate, loadCucumberConfig, warnForTsNodeRegister, loadFeatures.
  rewrite !run_bind.
  destruct (tsNodeRegister loaded); simpl; rewrite !run_bind; simpl;
    rewrite !run_bind, handleParseErrors_run by exact Herr;
    (eexists; eexists; split; [reflexivity |]);
    (split; [reflexivity |]); (split; [reflexivity |]); simpl;
    (split; [rewrite <- ?app_assoc; reflexivity |]);
    (split; [repeat constructor |]).
  all: apply List.Forall_forall; intros e He;
    destruct (parseErrorLine_includes e) as [Hu Hm];
    split; [| split];
    try (eapply includes_join; [apply in_map; exact He | assumption]).
  all: intros Hloc; eapply includes_join; [apply in_map; exact He |];
    apply parseErrorLine_location; exact Hloc.
Qed.

End GenerationPass.

(** ** The properties on sample passes *)

Lemma files_without_tests_are_dropped_witness :
  let loaded := sampleLoaded ["I open the page"%string] [] sampleDocuments in
  let st' := snd (sampleGenerate loaded sampleDisk) in
  exists built added,
    map sourceUri built = map uri (documentsWithPickles loaded) /\
    files st' = List.filter (fun file => (0 <? testCount file)%nat) built /\
    (forall file, In file built -> testCount file = 0%nat -> ~ In file (files st')) /\
    events st' = events (initialState sampleDisk) ++ added /\
    savedPaths added = map outputPath (files st') /\
    last added
      = Some (Log ("Generated files: " ++ showNat (List.length (files st')))%string).
Proof.
  intros loaded st'.
  apply (files_without_tests_are_dropped "/proj" "/proj" sampleConfig false
           sampleBuild sampleGlob id loaded (initialState sampleDisk) st').
  vm_compute. reflexivity.
Defined.

Lemma feature_outside_root_is_fatal_witness :
  startsWith
    (Path.relative "/proj" (featuresRoot sampleConfig)
       (Path.resolve "/proj" "/proj" "other/login.feature")) ".." = true /\
  (forall st,
     getSpecPathByFeaturePath "/proj" "/proj" sampleConfig "other/login.feature" st
     = (Exited
          [ "All feature files should be located underneath featuresRoot."%string;
            ("Please change featuresRoot or paths in configuration." ++ str1 newline)%string;
            ("featureFile: " ++ Path.resolve "/proj" "/proj" "other/login.feature"
               ++ str1 newline)%string;
            ("featuresRoot: " ++ featuresRoot sampleConfig ++ str1 newline)%string ],
        st)) /\
  (forall loaded doc st o st',
     In doc (documentsWithPickles loaded) -> uri doc = "other/login.feature"%string ->
     generate "/proj" "/proj" sampleConfig false sampleBuild sampleGlob id loaded st
     = (o, st') ->
     (exists messages, o = Exited messages) /\ untouched st st' /\
     files st' = files st).
Proof.
  apply (feature_outside_root_is_fatal "/proj" "/proj" sampleConfig false
           sampleBuild sampleGlob id "other/login.feature").
  vm_compute. intros [k Hk]. discriminate.
Defined.

Lemma parse_errors_abort_generation_witness :
  let loaded := sampleLoaded [] [sampleParseError] sampleDocuments in
  let report := parseErrorReport (parseErrors loaded) in
  (exists st' added,
     generate "/proj" "/proj" sampleConfig false sampleBuild sampleGlob id loaded
              (initialState sampleDisk)
     = (Exited [report], st') /\
     files st' = files (initialState sampleDisk) /\
     disk st' = disk (initialState sampleDisk) /\
     events st' = events (initialState sampleDisk) ++ added /\
     Forall (fun e => afterLoading e = false) added /\
     Forall (fun e =>
               includes report (source_uri e) = true /\
               includes report (message e) = true /\
               (fromParser e = true -> includes report (locationText e) = true))
            (parseErrors loaded)) /\
  report = ("Parse error in " ++ str1 dquote ++ "features/broken.feature"
              ++ str1 dquote ++ " (7:3): unexpected end of file")%string /\
  fromParser sampleParseError = true /\
  locationText sampleParseError = "(7:3)"%string /\
  includes report "(7:3)" = true.
Proof.
  intros loaded report. split.
  - apply (parse_errors_abort_generation "/proj" "/proj" sampleConfig false
             sampleBuild sampleGlob id loaded (initialState sampleDisk)).
    simpl. discriminate.
  - repeat split; vm_compute; reflexivity.
Defined.

(** C4 fails on a directory whose name begins with two dots: the feature
    file lies underneath the features root, its relative path starts
    with the two dots of the directory's name, and path derivation exits
    instead of returning the path under the output directory. *)
Lemma spec_path_rejects_dotted_directory :
  underneath "/proj" (featuresRoot sampleConfig)
             (Path.resolve "/proj" "/proj" "features/..drafts/login.feature") /\
  Path.relative "/proj" (featuresRoot sampleConfig)
                (Path.resolve "/proj" "/proj" "features/..drafts/login.feature")
  = "..drafts/login.feature"%string /\
  forall st,
    getSpecPathByFeaturePath "/proj" "/proj" sampleConfig
                             "features/..drafts/login.feature" st
    = (Exited (outsideRootMessages sampleConfig "/proj/features/..drafts/login.feature"),
       st).
Proof.
  split; [| split].
  - vm_compute. exists ["..drafts"%string; "login.feature"%string]. reflexivity.
  - vm_compute. reflexivity.
  - intros st. apply getSpecPath_startsWith_dotdot. vm_compute. reflexivity.
Qed.

(* ===================================================================== *)
(** * Properties of the messages builder                                  *)
(* ===================================================================== *)

Module MessagesFacts.

Import Messages.

(** ** The lazily filled map *)

Section AutofillMapFacts.

Context {V : Type}.
Implicit Types (m : AutofillMap V) (key : string).

Lemma get_app key m1 m2 :
  get key (m1 ++ m2) = match get key m1 with Some v => Some v | None => get key m2 end.
Proof.
  induction m1 as [| [k v] rest IH]; simpl; [reflexivity |].
  destruct (String.eqb k key); [reflexivity | exact IH].
Qed.

Lemma get_None_keys key m : get key m = None <-> ~ In key (map fst m).
Proof.
  induction m as [| [k v] rest IH]; simpl; [tauto |].
  destruct (String.eqb k key) eqn:E.
  - apply String.eqb_eq in E. split; [discriminate | tauto].
  - apply String.eqb_neq in E. tauto.
Qed.

Lemma get_getOrCreate_same key createFn m :
  get key (getOrCreate key createFn m)
  = Some (match get key m with Some v => v | None => createFn tt end).
Proof.
  unfold getOrCreate. destruct (get key m) as [v |] eqn:E; [exact E |].
  rewrite get_app, E. simpl. rewrite String.eqb_refl. reflexivity.
Qed.

Lemma get_getOrCreate_other key key' createFn m :
  key <> key' -> get key' (getOrCreate key createFn m) = get key' m.
Proof.
  intros Hne. unfold getOrCreate. destruct (get key m); [reflexivity |].
  rewrite get_app. destruct (get key' m); [reflexivity |]. simpl.
  apply String.eqb_neq in Hne. rewrite Hne. reflexivity.
Qed.

Lemma get_update_same key f m : get key (update key f m) = f <$> get key m.
Proof.
  induction m as [| [k v] rest IH]; simpl; [reflexivity |].
  destruct (String.eqb k key) eqn:E; simpl; rewrite E; [reflexivity | exact IH].
Qed.

Lemma get_update_other key key' f m :
  key <> key' -> get key' (update key f m) = get key' m.
Proof.
  intros Hne. induction m as [| [k v] rest IH]; simpl; [reflexivity |].
  destruct (String.eqb k key) eqn:E; simpl.
  - apply String.eqb_eq in E. subst k.
    apply String.eqb_neq in Hne. rewrite Hne. reflexivity.
  - rewrite IH. reflexivity.
Qed.

Lemma keys_update key f m : map fst (update key f m) = map fst m.
Proof.
  induction m as [| [k v] rest IH]; simpl; [reflexivity |].
  destruct (String.eqb k key); simpl; [reflexivity | rewrite IH; reflexivity].
Qed.

(** No key is ever entered twice. *)
Lemma keys_getOrCreate_NoDup key createFn m :
  NoDup (map fst m) -> NoDup (map fst (getOrCreate key createFn m)).
Proof.
  intros Hm. unfold getOrCreate. destruct (get key m) eqn:E; [exact Hm |].
  rewrite map_app. simpl. apply NoDup_app. split; [exact Hm |].
  split.
  - intros k Hk Hin. apply list_elem_of_In in Hk.
    apply list_elem_of_In in Hin. destruct Hin as [<- | []].
    apply get_None_keys in E. contradiction.
  - apply NoDup_singleton.
Qed.

End AutofillMapFacts.
(** ** The order of the kinds *)

Lemma count_occ_attempts (k : Kind) (attempts : list RunKind) :
  (forall a, k <> runAttempt a) ->
  count_occ Kind_eq_dec (map runAttempt attempts) k = 0%nat.
Proof.
  intros Hk. induction attempts as [| a rest IH]; [reflexivity |].
  simpl map. rewrite count_occ_cons_neq; [exact IH |].
  intros E. apply (Hk a). symmetry. exact E.
Qed.

(** In an ordered sequence of kinds the run is started once, before any
    test case, and finished once, at the very end. *)
Lemma orderedKinds_facts nSource nDocument nPickle nStepDefinition nHook nTestCase attempts :
  let kinds := orderedKinds nSource nDocument nPickle nStepDefinition nHook
                            nTestCase attempts in
  head kinds = Some meta /\
  last kinds = Some testRunFinished /\
  count_occ Kind_eq_dec kinds testRunStarted = 1%nat /\
  count_occ Kind_eq_dec kinds testRunFinished = 1%nat /\
  exists before after,
    kinds = before ++ testRunStarted :: after /\
    ~ In testCase before /\ ~ In testRunStarted after.
Proof.
  intros kinds. subst kinds. unfold orderedKinds. split; [reflexivity |]. split.
  { rewrite !app_assoc. apply last_snoc. }
  split.
  { rewrite !count_occ_app.
    rewrite !count_occ_repeat_neq by discriminate.
    rewrite count_occ_attempts by discriminate. reflexivity. }
  split.
  { rewrite !count_occ_app.
    rewrite !count_occ_repeat_neq by discriminate.
    rewrite count_occ_attempts by discriminate. reflexivity. }
  exists ([meta] ++ repeat source nSource ++ repeat gherkinDocument nDocument
            ++ repeat pickle nPickle ++ repeat stepDefinition nStepDefinition
            ++ repeat hook nHook),
         (repeat testCase nTestCase ++ map runAttempt attempts ++ [testRunFinished]).
  split; [rewrite <- !app_assoc; reflexivity |]. split.
  - rewrite !in_app_iff. intros [H | [H | [H | [H | [H | H]]]]];
      try (apply repeat_spec in H; discriminate).
    destruct H as [H | []]. discriminate.
  - rewrite !in_app_iff. intros [H | [H | H]].
    + apply repeat_spec in H. discriminate.
    + apply in_map_iff in H as (a & Ha & _). discriminate.
    + destruct H as [H | []]. discriminate.
Qed.


(** ** Absorbing the test ends *)

Section BuilderFacts.

Context {Body : Type}.
Variable hasBddConfig : option string -> bool.
Variable registerHooks :
  PwTestCase -> PwTestResult -> AutofillMap (Hook Body) -> AutofillMap (Hook Body).
Variable loadDocuments : list TestCaseRun -> GherkinDocuments Body.
Variable metaMessage : Body.
Variable pickleMessages : AutofillMap (TestCase Body) -> list Body.
Variable hookMessage : Hook Body -> Body.
Variable testCaseMessage : TestCase Body -> Body.
Variable runMessages :
  TestCaseRun -> option (TestCase Body) -> list (TestCaseRunEnvelope Body).
Variable now : Z.

Local Abbreviation onTestEnd' := (onTestEnd hasBddConfig registerHooks).
Local Abbreviation absorb' := (absorb hasBddConfig registerHooks).
Local Abbreviation recorded' := (recorded hasBddConfig).
Local Abbreviation recordedRuns' := (recordedRuns hasBddConfig).
Local Abbreviation reportOf' :=
  (reportOf hasBddConfig registerHooks loadDocuments metaMessage pickleMessages
            hookMessage testCaseMessage runMessages now).
Local Abbreviation start := (@newBuilder Body).

Lemma onTestEnd_recorded (b : Builder Body) test result :
  onTestEnd' b test result
  = if recorded' (test, result)
    then withRun (runOf (test, result)) (registerHooks test result (hooks b)) b
    else b.
Proof.
  unfold onTestEnd, recorded. simpl.
  destruct (hasBddConfig _); simpl; [| reflexivity].
  destruct (bool_decide _); reflexivity.
Qed.

Lemma onTestEnd_not_recorded (b : Builder Body) test result :
  recorded' (test, result) = false -> onTestEnd' b test result = b.
Proof. intros H. rewrite onTestEnd_recorded, H. reflexivity. Qed.

Lemma absorb_app ends1 ends2 (b : Builder Body) :
  absorb' (ends1 ++ ends2) b = absorb' ends2 (absorb' ends1 b).
Proof. unfold absorb. apply fold_left_app. Qed.

(** A test end that is not recorded leaves no trace in the builder. *)
Lemma absorb_not_recorded before e after (b : Builder Body) :
  recorded' e = false ->
  absorb' (before ++ e :: after) b = absorb' (before ++ after) b.
Proof.
  intros H. rewrite !absorb_app. destruct e as [test result].
  unfold absorb. simpl. rewrite onTestEnd_not_recorded by exact H. reflexivity.
Qed.

(** Only the runs and the hooks change while test ends are absorbed. *)
Lemma absorb_fields ends (b : Builder Body) :
  report (absorb' ends b) = report b /\
  fullResult (absorb' ends b) = fullResult b /\
  testCaseRuns (absorb' ends b) = testCaseRuns b ++ recordedRuns' ends /\
  testCases (absorb' ends b) = testCases b /\
  gherkinDocuments (absorb' ends b) = gherkinDocuments b /\
  fullResultTiming (absorb' ends b) = fullResultTiming b /\
  buildStarted (absorb' ends b) = buildStarted b /\
  collected (absorb' ends b) = collected b.
Proof.
  revert b. induction ends as [| [test result] rest IH]; intros b.
  - simpl. rewrite app_nil_r. repeat split.
  - change (absorb' ((test, result) :: rest) b)
      with (absorb' rest (onTestEnd' b test result)).
    destruct (IH (onTestEnd' b test result)) as (H1 & H2 & H3 & H4 & H5 & H6 & H7 & H8).
    rewrite H1, H2, H3, H4, H5, H6, H7, H8, onTestEnd_recorded.
    unfold recordedRuns. simpl List.filter.
    destruct (recorded' (test, result)); simpl.
    + rewrite <- app_assoc. repeat split.
    + repeat split.
Qed.

(** ** Grouping the runs into test cases *)

Implicit Types (tcs : AutofillMap (TestCase Body)) (docs : GherkinDocuments Body).

Local Abbreviation grow docs :=
  (fold_left (fun tcs run => createTestCase (Body := Body) tcs docs run)).

Lemma get_createTestCase_same tcs docs run :
  get (id (run_test run)) (createTestCase tcs docs run)
  = Some (addRun run
            (match get (id (run_test run)) tcs with
             | Some tc => tc
             | None => newTestCase (id (run_test run))
                         (getDocumentsForProject docs (projectInfo run))
             end)).
Proof.
  unfold createTestCase. rewrite get_update_same, get_getOrCreate_same. reflexivity.
Qed.

Lemma get_createTestCase_other tcs docs run testId :
  id (run_test run) <> testId ->
  get testId (createTestCase tcs docs run) = get testId tcs.
Proof.
  intros Hne. unfold createTestCase.
  rewrite get_update_other, get_getOrCreate_other by exact Hne. reflexivity.
Qed.

Lemma ownedRuns_createTestCase testId tcs docs run :
  ownedRuns testId (createTestCase tcs docs run)
  = ownedRuns testId tcs ++ runsOfTest testId [run].
Proof.
  unfold ownedRuns, runsOfTest. simpl.
  destruct (String.eqb (id (run_test run)) testId) eqn:E.
  - apply String.eqb_eq in E. subst testId. rewrite get_createTestCase_same.
    destruct (get _ tcs); reflexivity.
  - apply String.eqb_neq in E. rewrite get_createTestCase_other by exact E.
    rewrite app_nil_r. reflexivity.
Qed.

Lemma runsOfTest_app testId runs1 runs2 :
  runsOfTest testId (runs1 ++ runs2) = runsOfTest testId runs1 ++ runsOfTest testId runs2.
Proof. unfold runsOfTest. apply List.filter_app. Qed.

(** A test case owns the runs of its test, in the order they were made. *)
Lemma ownedRuns_grow testId docs runs tcs :
  ownedRuns testId (grow docs runs tcs) = ownedRuns testId tcs ++ runsOfTest testId runs.
Proof.
  revert tcs. induction runs as [| run rest IH]; intros tcs; cbn [fold_left].
  - unfold runsOfTest. simpl. rewrite app_nil_r. reflexivity.
  - rewrite IH, ownedRuns_createTestCase.
    change (run :: rest) with ([run] ++ rest).
    rewrite runsOfTest_app, app_assoc. reflexivity.
Qed.

Lemma wellKeyed_createTestCase tcs docs run :
  wellKeyed tcs -> wellKeyed (createTestCase tcs docs run).
Proof.
  intros Hk testId tc Hget.
  destruct (String.eqb (id (run_test run)) testId) eqn:E.
  - apply String.eqb_eq in E. subst testId. rewrite get_createTestCase_same in Hget.
    inversion Hget; subst tc; clear Hget. simpl.
    destruct (get _ tcs) eqn:G; [apply Hk; exact G | reflexivity].
  - apply String.eqb_neq in E. rewrite get_createTestCase_other in Hget by exact E.
    apply Hk. exact Hget.
Qed.

Lemma wellKeyed_grow docs runs tcs : wellKeyed tcs -> wellKeyed (grow docs runs tcs).
Proof.
  revert tcs. induction runs as [| run rest IH]; intros tcs H; simpl; [exact H |].
  apply IH, wellKeyed_createTestCase, H.
Qed.

Lemma NoDup_grow docs runs tcs :
  NoDup (map fst tcs) -> NoDup (map fst (grow docs runs tcs)).
Proof.
  revert tcs. induction runs as [| run rest IH]; intros tcs H; simpl; [exact H |].
  apply IH. unfold createTestCase. rewrite keys_update.
  apply keys_getOrCreate_NoDup, H.
Qed.

(** A test case exists only for a test that has a run, and has a run. *)
Lemma present_createTestCase testId tcs docs run :
  (forall tc, get testId tcs = Some tc -> testCase_runs tc <> []) ->
  forall tc,
    get testId (createTestCase tcs docs run) = Some tc ->
    testCase_runs tc <> [].
Proof.
  intros Hold tc Hget.
  destruct (String.eqb (id (run_test run)) testId) eqn:E.
  - apply String.eqb_eq in E. subst testId. rewrite get_createTestCase_same in Hget.
    inversion Hget. simpl. destruct (testCase_runs _); discriminate.
  - apply String.eqb_neq in E. rewrite get_createTestCase_other in Hget by exact E.
    apply Hold. exact Hget.
Qed.

Lemma present_grow testId docs runs tcs :
  (forall tc, get testId tcs = Some tc -> testCase_runs tc <> []) ->
  forall tc,
    get testId (grow docs runs tcs) = Some tc -> testCase_runs tc <> [].
Proof.
  revert tcs. induction runs as [| run rest IH]; intros tcs H; simpl; [exact H |].
  apply IH. apply present_createTestCase. exact H.
Qed.

(** ** The report of a whole run *)

Local Abbreviation grouped := (groupedTestCases hasBddConfig loadDocuments).
Local Abbreviation timingOf := (overallTiming now).

(** The build completes once [onEnd] has been called, and this is the
    state it ends in. *)
Lemma reportOf_state ends fr :
  exists b,
    reportOf' ends fr = Some b /\
    testCaseRuns b = recordedRuns' ends /\
    testCases b = grouped ends /\
    hooks b = hooks (absorb' ends start) /\
    fullResult b = Some fr /\
    collected b = emitMessages b /\
    report b =
    {| report_meta := Some metaMessage;
       report_source := sourceMessages (loadDocuments (recordedRuns' ends));
       report_gherkinDocument :=
         gherkinDocumentMessages (loadDocuments (recordedRuns' ends));
       report_pickle := pickleMessages (grouped ends);
       report_stepDefinition := [];
       report_hook := map hookMessage (values (hooks (absorb' ends start)));
       report_testRunStarted :=
         Some {| started_timestamp :=
                   toCucumberTimestamp
                     (startTime (timingOf fr (recordedRuns' ends))) |};
       report_testCase := map testCaseMessage (values (grouped ends));
       report_testCaseRuns :=
         concat (map (fun run => runMessages run (get (id (run_test run)) (grouped ends)))
                     (recordedRuns' ends));
       report_testRunFinished :=
         Some {| success := bool_decide (fullStatus fr = passed);
                 finished_timestamp :=
                   toCucumberTimestamp
                     (startTime (timingOf fr (recordedRuns' ends))
                      + duration (timingOf fr (recordedRuns' ends))) |} |}.
Proof.
  destruct (absorb_fields ends start) as (H1 & H2 & H3 & H4 & H5 & H6 & H7 & H8).
  unfold reportOf, groupedTestCases.
  destruct (absorb' ends start) as [r f runs tcs hs docs ft bs col].
  cbn [report fullResult testCaseRuns testCases hooks gherkinDocuments
       fullResultTiming buildStarted collected newBuilder] in *.
  subst. rewrite app_nil_l.
  cbv [buildMessages onEnd withFullResult withBuildStarted doBuildMessages
       loadFeatures createTestCases addMeta addSourcesAndDocuments addPickles
       addHooks addTestCases addTestCaseRuns addTestRunStarted addTestRunFinished
       getFullResultTiming buildEventDataCollector withReport withTestCases
       withDocuments withTiming withCollected emptyReport
       report fullResult testCaseRuns testCases hooks gherkinDocuments
       fullResultTiming buildStarted collected
       report_meta report_source report_gherkinDocument report_pickle
       report_stepDefinition report_hook report_testRunStarted report_testCase
       report_testCaseRuns report_testRunFinished
       mbind option_bind].
  eexists. split; [reflexivity |].
  cbv [report fullResult testCaseRuns testCases hooks collected emitMessages
       overallTiming].
  repeat split.
Qed.

Lemma kinds_of_sources (l : list Body) :
  map kindOf (map Source l) = repeat source (List.length l).
Proof. induction l as [| x l IH]; simpl; [| rewrite IH]; reflexivity. Qed.

Lemma kinds_of_documents (l : list Body) :
  map kindOf (map GherkinDoc l) = repeat gherkinDocument (List.length l).
Proof. induction l as [| x l IH]; simpl; [| rewrite IH]; reflexivity. Qed.

Lemma kinds_of_pickles (l : list Body) :
  map kindOf (map Pickle l) = repeat pickle (List.length l).
Proof. induction l as [| x l IH]; simpl; [| rewrite IH]; reflexivity. Qed.

Lemma kinds_of_hooks (l : list Body) :
  map kindOf (map HookDef l) = repeat hook (List.length l).
Proof. induction l as [| x l IH]; simpl; [| rewrite IH]; reflexivity. Qed.

Lemma kinds_of_testCases (l : list Body) :
  map kindOf (map TestCaseDef l) = repeat testCase (List.length l).
Proof. induction l as [| x l IH]; simpl; [| rewrite IH]; reflexivity. Qed.

Lemma kinds_of_attempts (l : list (TestCaseRunEnvelope Body)) :
  map kindOf (map RunAttempt l) = map runAttempt (map runKind l).
Proof. induction l as [| x l IH]; simpl; [| rewrite IH]; reflexivity. Qed.

(** C2. Every build completes once the run has ended, and the envelopes
    it emits are ordered by kind: the meta envelope, the sources, the
    documents, the pickles, the step definitions, the hooks, the start of
    the run, the test cases, the envelopes of the run attempts, the end of
    the run.  So the run is started exactly once, before any test case,
    and finished exactly once, by the last envelope. *)
Theorem envelopes_are_ordered_by_kind ends fr :
  exists b,
    reportOf' ends fr = Some b /\
    exists nSource nDocument nPickle nStepDefinition nHook nTestCase attempts,
      let kinds := map kindOf (emitMessages b) in
      kinds = orderedKinds nSource nDocument nPickle nStepDefinition nHook
                           nTestCase attempts /\
      head kinds = Some meta /\
      last kinds = Some testRunFinished /\
      count_occ Kind_eq_dec kinds testRunStarted = 1%nat /\
      count_occ Kind_eq_dec kinds testRunFinished = 1%nat /\
      exists before after,
        kinds = before ++ testRunStarted :: after /\
        ~ In testCase before /\ ~ In testRunStarted after.
Proof.
  destruct (reportOf_state ends fr) as (b & Hb & _ & _ & _ & _ & _ & Hreport).
  exists b. split; [exact Hb |].
  exists (List.length (sourceMessages (loadDocuments (recordedRuns' ends)))),
         (List.length (gherkinDocumentMessages (loadDocuments (recordedRuns' ends)))),
         (List.length (pickleMessages (grouped ends))),
         0%nat,
         (List.length (map hookMessage (values (hooks (absorb' ends start))))),
         (List.length (map testCaseMessage (values (grouped ends)))),
         (map runKind
              (concat (map (fun run =>
                              runMessages run (get (id (run_test run)) (grouped ends)))
                           (recordedRuns' ends)))).
  intros kinds.
  assert (Hkinds : kinds = orderedKinds
            (List.length (sourceMessages (loadDocuments (recordedRuns' ends))))
            (List.length (gherkinDocumentMessages (loadDocuments (recordedRuns' ends))))
            (List.length (pickleMessages (grouped ends)))
            0
            (List.length (map hookMessage (values (hooks (absorb' ends start)))))
            (List.length (map testCaseMessage (values (grouped ends))))
            (map runKind
               (concat (map (fun run =>
                               runMessages run (get (id (run_test run)) (grouped ends)))
                            (recordedRuns' ends))))).
  { subst kinds. unfold emitMessages, reportValues. rewrite Hreport.
    cbn [report_meta report_source report_gherkinDocument report_pickle
         report_stepDefinition report_hook report_testRunStarted report_testCase
         report_testCaseRuns report_testRunFinished single concat].
    rewrite app_nil_r, !map_app.
    rewrite kinds_of_sources, kinds_of_documents, kinds_of_pickles, kinds_of_hooks,
      kinds_of_testCases, kinds_of_attempts.
    reflexivity. }
  split; [exact Hkinds |]. rewrite Hkinds. apply orderedKinds_facts.
Qed.

(** ** The timing of the run *)

Local Open Scope Z_scope.

Lemma earliest_le_first (items : list TimeMeasured) (first : Z) :
  fold_left (fun acc item => if startTime item <? acc then startTime item else acc)
            items first <= first.
Proof.
  revert first. induction items as [| item rest IH]; intros first; simpl; [lia |].
  destruct (startTime item <? first) eqn:E.
  - apply Z.ltb_lt in E. specialize (IH (startTime item)). lia.
  - apply IH.
Qed.

Lemma earliest_le_items (items : list TimeMeasured) (first : Z) :
  Forall (fun item =>
            fold_left (fun acc item => if startTime item <? acc then startTime item else acc)
                      items first <= startTime item)
         items.
Proof.
  revert first. induction items as [| item rest IH]; intros first; [constructor |].
  simpl. constructor.
  - destruct (startTime item <? first) eqn:E.
    + apply earliest_le_first.
    + apply Z.ltb_ge in E. pose proof (earliest_le_first rest first). lia.
  - apply IH.
Qed.

Lemma earliest_is_observed (items : list TimeMeasured) (first : Z) :
  let earliest :=
    fold_left (fun acc item => if startTime item <? acc then startTime item else acc)
              items first in
  earliest = first \/ exists item, In item items /\ earliest = startTime item.
Proof.
  revert first. induction items as [| item rest IH]; intros first; simpl; [auto |].
  destruct (startTime item <? first).
  - destruct (IH (startTime item)) as [H | (i & Hi & H)]; right; eauto.
  - destruct (IH first) as [H | (i & Hi & H)]; [auto | right; eauto].
Qed.

(** The start that [calcMinMaxByArray] returns is the earliest start of
    the items. *)
Lemma calcMinMaxByArray_earliest (items : list TimeMeasured) :
  Forall (fun item => startTime (calcMinMaxByArray now items) <= startTime item) items /\
  (items <> [] ->
   exists item, In item items /\
                startTime (calcMinMaxByArray now items) = startTime item).
Proof.
  unfold calcMinMaxByArray. cbn [startTime]. split.
  - apply earliest_le_items.
  - intros Hne. destruct items as [| item rest]; [congruence |].
    destruct (earliest_is_observed (item :: rest) (startTime item))
      as [H | (i & Hi & H)].
    + exists item. split; [left; reflexivity | exact H].
    + exists i. split; assumption.
Qed.

(** Timestamps keep the order of the times they are made from. *)
Lemma toCucumberTimestamp_mono (a b : Z) :
  0 <= a -> a <= b -> notAfter (toCucumberTimestamp a) (toCucumberTimestamp b).
Proof.
  intros Ha Hab. unfold notAfter, toCucumberTimestamp. cbn [seconds nanos].
  rewrite !Z.rem_mod_nonneg by lia.
  pose proof (Z.div_mod a 1000 ltac:(lia)).
  pose proof (Z.div_mod b 1000 ltac:(lia)).
  pose proof (Z.mod_pos_bound a 1000 ltac:(lia)).
  pose proof (Z.mod_pos_bound b 1000 ltac:(lia)).
  pose proof (Z.div_le_mono a b 1000 ltac:(lia) Hab).
  destruct (Z.eq_dec (a / 1000) (b / 1000)) as [E | E]; [right | left]; lia.
Qed.

(** C8. The run-started timestamp is made from the start time of the
    overall timing and the run-finished timestamp from that start time
    plus the duration.  When the full result does not carry both a start
    time and a duration, the start time is the earliest start among the
    recorded runs.  With a duration that is not negative the finish is
    not before the start, as times and, for times since the epoch, as
    timestamps. *)
Theorem run_timestamps ends fr :
  exists b started finished,
    reportOf' ends fr = Some b /\
    report_testRunStarted (report b) = Some started /\
    report_testRunFinished (report b) = Some finished /\
    let runs := recordedRuns' ends in
    let t := timingOf fr runs in
    started_timestamp started = toCucumberTimestamp (startTime t) /\
    finished_timestamp finished = toCucumberTimestamp (startTime t + duration t) /\
    (fullStartTime fr = None \/ fullDuration fr = None ->
     Forall (fun run => startTime t <= startTime (timing (run_result run))) runs /\
     (runs <> [] ->
      exists run, In run runs /\ startTime t = startTime (timing (run_result run)))) /\
    (forall s d, fullStartTime fr = Some s -> fullDuration fr = Some d ->
                 startTime t = s /\ duration t = d) /\
    (0 <= duration t -> startTime t <= startTime t + duration t) /\
    (0 <= startTime t -> 0 <= duration t ->
     notAfter (started_timestamp started) (finished_timestamp finished)).
Proof.
  destruct (reportOf_state ends fr) as (b & Hb & _ & _ & _ & _ & _ & Hreport).
  exists b. rewrite Hreport. cbn [report_testRunStarted report_testRunFinished].
  eexists. eexists. split; [exact Hb |]. split; [reflexivity |].
  split; [reflexivity |]. cbn [started_timestamp finished_timestamp].
  split; [reflexivity |]. split; [reflexivity |]. split.
  { intros Hnone.
    assert (Hcalc : timingOf fr (recordedRuns' ends)
                    = calcMinMaxByArray now
                        (map (fun t => timing (run_result t)) (recordedRuns' ends))).
    { unfold overallTiming.
      destruct Hnone as [-> | ->]; [reflexivity |].
      destruct (fullStartTime fr); reflexivity. }
    rewrite Hcalc.
    destruct (calcMinMaxByArray_earliest
                (map (fun t => timing (run_result t)) (recordedRuns' ends)))
      as [Hle Hin].
    split.
    - apply List.Forall_forall. intros run Hrun.
      rewrite List.Forall_forall in Hle.
      apply (Hle (timing (run_result run))).
      apply (in_map (fun t => timing (run_result t))). exact Hrun.
    - intros Hne. destruct Hin as (item & Hitem & Heq).
      + intros Hnil. apply map_eq_nil in Hnil. contradiction.
      + apply in_map_iff in Hitem as (run & <- & Hrun). eauto. }
  split.
  { intros s d Hs Hd. unfold overallTiming. rewrite Hs, Hd. split; reflexivity. }
  split; [lia |].
  intros Hstart Hduration. apply toCucumberTimestamp_mono; lia.
Qed.

(** ** Test cases and their runs *)

(** What is stored for a test id once the recorded runs are grouped. *)
Lemma grouped_lookup ends testId :
  match get testId (grouped ends) with
  | Some tc =>
      testCase_id tc = testId /\
      testCase_runs tc = runsOfTest testId (recordedRuns' ends) /\
      testCase_runs tc <> []
  | None => runsOfTest testId (recordedRuns' ends) = []
  end.
Proof.
  unfold groupedTestCases.
  pose proof (ownedRuns_grow testId (loadDocuments (recordedRuns' ends))
                (recordedRuns' ends) []) as Hruns.
  unfold ownedRuns in Hruns. simpl in Hruns.
  destruct (get testId _) as [tc |] eqn:G.
  - split; [| split].
    + eapply wellKeyed_grow; [| exact G]. intros k tc' H. discriminate.
    + exact Hruns.
    + eapply present_grow; [| exact G]. intros tc' H. discriminate.
  - symmetry. exact Hruns.
Qed.

Lemma runsOfTest_ids testId runs :
  Forall (fun run => id (run_test run) = testId) (runsOfTest testId runs).
Proof.
  apply List.Forall_forall. intros run Hin. unfold runsOfTest in Hin.
  apply filter_In in Hin as [_ H]. apply String.eqb_eq in H. exact H.
Qed.

Lemma reportOf_unique ends fr b :
  reportOf' ends fr = Some b ->
  testCaseRuns b = recordedRuns' ends /\ testCases b = grouped ends.
Proof.
  intros H. destruct (reportOf_state ends fr) as (b' & Hb' & Hruns & Hcases & _).
  rewrite Hb' in H. inversion H; subst b'. split; assumption.
Qed.

(** C3, as the code has it. Once the report is built, the recorded test
    ends (those of BDD projects whose test is not expected to be skipped)
    are the runs of the builder, in the order observed; no test id has
    two test cases; the test case of an id has that id and owns exactly
    the recorded runs of that id, in the order observed, and there is
    such a test case only when there is such a run. *)
Theorem test_cases_group_recorded_runs ends fr :
  exists b,
    reportOf' ends fr = Some b /\
    testCaseRuns b = recordedRuns' ends /\
    NoDup (map fst (testCases b)) /\
    forall testId,
      match get testId (testCases b) with
      | Some tc =>
          testCase_id tc = testId /\
          testCase_runs tc = runsOfTest testId (recordedRuns' ends) /\
          testCase_runs tc <> [] /\
          Forall (fun run => id (run_test run) = testId) (testCase_runs tc)
      | None => runsOfTest testId (recordedRuns' ends) = []
      end.
Proof.
  destruct (reportOf_state ends fr) as (b & Hb & Hruns & Hcases & _).
  exists b. split; [exact Hb |]. split; [exact Hruns |]. rewrite Hcases. split.
  - unfold groupedTestCases. apply NoDup_grow. simpl. apply NoDup_nil_2.
  - intros testId. pose proof (grouped_lookup ends testId) as H.
    destruct (get testId (grouped ends)) as [tc |]; [| exact H].
    destruct H as (Hid & Hown & Hne). repeat split; try assumption.
    rewrite Hown. apply runsOfTest_ids.
Qed.

(** ** Test ends that are not recorded *)

Lemma reportOf_not_recorded before e after fr :
  recorded' e = false ->
  reportOf' (before ++ e :: after) fr = reportOf' (before ++ after) fr.
Proof.
  intros H. unfold reportOf. rewrite (absorb_not_recorded before e after _ H).
  reflexivity.
Qed.

Lemma recordedRuns_not_recorded before e after :
  recorded' e = false ->
  recordedRuns' (before ++ e :: after) = recordedRuns' (before ++ after).
Proof.
  intros H. unfold recordedRuns. rewrite !List.filter_app. simpl. rewrite H. reflexivity.
Qed.

(** A test none of whose ends is recorded has no run and no test case. *)
Lemma unrecorded_test_is_absent ends fr b testId :
  (forall e, In e ends -> id (fst e) = testId -> recorded' e = false) ->
  reportOf' ends fr = Some b ->
  runsOfTest testId (testCaseRuns b) = [] /\ get testId (testCases b) = None.
Proof.
  intros Hall Hb. apply reportOf_unique in Hb as [-> ->].
  assert (Hnone : runsOfTest testId (recordedRuns' ends) = []).
  { unfold recordedRuns, runsOfTest. clear -Hall.
    induction ends as [| e rest IH]; [reflexivity |]. simpl.
    destruct (recorded' e) eqn:R.
    - simpl. destruct (String.eqb (id (fst e)) testId) eqn:E.
      + apply String.eqb_eq in E. rewrite (Hall e (or_introl eq_refl) E) in R.
        discriminate.
      + apply IH. intros e' He'. apply Hall. right. exact He'.
    - apply IH. intros e' He'. apply Hall. right. exact He'. }
  split; [exact Hnone |].
  pose proof (grouped_lookup ends testId) as H.
  destruct (get testId (grouped ends)) as [tc |]; [| reflexivity].
  destruct H as (_ & Hown & Hne). rewrite Hown in Hne. contradiction.
Qed.

(** C7. A test end whose test is expected to be skipped changes nothing
    in the builder: no run is added, a run of test ends gives the same
    runs and the same report with it as without it, and a test all of
    whose ends are such has no run and no test case in the built report. *)
Theorem expected_skipped_test_is_not_recorded test result :
  expectedStatus test = skipped ->
  (forall b, onTestEnd' b test result = b) /\
  (forall before after,
     recordedRuns' (before ++ (test, result) :: after) = recordedRuns' (before ++ after)) /\
  (forall before after fr,
     reportOf' (before ++ (test, result) :: after) fr = reportOf' (before ++ after) fr) /\
  (forall ends fr b,
     (forall e, In e ends -> id (fst e) = id test -> expectedStatus (fst e) = skipped) ->
     reportOf' ends fr = Some b ->
     runsOfTest (id test) (testCaseRuns b) = [] /\ get (id test) (testCases b) = None).
Proof.
  intros Hskipped.
  assert (Hrec : forall e, expectedStatus (fst e) = skipped -> recorded' e = false).
  { intros e He. unfold recorded. rewrite He.
    rewrite bool_decide_eq_true_2 by reflexivity. apply andb_false_r. }
  split; [| split; [| split]].
  - intros b. apply onTestEnd_not_recorded, Hrec, Hskipped.
  - intros before after. apply recordedRuns_not_recorded, Hrec, Hskipped.
  - intros before after fr. apply reportOf_not_recorded, Hrec, Hskipped.
  - intros ends fr b Hall Hb.
    apply (unrecorded_test_is_absent ends fr b (id test)); [| exact Hb].
    intros e He Hid. apply Hrec, Hall; assumption.
Qed.

(** C10. A test end whose test belongs to a project without BDD
    configuration changes nothing in the builder, whatever its status: no
    run is added, the built report (and so every envelope emitted) is the
    same with it as without it, and a test all of whose ends are such has
    no run and no test case in the built report. *)
Theorem non_bdd_test_is_not_recorded test result :
  hasBddConfig (testDir <$> project test) = false ->
  (forall b, onTestEnd' b test result = b) /\
  (forall before after,
     recordedRuns' (before ++ (test, result) :: after) = recordedRuns' (before ++ after)) /\
  (forall before after fr,
     reportOf' (before ++ (test, result) :: after) fr = reportOf' (before ++ after) fr) /\
  (forall ends fr b,
     (forall e, In e ends -> id (fst e) = id test ->
                hasBddConfig (testDir <$> project (fst e)) = false) ->
     reportOf' ends fr = Some b ->
     runsOfTest (id test) (testCaseRuns b) = [] /\ get (id test) (testCases b) = None).
Proof.
  intros Hnon.
  assert (Hrec : forall e, hasBddConfig (testDir <$> project (fst e)) = false ->
                           recorded' e = false).
  { intros e He. unfold recorded. rewrite He. reflexivity. }
  split; [| split; [| split]].
  - intros b. apply onTestEnd_not_recorded, Hrec, Hnon.
  - intros before after. apply recordedRuns_not_recorded, Hrec, Hnon.
  - intros before after fr. apply reportOf_not_recorded, Hrec, Hnon.
  - intros ends fr b Hall Hb.
    apply (unrecorded_test_is_absent ends fr b (id test)); [| exact Hb].
    intros e He Hid. apply Hrec, Hall; assumption.
Qed.

End BuilderFacts.


(** ** The properties on a sample run *)

Local Open Scope Z_scope.

Example sample_report_kinds :
  (fun b => map kindOf (emitMessages b)) <$> sampleReportOf sampleEnds sampleFullResult
  = Some (orderedKinds 1 1 1 0 0 1
            [ testCaseStarted; testStepStarted; testStepFinished; testCaseFinished;
              testCaseStarted; testStepStarted; testStepFinished; testCaseFinished ]).
Proof. vm_compute. reflexivity. Qed.

Lemma run_timestamps_witness :
  exists b started finished,
    sampleReportOf sampleEnds sampleFullResult = Some b /\
    report_testRunStarted (report b) = Some started /\
    report_testRunFinished (report b) = Some finished /\
    started_timestamp started = {| seconds := 1; nanos := 0 |} /\
    finished_timestamp finished = {| seconds := 1; nanos := 500000000 |} /\
    notAfter (started_timestamp started) (finished_timestamp finished).
Proof.
  destruct (run_timestamps sampleHasBddConfig (fun _ _ hs => hs) sampleDocumentsOf
              "meta"%string (fun tcs => map fst tcs) hook_body testCase_id
              sampleRunMessages 0 sampleEnds sampleFullResult)
    as (b & started & finished & Hb & Hs & Hf & H1 & H2 & _ & _ & _ & Horder).
  exists b, started, finished.
  split; [exact Hb |]. split; [exact Hs |]. split; [exact Hf |].
  split; [rewrite H1; vm_compute; reflexivity |].
  split; [rewrite H2; vm_compute; reflexivity |].
  apply Horder; vm_compute; discriminate.
Defined.

Lemma expected_skipped_test_is_not_recorded_witness :
  (forall b : Builder string,
     onTestEnd sampleHasBddConfig (fun _ _ hs => hs) b (fst skippedEnd) (snd skippedEnd)
     = b) /\
  (forall fr,
     sampleReportOf sampleEnds fr
     = sampleReportOf [failedAttempt; plainEnd; passedAttempt] fr).
Proof.
  destruct (expected_skipped_test_is_not_recorded sampleHasBddConfig
              (fun _ _ hs => hs) sampleDocumentsOf "meta"%string
              (fun tcs => map fst tcs) hook_body testCase_id sampleRunMessages 0
              (fst skippedEnd) (snd skippedEnd) eq_refl)
    as (Hsame & _ & Hreport & _).
  split; [exact Hsame |].
  intros fr. exact (Hreport [failedAttempt] [plainEnd; passedAttempt] fr).
Defined.

Lemma non_bdd_test_is_not_recorded_witness :
  (forall b : Builder string,
     onTestEnd sampleHasBddConfig (fun _ _ hs => hs) b (fst plainEnd) (snd plainEnd)
     = b) /\
  (forall fr,
     sampleReportOf sampleEnds fr
     = sampleReportOf [failedAttempt; skippedEnd; passedAttempt] fr).
Proof.
  destruct (non_bdd_test_is_not_recorded sampleHasBddConfig
              (fun _ _ hs => hs) sampleDocumentsOf "meta"%string
              (fun tcs => map fst tcs) hook_body testCase_id sampleRunMessages 0
              (fst plainEnd) (snd plainEnd) eq_refl)
    as (Hsame & _ & Hreport & _).
  split; [exact Hsame |].
  intros fr. exact (Hreport [failedAttempt; skippedEnd] [passedAttempt] fr).
Defined.

(** C3 as stated fails: of the four test ends observed, the
    one of the test expected to be skipped is grouped into no test case,
    so not every observed test end has a run in the test case of its id. *)
Lemma skipped_test_end_joins_no_test_case :
  exists b,
    sampleReportOf sampleEnds sampleFullResult = Some b /\
    In skippedEnd sampleEnds /\
    get (id (fst skippedEnd)) (testCases b) = None /\
    ~ (forall e, In e sampleEnds ->
         exists tc,
           get (id (fst e)) (testCases b) = Some tc /\
           testCase_runs tc
           = map runOf (List.filter
                          (fun e' => String.eqb (id (fst e')) (id (fst e)))
                          sampleEnds)).
Proof.
  eexists. split; [vm_compute; reflexivity |].
  split; [right; left; reflexivity |].
  split; [vm_compute; reflexivity |].
  intros H. destruct (H skippedEnd) as (tc & Hget & _).
  - right. left. reflexivity.
  - vm_compute in Hget. discriminate.
Qed.

End MessagesFacts.

(** On the sample configuration a feature below the features root is
    mirrored below the output directory. *)
Example sample_spec_path :
  forall st,
    getSpecPathByFeaturePath "/proj" "/proj" sampleConfig
                             "features/admin/login.feature" st
    = (Returned "/proj/.features-gen/admin/login.feature.spec.js"%string, st).
Proof. intros st. vm_compute. reflexivity. Qed.

(* ===================================================================== *)
(** * More properties of the generation pass                              *)
(* ===================================================================== *)

Section GenerationPassMore.

Variable configDir : string.
Variable cwd : string.
Variable config : BDDConfig.
Variable hasCustomTest : bool.
Variable build : list string -> GherkinDocument -> Outcome Built.
Variable fg : string -> gmap string string -> list string.
Variable convertPathToPattern : string -> string.

Local Abbreviation getSpecPath := (getSpecPathByFeaturePath configDir cwd config).
Local Abbreviation newFile := (newTestFile configDir cwd config build).
Local Abbreviation buildAll := (buildFiles configDir cwd config build).
Local Abbreviation clear := (clearOutputDir config fg convertPathToPattern).
Local Abbreviation run :=
  (generate configDir cwd config hasCustomTest build fg convertPathToPattern).
Local Abbreviation stale d := (fg (stalePattern config convertPathToPattern) d).

(** ** The writes of a pass *)

Lemma forEach_rm_disk paths st :
  exists st', forEachGen rm paths st = (Returned tt, st') /\
              disk st' = removeAll paths (disk st).
Proof.
  revert st. induction paths as [| p rest IH]; intros st; simpl.
  - exists st. auto.
  - rewrite run_bind. unfold rm at 1. simpl.
    match goal with |- context [forEachGen rm rest ?s] =>
      destruct (IH s) as (st' & Hrun & Hdisk) end.
    exists st'. rewrite Hrun, Hdisk. auto.
Qed.

Lemma clearOutputDir_disk st :
  exists st', clear st = (Returned tt, st') /\
              disk st' = removeAll (stale (disk st)) (disk st).
Proof.
  unfold clearOutputDir, stalePattern. rewrite run_bind. simpl. rewrite run_bind. simpl.
  match goal with |- context [forEachGen rm ?ps ?s] =>
    destruct (forEach_rm_disk ps s) as (st' & Hrun & Hdisk) end.
  exists st'. rewrite Hrun, Hdisk. auto.
Qed.

Lemma forEach_save_disk fs st :
  exists st',
    forEachGen
      (fun file =>
         save file;;
         emit (Log ("Generated: " ++ Path.relative cwd cwd (outputPath file))%string))
      fs st = (Returned tt, st') /\
    disk st' = writeAll fs (disk st).
Proof.
  revert st. induction fs as [| f rest IH]; intros st; simpl.
  - exists st. auto.
  - rewrite run_bind. unfold save at 1. simpl.
    match goal with |- context [forEachGen _ rest ?s] =>
      destruct (IH s) as (st' & Hrun & Hdisk) end.
    exists st'. rewrite Hrun, Hdisk. auto.
Qed.

Lemma saveFiles_disk st :
  exists st', saveFiles cwd st = (Returned tt, st') /\
              disk st' = writeAll (files st) (disk st).
Proof.
  unfold saveFiles. rewrite run_bind. simpl. rewrite run_bind.
  destruct (forEach_save_disk (files st) st) as (s1 & Hrun & Hdisk).
  rewrite Hrun. simpl. eexists. split; [reflexivity |]. exact Hdisk.
Qed.

(** The two writing phases always return. *)
Lemma writes_return st :
  exists st', (clear;; saveFiles cwd) st = (Returned tt, st').
Proof.
  rewrite run_bind. destruct (clearOutputDir_disk st) as (s1 & -> & _).
  destruct (saveFiles_disk s1) as (s2 & -> & _). eauto.
Qed.

Lemma checkImportTestFrom_run st :
  checkImportTestFrom config hasCustomTest st =
  if hasCustomTest && negb (bool_decide (is_Some (importTestFrom config)))
  then (Exited
          [ ("When using custom " ++ str1 dquote ++ "test" ++ str1 dquote
               ++ " function in createBdd() you should")%string;
            ("set " ++ str1 dquote ++ "importTestFrom" ++ str1 dquote
               ++ " config option that points to file exporting custom test.")%string ],
        st)
  else (Returned tt, st).
Proof.
  unfold checkImportTestFrom. destruct (_ && _); reflexivity.
Qed.

(** A pass exits in one of its checks or before, never while writing. *)
Lemma exit_is_before_writes loaded st messages st' :
  run loaded st = (Exited messages, st') -> untouched st st'.
Proof.
  intros Hrun. rewrite generate_split in Hrun.
  apply bind_inv in Hrun as [([] & s4 & Hpre & Hrest) | (ms & Hpre & _)];
    [| eapply quiet_until_check; eassumption].
  pose proof (quiet_until_check _ _ _ _ _ _ _ _ Hpre) as H4.
  apply bind_inv in Hrest as [([] & s5 & Hcheck & Hrest) | (ms & Hcheck & _)];
    [| eapply untouched_trans; [exact H4 |];
       eapply quiet_checkUndefinedSteps; eassumption].
  pose proof (quiet_checkUndefinedSteps _ _ _ Hcheck) as H5.
  apply bind_inv in Hrest as [([] & s6 & Himport & Hrest) | (ms & Himport & _)].
  - destruct (writes_return s6) as (s7 & Hwrites).
    rewrite Hwrites in Hrest. discriminate.
  - eapply untouched_trans; [exact H4 |]. eapply untouched_trans; [exact H5 |].
    eapply quiet_checkImportTestFrom; eassumption.
Qed.

(** X1. A generation pass that exits, for whatever reason, has not
    touched the disk: the files on disk are the ones it started with and
    it has neither removed nor saved a file. *)
Theorem exited_pass_leaves_disk_untouched loaded st messages st' :
  run loaded st = (Exited messages, st') ->
  disk st' = disk st /\
  exists added,
    events st' = events st ++ added /\
    Forall (fun e => mutatesFiles e = false) added /\
    savedPaths added = [].
Proof.
  intros Hrun. destruct (exit_is_before_writes _ _ _ _ Hrun) as [Hdisk (added & He & Hq)].
  split; [exact Hdisk |]. exists added. split; [exact He |]. split; [exact Hq |].
  apply savedPaths_quiet. exact Hq.
Qed.

(** X2. With a custom test function and no [importTestFrom] in the
    config, no generation pass completes: every pass exits, without having
    touched the disk, and a pass whose features load and build without
    error and without undefined step exits with the two messages that ask
    for [importTestFrom]. *)
Theorem custom_test_needs_importTestFrom loaded st o st' :
  hasCustomTest = true ->
  importTestFrom config = None ->
  run loaded st = (o, st') ->
  (exists messages, o = Exited messages) /\
  untouched st st' /\
  (forall s4,
     (loadCucumberConfig loaded;; loadFeatures loaded;;
      loadSteps config loaded;; buildAll loaded) st = (Returned tt, s4) ->
     countUndefinedSteps (files s4) = 0%nat ->
     st' = s4 /\
     o = Exited
           [ ("When using custom " ++ str1 dquote ++ "test" ++ str1 dquote
                ++ " function in createBdd() you should")%string;
             ("set " ++ str1 dquote ++ "importTestFrom" ++ str1 dquote
                ++ " config option that points to file exporting custom test.")%string ]).
Proof.
  intros Hcustom Hnone Hrun.
  assert (Himport : forall s,
            (checkImportTestFrom config hasCustomTest;; clear;; saveFiles cwd) s
            = (Exited
                 [ ("When using custom " ++ str1 dquote ++ "test" ++ str1 dquote
                      ++ " function in createBdd() you should")%string;
                   ("set " ++ str1 dquote ++ "importTestFrom" ++ str1 dquote
                      ++ " config option that points to file exporting custom test.")%string ],
               s)).
  { intros s. rewrite run_bind, checkImportTestFrom_run, Hcustom, Hnone. reflexivity. }
  assert (Hexit : exists messages, o = Exited messages).
  { rewrite generate_split in Hrun.
    apply bind_inv in Hrun as [([] & s4 & _ & Hrest) | (ms & _ & ->)]; [| eauto].
    apply bind_inv in Hrest as [([] & s5 & _ & Hrest) | (ms & _ & ->)]; [| eauto].
    rewrite Himport in Hrest. inversion Hrest. eauto. }
  split; [exact Hexit |]. split.
  - destruct Hexit as (ms & ->). eapply exit_is_before_writes. exact Hrun.
  - intros s4 Hpre Hcount. rewrite generate_split, run_bind, Hpre in Hrun.
    rewrite run_bind, checkUndefinedSteps_run, Hcount in Hrun. simpl in Hrun.
    rewrite Himport in Hrun. inversion Hrun. auto.
Qed.

(** ** The disk after a pass that completes *)

Lemma removeAll_lookup paths (d : gmap string string) path :
  removeAll paths d !! path = if decide (path ∈ paths) then None else d !! path.
Proof.
  revert d. induction paths as [| p rest IH]; intros d; simpl.
  - destruct (decide (path ∈ [])) as [H | _]; [inversion H | reflexivity].
  - unfold removeAll in *. simpl. rewrite IH.
    destruct (decide (path ∈ rest)) as [Hin | Hout].
    + rewrite decide_True by (right; exact Hin). reflexivity.
    + destruct (decide (path = p)) as [-> | Hne].
      * rewrite decide_True by left. apply lookup_delete_eq.
      * rewrite decide_False by (intros H; inversion H; subst; contradiction).
        apply lookup_delete_ne. congruence.
Qed.

Lemma writeAll_lookup_other fs (d : gmap string string) path :
  path ∉ map outputPath fs -> writeAll fs d !! path = d !! path.
Proof.
  revert d. induction fs as [| f rest IH]; intros d Hout; [reflexivity |].
  unfold writeAll in *. simpl. rewrite IH.
  - apply lookup_insert_ne. intros E. apply Hout. simpl. rewrite E.
    apply list_elem_of_here.
  - intros H. apply Hout. simpl. apply list_elem_of_further. exact H.
Qed.

Lemma writeAll_lookup_written fs (d : gmap string string) f :
  NoDup (map outputPath fs) -> f ∈ fs ->
  writeAll fs d !! outputPath f = Some (content f).
Proof.
  revert d. induction fs as [| g rest IH]; intros d Hnodup Hin; [inversion Hin |].
  simpl in Hnodup. apply NoDup_cons in Hnodup as [Hfresh Hnodup].
  change (writeAll (g :: rest) d)
    with (writeAll rest (<[outputPath g := content g]> d)).
  apply elem_of_cons in Hin as [-> | Hin].
  - rewrite writeAll_lookup_other by exact Hfresh. apply lookup_insert_eq.
  - apply IH; assumption.
Qed.

Lemma completed_pass_disk loaded st st' :
  run loaded st = (Returned tt, st') ->
  disk st' = writeAll (files st') (removeAll (stale (disk st)) (disk st)).
Proof.
  intros Hrun. rewrite generate_split in Hrun.
  apply bind_inv in Hrun as [([] & s4 & Hpre & Hrest) | (ms & _ & ?)]; [| discriminate].
  pose proof (quiet_until_check _ _ _ _ _ _ _ _ Hpre) as [Hd4 _].
  apply bind_inv in Hrest as [([] & s5 & Hcheck & Hrest) | (ms & _ & ?)]; [| discriminate].
  pose proof (quiet_checkUndefinedSteps _ _ _ Hcheck) as [Hd5 _].
  apply bind_inv in Hrest as [([] & s6 & Himport & Hrest) | (ms & _ & ?)]; [| discriminate].
  pose proof (quiet_checkImportTestFrom _ _ _ _ _ Himport) as [Hd6 _].
  apply bind_inv in Hrest as [([] & s7 & Hclear & Hsave) | (ms & _ & ?)]; [| discriminate].
  destruct (clearOutputDir_disk s6) as (s7' & Hclear' & Hd7).
  rewrite Hclear' in Hclear. inversion Hclear; subst s7'; clear Hclear.
  destruct (saveFiles_disk s7) as (s8 & Hsave' & Hd8).
  pose proof (keepsFiles_saveFiles _ _ _ _ Hsave) as Hf8.
  rewrite Hsave' in Hsave. inversion Hsave; subst s8; clear Hsave.
  rewrite Hd8, Hf8, Hd7, Hd6, Hd5, Hd4. reflexivity.
Qed.

(** X3. After a pass that completes, the disk is the one the pass
    started with, less the stale files that the glob found in the output
    directory, plus the test files of the generator's list: a path that
    is no output path is gone if the glob found it and is unchanged
    otherwise, and when the output paths are distinct every test file
    stands at its output path with its content. *)
Theorem completed_pass_rewrites_output loaded st st' :
  run loaded st = (Returned tt, st') ->
  disk st' = writeAll (files st') (removeAll (stale (disk st)) (disk st)) /\
  (forall path,
     path ∉ map outputPath (files st') ->
     disk st' !! path = if decide (path ∈ stale (disk st)) then None else disk st !! path) /\
  (NoDup (map outputPath (files st')) ->
   forall file, file ∈ files st' -> disk st' !! outputPath file = Some (content file)).
Proof.
  intros Hrun. pose proof (completed_pass_disk _ _ _ Hrun) as Hdisk.
  split; [exact Hdisk |]. split.
  - intros path Hout. rewrite Hdisk, writeAll_lookup_other by exact Hout.
    apply removeAll_lookup.
  - intros Hnodup file Hin. rewrite Hdisk.
    apply writeAll_lookup_written; assumption.
Qed.

(** ** The step definitions and the files of a pass *)

Lemma loadCucumberConfig_returns loaded st :
  exists st', loadCucumberConfig loaded st = (Returned tt, st') /\
              library st' = library st.
Proof.
  unfold loadCucumberConfig, warnForTsNodeRegister.
  destruct (tsNodeRegister loaded); eexists; split; reflexivity.
Qed.

Lemma loadSteps_returns loaded st :
  exists st', loadSteps config loaded st = (Returned tt, st') /\
              library st' = loadedSteps config loaded.
Proof.
  unfold loadSteps, loadDecoratorSteps, loadedSteps.
  destruct (importTestFrom config); eexists; split; reflexivity.
Qed.

Lemma loadFeatures_library loaded st o st' :
  loadFeatures loaded st = (o, st') -> library st' = library st.
Proof.
  unfold loadFeatures, handleParseErrors. rewrite !run_bind. simpl.
  destruct (parseErrors loaded); simpl; intros H; inversion H; reflexivity.
Qed.

(** X4. [extractSteps] never exits and touches neither the disk nor the
    file list, whatever the features are: it returns the loaded step
    definitions, followed by the decorator steps exactly when the config
    has an [importTestFrom]. *)
Theorem extractSteps_returns_loaded_steps loaded st :
  exists st',
    extractSteps config loaded st
    = (Returned (match importTestFrom config with
                 | Some _ => stepDefinitions loaded ++ decoratorSteps loaded
                 | None => stepDefinitions loaded
                 end), st') /\
    untouched st st' /\ files st' = files st.
Proof.
  unfold extractSteps. rewrite run_bind.
  destruct (loadCucumberConfig_returns loaded st) as (s1 & H1 & _).
  pose proof (quiet_loadCucumberConfig _ _ _ _ H1) as Hq1.
  pose proof (keepsFiles_loadCucumberConfig _ _ _ _ H1) as Hf1.
  rewrite H1, run_bind.
  destruct (loadSteps_returns loaded s1) as (s2 & H2 & Hlib).
  pose proof (quiet_loadSteps _ _ _ _ _ H2) as Hq2.
  pose proof (keepsFiles_loadSteps _ _ _ _ _ H2) as Hf2.
  rewrite H2. exists s2. unfold getLibrary. rewrite Hlib. unfold loadedSteps.
  split; [reflexivity |]. split; [eapply untouched_trans; eassumption | congruence].
Qed.

Lemma getSpecPath_stateless rel st path st' :
  getSpecPath rel st = (Returned path, st') ->
  forall s, getSpecPath rel s = (Returned path, s).
Proof.
  intros H s. unfold getSpecPathByFeaturePath in *. rewrite run_bind in *.
  destruct (startsWith _ _); [discriminate |].
  inversion H; subst. reflexivity.
Qed.

Local Abbreviation builtFrom := (builtFrom configDir cwd config build).

Lemma newTestFile_returns doc st file st' :
  newFile doc st = (Returned file, st') ->
  library st' = library st /\ builtFrom (library st) doc file.
Proof.
  unfold newTestFile. rewrite run_bind. simpl. rewrite run_bind.
  destruct (getSpecPath (uri doc) st) as [[path | ms] s1] eqn:Hpath; [| discriminate].
  pose proof (getSpecPath_stateless _ _ _ _ Hpath) as Hstateless.
  rewrite (Hstateless st) in Hpath. inversion Hpath; subst s1; clear Hpath.
  rewrite run_bind. simpl.
  destruct (build (library st) doc) as [b | ms] eqn:Hb; simpl; intros H; inversion H.
  split; [reflexivity |]. unfold builtFrom. simpl.
  split; [reflexivity |]. split; [exact Hstateless |]. exists b. auto.
Qed.

Lemma mapGen_newTestFile_built docs st built st' :
  mapGen newFile docs st = (Returned built, st') ->
  Forall2 (builtFrom (library st)) docs built.
Proof.
  revert st built. induction docs as [| doc rest IH]; intros st built H; simpl in H.
  - inversion H. constructor.
  - apply bind_inv in H as [(file & s1 & H1 & H) | (ms & _ & ?)]; [| discriminate].
    apply bind_inv in H as [(files' & s2 & H2 & H) | (ms & _ & ?)]; [| discriminate].
    inversion H; subst. apply newTestFile_returns in H1 as [Hlib Hfile].
    constructor; [exact Hfile |]. rewrite <- Hlib. eapply IH. exact H2.
Qed.

Lemma filter_sublist {A} (p : A -> bool) (l : list A) : List.filter p l `sublist_of` l.
Proof.
  induction l as [| x rest IH]; simpl; [constructor |].
  destruct (p x); [apply sublist_skip | apply sublist_cons]; exact IH.
Qed.

Lemma completed_pass_files loaded st st' :
  run loaded st = (Returned tt, st') ->
  exists built,
    Forall2 (builtFrom (loadedSteps config loaded)) (documentsWithPickles loaded) built /\
    files st' = List.filter (fun file => (0 <? testCount file)%nat) built.
Proof.
  intros Hrun. rewrite generate_split in Hrun.
  apply bind_inv in Hrun as [([] & s4 & Hpre & Hrest) | (ms & _ & ?)]; [| discriminate].
  apply keepsFiles_bind in Hrest;
    [| apply keepsFiles_checkUndefinedSteps | intros _; apply keepsFiles_afterCheck].
  apply bind_inv in Hpre as [([] & s1 & _ & Hpre) | (ms & _ & ?)]; [| discriminate].
  apply bind_inv in Hpre as [([] & s2 & _ & Hpre) | (ms & _ & ?)]; [| discriminate].
  apply bind_inv in Hpre as [([] & s3 & Hsteps & Hbuild) | (ms & _ & ?)]; [| discriminate].
  destruct (loadSteps_returns loaded s2) as (s3' & Hsteps' & Hlib).
  rewrite Hsteps' in Hsteps. inversion Hsteps; subst s3'; clear Hsteps.
  unfold buildFiles in Hbuild.
  apply bind_inv in Hbuild as [(built & s & Hmap & Hset) | (ms & _ & ?)]; [| discriminate].
  exists built. split.
  - rewrite <- Hlib. eapply mapGen_newTestFile_built. exact Hmap.
  - rewrite Hrest. inversion Hset. reflexivity.
Qed.

(** ** Undefined steps *)

(** The list that the building phase leaves: the files built for the
    documents with pickles, less the files without tests. *)
Lemma built_phase_files loaded st s4 :
  (loadCucumberConfig loaded;; loadFeatures loaded;;
   loadSteps config loaded;; buildAll loaded) st = (Returned tt, s4) ->
  exists built,
    Forall2 (builtFrom (loadedSteps config loaded)) (documentsWithPickles loaded) built /\
    files s4 = List.filter (fun file => (0 <? testCount file)%nat) built.
Proof.
  intros Hpre.
  apply bind_inv in Hpre as [([] & s1 & _ & Hpre) | (ms & _ & ?)]; [| discriminate].
  apply bind_inv in Hpre as [([] & s2 & _ & Hpre) | (ms & _ & ?)]; [| discriminate].
  apply bind_inv in Hpre as [([] & s3 & Hsteps & Hbuild) | (ms & _ & ?)]; [| discriminate].
  destruct (loadSteps_returns loaded s2) as (s3' & Hsteps' & Hlib).
  rewrite Hsteps' in Hsteps. inversion Hsteps; subst s3'; clear Hsteps.
  unfold buildFiles in Hbuild.
  apply bind_inv in Hbuild as [(built & s & Hmap & Hset) | (ms & _ & ?)]; [| discriminate].
  exists built. split.
  - rewrite <- Hlib. eapply mapGen_newTestFile_built. exact Hmap.
  - inversion Hset. reflexivity.
Qed.

(** A document for which [TestFile.build] gives at least one test and an
    undefined step leaves a file with an undefined step in the list. *)
Lemma built_phase_keeps_undefined loaded st s4 :
  (loadCucumberConfig loaded;; loadFeatures loaded;;
   loadSteps config loaded;; buildAll loaded) st = (Returned tt, s4) ->
  Exists (fun doc =>
            exists b, build (loadedSteps config loaded) doc = Returned b /\
                      (0 < built_testCount b)%nat /\ built_undefinedSteps b <> [])
         (documentsWithPickles loaded) ->
  Exists (fun f => undefinedSteps f <> []) (files s4).
Proof.
  intros Hpre Hundef.
  destruct (built_phase_files _ _ _ Hpre) as (built & Hbuilt & Hfiles).
  rewrite Hfiles.
  apply Exists_exists in Hundef as (doc & Hin & b & Hb & Hpos & Hne).
  apply list_elem_of_lookup in Hin as (i & Hi).
  destruct (Forall2_lookup_l _ _ _ i doc Hbuilt Hi) as (file & Hfile & Hfrom).
  destruct Hfrom as (_ & _ & b' & Hb' & Htc & Hus & _).
  rewrite Hb in Hb'. inversion Hb'; subst b'; clear Hb'.
  apply Exists_exists. exists file. split.
  - apply list_elem_of_In, filter_In. split.
    + apply list_elem_of_In. eapply list_elem_of_lookup_2. exact Hfile.
    + apply Nat.ltb_lt. rewrite Htc. exact Hpos.
  - rewrite Hus. exact Hne.
Qed.

(** C1. In every generation pass over a document for which
    [TestFile.build] gives a test file with at least one test and an
    undefined step, [generate] exits and the disk is the one the pass
    started with: nothing was removed or saved.  When the loading and
    the building complete, the exit is the one of [checkUndefinedSteps],
    without a message, right after the snippets for the undefined steps
    of all the files of the list have been printed, before
    [clearOutputDir] and [saveFiles]. *)
Theorem generate_aborts_on_undefined_steps loaded d o st' :
  run loaded (initialState d) = (o, st') ->
  Exists (fun doc =>
            exists b, build (loadedSteps config loaded) doc = Returned b /\
                      (0 < built_testCount b)%nat /\ built_undefinedSteps b <> [])
         (documentsWithPickles loaded) ->
  (exists messages, o = Exited messages) /\
  disk st' = d /\
  Forall (fun e => mutatesFiles e = false) (events st') /\
  forall s4,
    (loadCucumberConfig loaded;; loadFeatures loaded;;
     loadSteps config loaded;; buildAll loaded) (initialState d) = (Returned tt, s4) ->
    o = Exited [] /\
    files st' = files s4 /\
    Exists (fun f => undefinedSteps f <> []) (files st') /\
    events st' = events s4 ++ [PrintSnippets (files s4)].
Proof.
  intros Hrun Hundef. rewrite generate_split in Hrun.
  apply bind_inv in Hrun as [([] & s4 & Hpre & Hrest) | (ms & Hpre & Ho)].
  - pose proof (quiet_until_check _ _ _ _ _ _ _ _ Hpre) as [Hdisk (added & Hev & Hquiet)].
    simpl in Hdisk, Hev.
    pose proof (built_phase_keeps_undefined _ _ _ Hpre Hundef) as Hex.
    pose proof Hex as Hcount. apply countUndefinedSteps_pos in Hcount.
    apply Nat.ltb_lt in Hcount.
    rewrite run_bind, checkUndefinedSteps_run, Hcount in Hrest.
    inversion Hrest; subst o st'; clear Hrest. simpl.
    split; [eexists; reflexivity |]. split; [exact Hdisk |]. split.
    + rewrite Hev. apply Forall_app. split; [exact Hquiet | repeat constructor].
    + intros s4' Hpre'. rewrite Hpre in Hpre'. inversion Hpre'; subst s4'.
      repeat split; [exact Hex].
  - pose proof (quiet_until_check _ _ _ _ _ _ _ _ Hpre) as [Hdisk (added & Hev & Hquiet)].
    simpl in Hdisk, Hev.
    split; [eexists; exact Ho |]. split; [exact Hdisk |]. split.
    + rewrite Hev. exact Hquiet.
    + intros s4 Hpre'. rewrite Hpre in Hpre'. discriminate.
Qed.

(** X5. In a pass that completes, every file of the generator's list has
    at least one test and comes from one of the documents with pickles:
    its output path is the path derived from the uri of the document, and
    its tests, undefined steps and content are what [TestFile.build]
    gives for the document and the step definitions that [extractSteps]
    returns.  The files keep the order of the documents. *)
Theorem kept_files_are_built_from_documents loaded st st' :
  run loaded st = (Returned tt, st') ->
  Forall (fun file =>
            (0 < testCount file)%nat /\
            exists doc,
              In doc (documentsWithPickles loaded) /\
              builtFrom (loadedSteps config loaded) doc file)
         (files st') /\
  map sourceUri (files st') `sublist_of` map uri (documentsWithPickles loaded).
Proof.
  intros Hrun. destruct (completed_pass_files _ _ _ Hrun) as (built & Hbuilt & Hfiles).
  rewrite Hfiles. split.
  - apply List.Forall_forall. intros file Hin.
    apply filter_In in Hin as [Hin Hpos]. apply Nat.ltb_lt in Hpos.
    split; [exact Hpos |].
    apply list_elem_of_In in Hin.
    apply list_elem_of_lookup in Hin as (i & Hi).
    destruct (Forall2_lookup_r _ _ _ i file Hbuilt Hi) as (doc & Hdoc & Hfrom).
    exists doc. split; [| exact Hfrom].
    apply list_elem_of_In. eapply list_elem_of_lookup_2. exact Hdoc.
  - assert (Hsrc : map sourceUri built = map uri (documentsWithPickles loaded)).
    { clear -Hbuilt. induction Hbuilt as [| doc file docs fs Hf _ IH]; [reflexivity |].
      simpl. destruct Hf as (-> & _). rewrite IH. reflexivity. }
    rewrite <- Hsrc. clear.
    induction built as [| f rest IH]; simpl; [constructor |].
    destruct (0 <? testCount f)%nat; simpl;
      [apply sublist_skip | apply sublist_cons]; exact IH.
Qed.

(** ** The paths that path derivation returns *)

Lemma stripCommon_nil a b :
  fst (Path.stripCommon a b) = [] -> b = a ++ snd (Path.stripCommon a b).
Proof.
  revert b. induction a as [| x a' IH]; intros b H.
  - destruct b; reflexivity.
  - destruct b as [| y b']; simpl in H; [discriminate |]. simpl.
    destruct (String.eqb x y) eqn:E; [| discriminate].
    apply String.eqb_eq in E. subst y. simpl. f_equal. apply IH. exact H.
Qed.

Lemma string_length_app (a b : string) :
  String.length (a ++ b)%string = (String.length a + String.length b)%nat.
Proof. induction a as [| c a IH]; simpl; [reflexivity | rewrite IH; reflexivity]. Qed.

Lemma string_app_inv_tail (a b s : string) : (a ++ s = b ++ s)%string -> a = b.
Proof.
  revert b. induction a as [| c a IH]; intros b H.
  - destruct b as [| c' b]; [reflexivity |]. exfalso.
    apply (f_equal String.length) in H. rewrite !string_length_app in H.
    simpl in H. lia.
  - destruct b as [| c' b].
    + exfalso. apply (f_equal String.length) in H. rewrite !string_length_app in H.
      simpl in H. lia.
    + simpl in H. inversion H. f_equal. apply IH. assumption.
Qed.

Lemma join_proper_inj a b :
  Forall (fun p => Path.properName p = true) a ->
  Forall (fun p => Path.properName p = true) b ->
  join (str1 slash) a = join (str1 slash) b -> a = b.
Proof.
  intros Ha Hb H.
  assert (Hne : forall p l, Path.properName p = true ->
                            join (str1 slash) (p :: l) <> EmptyString).
  { intros p l Hp. unfold Path.properName in Hp.
    repeat (apply andb_true_iff in Hp as [Hp ?]).
    destruct p as [| c p']; [discriminate |]. destruct l; discriminate. }
  destruct a as [| p a'], b as [| q b']; [reflexivity | | |].
  - exfalso. inversion Hb; subst. eapply Hne; [eassumption |]. symmetry. exact H.
  - exfalso. inversion Ha; subst. eapply Hne; eassumption.
  - rewrite <- (PathFacts.split_join (p :: a')),
            <- (PathFacts.split_join (q :: b'));
      try discriminate; try (apply PathFacts.properName_slashFree; assumption).
    rewrite H. reflexivity.
Qed.

(** What a returned path tells about the feature. *)
Lemma getSpecPath_returned rel st path st' :
  Path.isAbsolute cwd = true ->
  getSpecPath rel st = (Returned path, st') ->
  st' = st /\
  exists down,
    Path.resolveSegments cwd configDir rel
    = Path.resolveSegments cwd cwd (featuresRoot config) ++ down /\
    Forall (fun p => Path.properName p = true) down /\
    path = (Path.render (Path.resolveSegments cwd cwd (outputDir config) ++ down)
              ++ ".spec.js")%string.
Proof.
  intros Hcwd H.
  assert (Hdots : startsWith (Path.relative cwd (featuresRoot config)
                                (Path.resolve cwd configDir rel)) ".." = false).
  { unfold getSpecPathByFeaturePath in H. rewrite run_bind in H.
    destruct (startsWith _ _); [discriminate | reflexivity]. }
  pose proof (PathFacts.resolveSegments_proper cwd configDir rel) as Hproper.
  assert (Hsame : Path.resolveSegments cwd cwd (Path.resolve cwd configDir rel)
                  = Path.resolveSegments cwd configDir rel).
  { unfold Path.resolve. apply PathFacts.resolveSegments_render. exact Hproper. }
  unfold Path.relative in Hdots. rewrite Hsame in Hdots.
  destruct (Path.stripCommon (Path.resolveSegments cwd cwd (featuresRoot config))
                             (Path.resolveSegments cwd configDir rel))
    as [up down] eqn:Hstrip.
  destruct up as [| u up'].
  2: { simpl repeat in Hdots. simpl app in Hdots.
       rewrite join_dotdot_startsWith in Hdots. discriminate. }
  simpl in Hdots.
  assert (Hunder : Path.resolveSegments cwd configDir rel
                   = Path.resolveSegments cwd cwd (featuresRoot config) ++ down).
  { pose proof (stripCommon_nil (Path.resolveSegments cwd cwd (featuresRoot config))
                                (Path.resolveSegments cwd configDir rel)) as Hs.
    rewrite Hstrip in Hs. apply Hs. reflexivity. }
  destruct (spec_path_mirrors_feature_path configDir cwd config rel down st
              Hcwd Hunder Hdots) as [_ Hret].
  rewrite Hret in H. inversion H. split; [reflexivity |].
  exists down. split; [exact Hunder |]. split; [| reflexivity].
  rewrite Hunder in Hproper. apply Forall_app in Hproper as [_ Hp]. exact Hp.
Qed.

(** The suffix of test files goes to the last name of a path. *)
Lemma string_app_assoc (a b c : string) : ((a ++ b) ++ c = a ++ (b ++ c))%string.
Proof.
  induction a as [| x a IH]; [reflexivity |].
  change (String x ((a ++ b) ++ c) = String x (a ++ (b ++ c)))%string.
  f_equal. exact IH.
Qed.

Lemma join_snoc_suffix sep segs name suffix :
  (join sep (segs ++ [name]) ++ suffix)%string
  = join sep (segs ++ [(name ++ suffix)%string]).
Proof.
  induction segs as [| p rest IH]; [reflexivity |].
  change (join sep ((p :: rest) ++ [name]))
    with (join sep (p :: (rest ++ [name]))).
  change (join sep ((p :: rest) ++ [(name ++ suffix)%string]))
    with (join sep (p :: (rest ++ [(name ++ suffix)%string]))).
  destruct rest as [| q rest'].
  - change ((p ++ sep ++ name) ++ suffix = p ++ sep ++ (name ++ suffix))%string.
    rewrite !string_app_assoc. reflexivity.
  - change (join sep (p :: ((q :: rest') ++ [name])))
      with (p ++ sep ++ join sep ((q :: rest') ++ [name]))%string.
    change (join sep (p :: ((q :: rest') ++ [(name ++ suffix)%string])))
      with (p ++ sep ++ join sep ((q :: rest') ++ [(name ++ suffix)%string]))%string.
    rewrite !string_app_assoc, IH. reflexivity.
Qed.

Lemma slashFree_app a b :
  Path.slashFree a = true -> Path.slashFree b = true ->
  Path.slashFree (a ++ b) = true.
Proof.
  intros Ha Hb. induction a as [| c a IH]; [exact Hb |].
  simpl in *. apply andb_true_iff in Ha as [Hc Ha].
  rewrite Hc, (IH Ha). reflexivity.
Qed.

Lemma eqb_length_neq (a b : string) :
  String.length a <> String.length b -> String.eqb a b = false.
Proof.
  intros H. destruct (String.eqb_spec a b) as [-> |]; [congruence | reflexivity].
Qed.

Lemma properName_spec_js name :
  Path.properName name = true -> Path.properName (name ++ ".spec.js") = true.
Proof.
  unfold Path.properName. intros H.
  repeat (apply andb_true_iff in H as [H ?]).
  rewrite slashFree_app by (assumption || reflexivity).
  rewrite !eqb_length_neq by (rewrite string_length_app; simpl; lia).
  reflexivity.
Qed.

Lemma resolveSegments_spec_js segs name :
  Forall (fun p => Path.properName p = true) (segs ++ [name]) ->
  Path.resolveSegments cwd cwd (Path.render (segs ++ [name]) ++ ".spec.js")
  = segs ++ [(name ++ ".spec.js")%string].
Proof.
  intros H. apply Forall_app in H as [Hsegs Hname]. inversion Hname; subst.
  unfold Path.render. rewrite string_app_assoc, join_snoc_suffix.
  apply (PathFacts.resolveSegments_render cwd (segs ++ [(name ++ ".spec.js")%string])).
  apply Forall_app. split; [exact Hsegs |].
  constructor; [apply properName_spec_js; assumption | constructor].
Qed.

(** X6. Path derivation returns only for features underneath the
    features root, and leaves the state as it is.  What it returns is
    the path of the feature below the root, put below the output
    directory, with the suffix of test files.  For a feature below the
    root that is a file underneath the output directory, the name of the
    feature with the suffix in the directories of the feature.  For the
    root itself it is the path of the output directory with the suffix,
    which lies beside the output directory, not underneath it. *)
Theorem spec_path_lies_under_output_dir rel st path st' :
  Path.isAbsolute cwd = true ->
  getSpecPath rel st = (Returned path, st') ->
  st' = st /\
  underneath cwd (featuresRoot config) (Path.resolve cwd configDir rel) /\
  exists down,
    Path.resolveSegments cwd configDir rel
    = Path.resolveSegments cwd cwd (featuresRoot config) ++ down /\
    path = (Path.render (Path.resolveSegments cwd cwd (outputDir config) ++ down)
              ++ ".spec.js")%string /\
    (forall dirs name,
       down = dirs ++ [name] ->
       Path.resolveSegments cwd cwd path
       = Path.resolveSegments cwd cwd (outputDir config)
           ++ dirs ++ [(name ++ ".spec.js")%string] /\
       underneath cwd (outputDir config) path) /\
    (down = [] ->
     path = (Path.resolve cwd cwd (outputDir config) ++ ".spec.js")%string /\
     (Path.resolveSegments cwd cwd (outputDir config) <> [] ->
      ~ underneath cwd (outputDir config) path)).
Proof.
  intros Hcwd H.
  destruct (getSpecPath_returned _ _ _ _ Hcwd H) as (Hst & down & Hunder & Hproper & Hpath).
  pose proof (PathFacts.resolveSegments_proper cwd cwd (outputDir config)) as Hout.
  split; [exact Hst |]. split.
  - unfold underneath, Path.resolve.
    rewrite PathFacts.resolveSegments_render by apply PathFacts.resolveSegments_proper.
    rewrite Hunder. apply prefix_app_r. reflexivity.
  - exists down. split; [exact Hunder |]. split; [exact Hpath |]. split.
    + intros dirs name ->.
      assert (Hsegs : Path.resolveSegments cwd cwd path
                      = Path.resolveSegments cwd cwd (outputDir config)
                          ++ dirs ++ [(name ++ ".spec.js")%string]).
      { rewrite Hpath, !app_assoc. apply resolveSegments_spec_js.
        rewrite <- app_assoc. apply Forall_app. split; assumption. }
      split; [exact Hsegs |].
      unfold underneath. rewrite Hsegs. apply prefix_app_r. reflexivity.
    + intros ->. rewrite app_nil_r in Hpath. split; [exact Hpath |].
      intros Hne Hbelow. apply exists_last in Hne as (dirs & name & Hlast).
      unfold underneath in Hbelow. rewrite Hpath, Hlast in Hbelow.
      rewrite resolveSegments_spec_js in Hbelow by (rewrite <- Hlast; exact Hout).
      apply prefix_app_inv in Hbelow. destruct Hbelow as [k Hk].
      inversion Hk as [[Hname Hnil]].
      apply (f_equal String.length) in Hname.
      rewrite string_length_app in Hname. simpl in Hname. lia.
Qed.

(** X7. Two features that get the same output path are the same file:
    path derivation never sends two different feature files to one test
    file. *)
Theorem spec_paths_do_not_collide rel1 rel2 st1 st2 path st1' st2' :
  Path.isAbsolute cwd = true ->
  getSpecPath rel1 st1 = (Returned path, st1') ->
  getSpecPath rel2 st2 = (Returned path, st2') ->
  Path.resolve cwd configDir rel1 = Path.resolve cwd configDir rel2.
Proof.
  intros Hcwd H1 H2.
  destruct (getSpecPath_returned _ _ _ _ Hcwd H1) as (_ & d1 & Hu1 & Hp1 & Hpath1).
  destruct (getSpecPath_returned _ _ _ _ Hcwd H2) as (_ & d2 & Hu2 & Hp2 & Hpath2).
  rewrite Hpath1 in Hpath2. apply string_app_inv_tail in Hpath2.
  unfold Path.render in Hpath2. inversion Hpath2 as [Hjoin].
  pose proof (PathFacts.resolveSegments_proper cwd cwd (outputDir config)) as Hout.
  apply join_proper_inj in Hjoin;
    [| apply Forall_app; split; assumption | apply Forall_app; split; assumption].
  apply app_inv_head in Hjoin. subst d2.
  unfold Path.resolve. rewrite Hu1, Hu2. reflexivity.
Qed.

End GenerationPassMore.

Lemma generate_aborts_on_undefined_steps_witness :
  let loaded := sampleLoaded [] [] sampleDocuments in
  let r := sampleGenerate loaded sampleDisk in
  fst r = Exited [] /\
  disk (snd r) = sampleDisk /\
  Forall (fun e => mutatesFiles e = false) (events (snd r)) /\
  Exists (fun f => undefinedSteps f <> []) (files (snd r)) /\
  last (events (snd r)) = Some (PrintSnippets (files (snd r))).
Proof.
  intros loaded r.
  destruct (generate_aborts_on_undefined_steps "/proj" "/proj" sampleConfig false
              sampleBuild sampleGlob id loaded sampleDisk (fst r) (snd r))
    as (_ & Hdisk & Hquiet & Hcheck).
  - subst r. apply surjective_pairing.
  - apply Exists_cons_hd. eexists. split; [reflexivity |].
    split; [vm_compute; lia | discriminate].
  - edestruct Hcheck as (Ho & _ & Hex & _); [vm_compute; reflexivity |].
    split; [exact Ho |]. split; [exact Hdisk |]. split; [exact Hquiet |].
    split; [exact Hex |]. vm_compute. reflexivity.
Defined.

(** C1 as stated fails on a built file without tests: the one document
    gives a test file with an undefined step and no test, the file is
    dropped before the undefined steps are counted, and the pass
    completes and removes the stale file of the output directory. *)
Lemma untested_file_with_undefined_step_passes :
  let draft := {| uri := "features/wip/draft.feature"; pickleNames := [] |} in
  let loaded := sampleLoaded [] [] [draft] in
  (exists b,
     sampleBuild (loadedSteps sampleConfig loaded) draft = Returned b /\
     built_testCount b = 0%nat /\ built_undefinedSteps b <> []) /\
  exists st',
    sampleGenerate loaded sampleDisk = (Returned tt, st') /\
    files st' = [] /\
    In (Remove "/proj/.features-gen/old.feature.spec.js") (events st') /\
    sampleDisk !! "/proj/.features-gen/old.feature.spec.js"%string = Some "// stale"%string /\
    disk st' !! "/proj/.features-gen/old.feature.spec.js"%string = None.
Proof.
  intros draft loaded. split.
  - eexists. split; [reflexivity |]. split; [reflexivity | discriminate].
  - eexists. split; [vm_compute; reflexivity |].
    split; [reflexivity |]. split; [| split; vm_compute; reflexivity].
    simpl. auto 10.
Qed.

(** ** The further properties on sample passes *)

Lemma exited_pass_leaves_disk_untouched_witness :
  disk (snd (sampleGenerate (sampleLoaded [] [] sampleDocuments) sampleDisk))
  = sampleDisk.
Proof.
  destruct (exited_pass_leaves_disk_untouched "/proj" "/proj" sampleConfig false
              sampleBuild sampleGlob id (sampleLoaded [] [] sampleDocuments)
              (initialState sampleDisk) []
              (snd (sampleGenerate (sampleLoaded [] [] sampleDocuments) sampleDisk)))
    as [Hdisk _].
  - vm_compute. reflexivity.
  - exact Hdisk.
Defined.

Lemma custom_test_needs_importTestFrom_witness :
  let r := generate "/proj" "/proj" sampleConfig true sampleBuild sampleGlob id
             (sampleLoaded ["I open the page"%string] [] sampleDocuments)
             (initialState sampleDisk) in
  (exists messages, fst r = Exited messages) /\
  untouched (initialState sampleDisk) (snd r).
Proof.
  intros r.
  destruct (custom_test_needs_importTestFrom "/proj" "/proj" sampleConfig true
              sampleBuild sampleGlob id
              (sampleLoaded ["I open the page"%string] [] sampleDocuments)
              (initialState sampleDisk) (fst r) (snd r))
    as (Hexit & Huntouched & _).
  - reflexivity.
  - reflexivity.
  - subst r. apply surjective_pairing.
  - split; assumption.
Defined.

Lemma completed_pass_rewrites_output_witness :
  let st' := snd (sampleGenerate
                    (sampleLoaded ["I open the page"%string] [] sampleDocuments)
                    sampleDisk) in
  st'.(disk) !! "/proj/.features-gen/old.feature.spec.js"%string = None /\
  (forall file, file ∈ files st' -> disk st' !! outputPath file = Some (content file)).
Proof.
  intros st'.
  destruct (completed_pass_rewrites_output "/proj" "/proj" sampleConfig false
              sampleBuild sampleGlob id
              (sampleLoaded ["I open the page"%string] [] sampleDocuments)
              (initialState sampleDisk) st')
    as (_ & Hother & Hwritten).
  - vm_compute. reflexivity.
  - split.
    + rewrite Hother.
      * vm_compute. reflexivity.
      * vm_compute. intros H. inversion H as [| ? ? ? H']; subst. inversion H'.
    + apply Hwritten. vm_compute. repeat constructor.
      intros H. inversion H.
Defined.

Lemma kept_files_are_built_from_documents_witness :
  let loaded := sampleLoaded ["I open the page"%string] [] sampleDocuments in
  let st' := snd (sampleGenerate loaded sampleDisk) in
  Forall (fun file =>
            (0 < testCount file)%nat /\
            exists doc,
              In doc (documentsWithPickles loaded) /\
              builtFrom "/proj" "/proj" sampleConfig sampleBuild
                        (loadedSteps sampleConfig loaded) doc file)
         (files st') /\
  map sourceUri (files st') `sublist_of` map uri (documentsWithPickles loaded).
Proof.
  intros loaded st'.
  apply (kept_files_are_built_from_documents "/proj" "/proj" sampleConfig false
           sampleBuild sampleGlob id loaded (initialState sampleDisk) st').
  vm_compute. reflexivity.
Defined.

Lemma spec_path_lies_under_output_dir_witness :
  underneath "/proj" (featuresRoot sampleConfig)
             (Path.resolve "/proj" "/proj" "features/admin/login.feature") /\
  underneath "/proj" (outputDir sampleConfig)
             "/proj/.features-gen/admin/login.feature.spec.js" /\
  ~ underneath "/proj" (outputDir sampleConfig) "/proj/.features-gen.spec.js".
Proof.
  split; [| split].
  - destruct (spec_path_lies_under_output_dir "/proj" "/proj" sampleConfig
                "features/admin/login.feature" (initialState sampleDisk)
                "/proj/.features-gen/admin/login.feature.spec.js"
                (initialState sampleDisk))
      as (_ & Hroot & _); [reflexivity | vm_compute; reflexivity | exact Hroot].
  - destruct (spec_path_lies_under_output_dir "/proj" "/proj" sampleConfig
                "features/admin/login.feature" (initialState sampleDisk)
                "/proj/.features-gen/admin/login.feature.spec.js"
                (initialState sampleDisk))
      as (_ & _ & down & Hdown & _ & Hbelow & _);
      [reflexivity | vm_compute; reflexivity |].
    apply (Hbelow ["admin"%string] "login.feature"%string).
    vm_compute in Hdown. inversion Hdown. reflexivity.
  - destruct (spec_path_lies_under_output_dir "/proj" "/proj" sampleConfig
                "features" (initialState sampleDisk)
                "/proj/.features-gen.spec.js" (initialState sampleDisk))
      as (_ & _ & down & Hdown & _ & _ & Hroot);
      [reflexivity | vm_compute; reflexivity |].
    apply Hroot; [| vm_compute; discriminate].
    vm_compute in Hdown. destruct down; [reflexivity | inversion Hdown].
Defined.

Lemma spec_paths_do_not_collide_witness :
  Path.resolve "/proj" "/proj" "features/admin/login.feature"
  = Path.resolve "/proj" "/proj" "features/./admin//login.feature".
Proof.
  apply (spec_paths_do_not_collide "/proj" "/proj" sampleConfig
           "features/admin/login.feature" "features/./admin//login.feature"
           (initialState sampleDisk) (initialState sampleDisk)
           "/proj/.features-gen/admin/login.feature.spec.js"
           (initialState sampleDisk) (initialState sampleDisk)).
  - reflexivity.
  - vm_compute. reflexivity.
  - vm_compute. reflexivity.
Defined.


(* ===================================================================== *)
(** * More properties of the messages builder                             *)
(* ===================================================================== *)

Module MessagesMore.

Import Messages.

(** ** Ids in the order of their first occurrence *)

Lemma filter_absent_snoc keys x (l : list string) :
  List.filter (absent (keys ++ [x])) l
  = List.filter (absent keys) (List.filter (fun y => negb (String.eqb y x)) l).
Proof.
  induction l as [| y rest IH]; [reflexivity |]. simpl.
  unfold absent at 1. rewrite existsb_app. simpl. rewrite orb_false_r.
  destruct (String.eqb y x) eqn:E; simpl.
  - rewrite orb_true_r. simpl. exact IH.
  - rewrite orb_false_r. fold (absent keys y).
    destruct (absent keys y); [f_equal |]; exact IH.
Qed.

Lemma filter_absent_member keys x (l : list string) :
  absent keys x = false ->
  List.filter (absent keys) (List.filter (fun y => negb (String.eqb y x)) l)
  = List.filter (absent keys) l.
Proof.
  intros Hx. induction l as [| y rest IH]; [reflexivity |]. simpl.
  destruct (String.eqb y x) eqn:E; simpl.
  - apply String.eqb_eq in E. subst y. rewrite Hx. exact IH.
  - destruct (absent keys y); [f_equal |]; exact IH.
Qed.

Lemma absent_get {V} keys (m : AutofillMap V) key :
  keys = map fst m -> absent keys key = bool_decide (get key m = None).
Proof.
  intros ->. induction m as [| [k v] rest IH]; [reflexivity |].
  unfold absent in *. simpl. rewrite (String.eqb_sym key k).
  destruct (String.eqb k key); simpl; [reflexivity | exact IH].
Qed.


Section BuilderMore.

Context {Body : Type}.
Variable hasBddConfig : option string -> bool.
Variable registerHooks :
  PwTestCase -> PwTestResult -> AutofillMap (Hook Body) -> AutofillMap (Hook Body).
Variable loadDocuments : list TestCaseRun -> GherkinDocuments Body.
Variable metaMessage : Body.
Variable pickleMessages : AutofillMap (TestCase Body) -> list Body.
Variable hookMessage : Hook Body -> Body.
Variable testCaseMessage : TestCase Body -> Body.
Variable runMessages :
  TestCaseRun -> option (TestCase Body) -> list (TestCaseRunEnvelope Body).
Variable now : Z.

Local Abbreviation onTestEnd' := (onTestEnd hasBddConfig registerHooks).
Local Abbreviation absorb' := (absorb hasBddConfig registerHooks).
Local Abbreviation recorded' := (recorded hasBddConfig).
Local Abbreviation recordedRuns' := (recordedRuns hasBddConfig).
Local Abbreviation build' :=
  (buildMessages loadDocuments metaMessage pickleMessages hookMessage
                 testCaseMessage runMessages now).
Local Abbreviation reportOf' :=
  (reportOf hasBddConfig registerHooks loadDocuments metaMessage pickleMessages
            hookMessage testCaseMessage runMessages now).
Local Abbreviation start := (@newBuilder Body).
Local Abbreviation grouped := (groupedTestCases hasBddConfig loadDocuments).
Local Abbreviation reportOf_state :=
  (MessagesFacts.reportOf_state hasBddConfig registerHooks loadDocuments metaMessage
     pickleMessages hookMessage testCaseMessage runMessages now).

Implicit Types (tcs : AutofillMap (TestCase Body)) (docs : GherkinDocuments Body).

(** ** The order of the test cases *)

Lemma keys_createTestCase tcs docs run :
  map fst (createTestCase tcs docs run)
  = map fst tcs ++ (if absent (map fst tcs) (id (run_test run))
                    then [id (run_test run)] else []).
Proof.
  unfold createTestCase. rewrite MessagesFacts.keys_update.
  rewrite (absent_get (map fst tcs) tcs _ eq_refl). unfold getOrCreate.
  destruct (get (id (run_test run)) tcs) eqn:G.
  - rewrite bool_decide_eq_false_2 by discriminate. rewrite app_nil_r. reflexivity.
  - rewrite bool_decide_eq_true_2 by reflexivity. rewrite map_app. reflexivity.
Qed.

Lemma keys_grow docs runs tcs :
  map fst (fold_left (fun tcs run => createTestCase tcs docs run) runs tcs)
  = map fst tcs
    ++ List.filter (absent (map fst tcs))
                   (firstOccurrences (map (fun run => id (run_test run)) runs)).
Proof.
  revert tcs. induction runs as [| run rest IH]; intros tcs; simpl.
  - rewrite app_nil_r. reflexivity.
  - rewrite IH, keys_createTestCase.
    destruct (absent (map fst tcs) (id (run_test run))) eqn:E.
    + rewrite filter_absent_snoc, <- app_assoc. reflexivity.
    + rewrite app_nil_r, filter_absent_member by exact E. reflexivity.
Qed.

Lemma filter_absent_nil (l : list string) : List.filter (absent []) l = l.
Proof. induction l as [| y rest IH]; simpl; [| rewrite IH]; reflexivity. Qed.

(** X9. The test cases of a built report stand in the order in which
    their tests were first recorded, one for each test id that has a
    recorded run, and the report has one test-case envelope for each of
    them, in that order. *)
Theorem test_cases_follow_first_attempts ends fr :
  exists b,
    reportOf' ends fr = Some b /\
    map fst (testCases b)
    = firstOccurrences (map (fun run => id (run_test run)) (recordedRuns' ends)) /\
    report_testCase (report b) = map testCaseMessage (values (testCases b)) /\
    List.length (report_testCase (report b))
    = List.length
        (firstOccurrences (map (fun run => id (run_test run)) (recordedRuns' ends))).
Proof.
  destruct (reportOf_state ends fr) as (b & Hb & _ & Hcases & _ & _ & _ & Hreport).
  exists b. split; [exact Hb |].
  assert (Hkeys : map fst (testCases b)
                  = firstOccurrences
                      (map (fun run => id (run_test run)) (recordedRuns' ends))).
  { rewrite Hcases. unfold groupedTestCases. rewrite keys_grow. simpl.
    apply filter_absent_nil. }
  split; [exact Hkeys |]. rewrite Hreport, Hcases. simpl. split; [reflexivity |].
  rewrite <- Hkeys, Hcases. unfold values. rewrite !length_map. reflexivity.
Qed.

(** ** Runs and their test cases *)

Local Abbreviation grouped_lookup :=
  (MessagesFacts.grouped_lookup hasBddConfig loadDocuments).

(** X10. When the envelopes of the runs are built, every recorded run
    has the test case of its test, and that test case owns the run; the
    envelopes of the runs stand in the order in which the runs were
    recorded, whatever test they belong to. *)
Theorem every_run_has_its_test_case ends fr :
  exists b,
    reportOf' ends fr = Some b /\
    Forall (fun run =>
              exists tc,
                get (id (run_test run)) (testCases b) = Some tc /\
                testCase_id tc = id (run_test run) /\
                In run (testCase_runs tc))
           (testCaseRuns b) /\
    report_testCaseRuns (report b)
    = concat (map (fun run => runMessages run (get (id (run_test run)) (testCases b)))
                  (recordedRuns' ends)).
Proof.
  destruct (reportOf_state ends fr) as (b & Hb & Hruns & Hcases & _ & _ & _ & Hreport).
  exists b. split; [exact Hb |]. rewrite Hruns, Hcases, Hreport. split; [| reflexivity].
  apply List.Forall_forall. intros run Hin.
  pose proof (grouped_lookup ends (id (run_test run))) as H.
  assert (Hmine : In run (runsOfTest (id (run_test run)) (recordedRuns' ends))).
  { unfold runsOfTest. apply filter_In. split; [exact Hin | apply String.eqb_refl]. }
  destruct (get (id (run_test run)) (grouped ends)) as [tc |].
  - destruct H as (Hid & Hown & _). exists tc. rewrite Hown. auto.
  - rewrite H in Hmine. destruct Hmine.
Qed.

(** ** Building once *)

Lemma reportOf_started ends fr :
  exists b, reportOf' ends fr = Some b /\ buildStarted b = true.
Proof.
  destruct (MessagesFacts.absorb_fields hasBddConfig registerHooks ends start)
    as (H1 & H2 & H3 & H4 & H5 & H6 & H7 & H8).
  unfold reportOf.
  destruct (absorb' ends start) as [r f runs tcs hs docs ft bs col].
  cbn [report fullResult testCaseRuns testCases hooks gherkinDocuments
       fullResultTiming buildStarted collected newBuilder] in *.
  subst.
  cbv [buildMessages onEnd withFullResult withBuildStarted doBuildMessages
       loadFeatures createTestCases addMeta addSourcesAndDocuments addPickles
       addHooks addTestCases addTestCaseRuns addTestRunStarted addTestRunFinished
       getFullResultTiming buildEventDataCollector withReport withTestCases
       withDocuments withTiming withCollected emptyReport
       report fullResult testCaseRuns testCases hooks gherkinDocuments
       fullResultTiming buildStarted collected
       report_meta report_source report_gherkinDocument report_pickle
       report_stepDefinition report_hook report_testRunStarted report_testCase
       report_testCaseRuns report_testRunFinished
       mbind option_bind].
  eexists. split; reflexivity.
Qed.

(** X11. Messages are built once: asking again for the messages of a
    built report gives the same builder back, and test ends that arrive
    after the build are not reported, the envelopes emitted stay the
    ones of the build. *)
Theorem messages_are_built_once ends fr b :
  reportOf' ends fr = Some b ->
  build' b = Some b /\
  forall late,
    build' (absorb' late b) = Some (absorb' late b) /\
    emitMessages (absorb' late b) = emitMessages b.
Proof.
  intros Hb. destruct (reportOf_started ends fr) as (b' & Hb' & Hstarted).
  rewrite Hb in Hb'. inversion Hb'; subst b'; clear Hb'.
  split.
  - unfold buildMessages. rewrite Hstarted. reflexivity.
  - intros late.
    destruct (MessagesFacts.absorb_fields hasBddConfig registerHooks late b)
      as (Hreport & _ & _ & _ & _ & _ & Hflag & _).
    split.
    + unfold buildMessages. rewrite Hflag, Hstarted. reflexivity.
    + unfold emitMessages. rewrite Hreport. reflexivity.
Qed.

(** X12. Before the run has ended nothing is built and nothing is
    emitted: a build asked for before [onEnd] does not complete, and
    [emitMessages] on a builder that has not built its messages, after
    [onEnd] as before it, emits no envelope. *)
Theorem nothing_is_reported_before_the_build ends fr :
  build' (absorb' ends start) = None /\
  emitMessages (absorb' ends start) = [] /\
  emitMessages (onEnd (absorb' ends start) fr) = [].
Proof.
  destruct (MessagesFacts.absorb_fields hasBddConfig registerHooks ends start)
    as (Hreport & Hfull & _ & _ & _ & _ & Hflag & _).
  split; [| split].
  - unfold buildMessages. rewrite Hflag. simpl.
    unfold doBuildMessages, withBuildStarted. cbn [fullResult]. rewrite Hfull.
    reflexivity.
  - unfold emitMessages. rewrite Hreport. reflexivity.
  - unfold emitMessages, onEnd, withFullResult. cbn [report]. rewrite Hreport.
    reflexivity.
Qed.

(** X13. The event data collector receives the envelopes of the built
    report, each once and in the order in which [emitMessages] emits
    them. *)
Theorem collector_receives_the_report ends fr :
  exists b,
    reportOf' ends fr = Some b /\
    collected (absorb' ends start) = [] /\
    collected b = emitMessages b.
Proof.
  destruct (reportOf_state ends fr) as (b & Hb & _ & _ & _ & _ & Hcollected & _).
  destruct (MessagesFacts.absorb_fields hasBddConfig registerHooks ends start)
    as (_ & _ & _ & _ & _ & _ & _ & Hnone).
  exists b. auto.
Qed.

(** X14. The success of the run is the verdict of the host alone: the
    run-finished envelope says success exactly when the status of the
    full result is [passed], whatever the results of the tests are. *)
Theorem success_is_the_host_verdict ends fr :
  exists b finished,
    reportOf hasBddConfig registerHooks loadDocuments metaMessage pickleMessages
             hookMessage testCaseMessage runMessages now ends fr = Some b /\
    report_testRunFinished (report b) = Some finished /\
    (success finished = true <-> fullStatus fr = passed).
Proof.
  destruct (reportOf_state ends fr) as (b & Hb & _ & _ & _ & _ & _ & Hreport).
  exists b. rewrite Hreport. cbn [report_testRunFinished].
  eexists. split; [exact Hb |]. split; [reflexivity |]. cbn [success].
  apply bool_decide_eq_true.
Qed.

(** ** Absorbing is appending *)

(** X16. Absorbing test ends only ever appends runs, one for each
    recorded test end and in the order observed, behind the runs already
    made; it changes neither the report, nor the test cases, nor the
    full result, nor what the collector has received. *)
Theorem absorb_only_appends_runs ends (b : Builder Body) :
  testCaseRuns (absorb' ends b) = testCaseRuns b ++ recordedRuns' ends /\
  testCaseRuns b `prefix_of` testCaseRuns (absorb' ends b) /\
  List.length (testCaseRuns (absorb' ends b))
  = (List.length (testCaseRuns b) + List.length (List.filter recorded' ends))%nat /\
  report (absorb' ends b) = report b /\
  testCases (absorb' ends b) = testCases b /\
  fullResult (absorb' ends b) = fullResult b /\
  collected (absorb' ends b) = collected b.
Proof.
  destruct (MessagesFacts.absorb_fields hasBddConfig registerHooks ends b)
    as (H1 & H2 & H3 & H4 & _ & _ & _ & H8).
  split; [exact H3 |]. split; [rewrite H3; apply prefix_app_r; reflexivity |].
  split; [| auto].
  rewrite H3, length_app. unfold recordedRuns. rewrite length_map. reflexivity.
Qed.

End BuilderMore.

End MessagesMore.

(** ** The further properties on a sample run *)

Module MessagesMoreSamples.

Import Messages.

Local Open Scope Z_scope.

Lemma messages_are_built_once_witness :
  exists b,
    sampleReportOf sampleEnds sampleFullResult = Some b /\
    buildMessages sampleDocumentsOf "meta"%string (fun tcs => map fst tcs) hook_body
                  testCase_id sampleRunMessages 0 b
    = Some b.
Proof.
  destruct (MessagesFacts.reportOf_state sampleHasBddConfig
              (fun _ _ hs => hs) sampleDocumentsOf "meta"%string
              (fun tcs => map fst tcs) hook_body testCase_id sampleRunMessages 0
              sampleEnds sampleFullResult) as (b & Hb & _).
  exists b. split; [exact Hb |].
  exact (proj1 (MessagesMore.messages_are_built_once sampleHasBddConfig
                  (fun _ _ hs => hs) sampleDocumentsOf "meta"%string
                  (fun tcs => map fst tcs) hook_body testCase_id sampleRunMessages 0
                  sampleEnds sampleFullResult b Hb)).
Defined.

End MessagesMoreSamples.

(* ===================================================================== *)
(** * Properties of the BDD config                                        *)
(* ===================================================================== *)

Module ConfigFacts.

Import Config.

Local Open Scope list_scope.

Lemma resolve_absolute cwd from to : Path.isAbsolute (Path.resolve cwd from to) = true.
Proof.
  unfold Path.isAbsolute, startsWith, Path.resolve, Path.render.
  destruct (join (str1 slash) _); reflexivity.
Qed.

(** A resolved path resolves to itself, in whatever directory. *)
Lemma resolve_resolved cwd dir from to :
  Path.resolve cwd dir (Path.resolve cwd from to) = Path.resolve cwd from to.
Proof.
  unfold Path.resolve at 1.
  unfold Path.resolveSegments at 1. rewrite resolve_absolute.
  pose proof (PathFacts.resolveSegments_render cwd (Path.resolveSegments cwd from to)
                (PathFacts.resolveSegments_proper cwd from to)) as H.
  unfold Path.resolveSegments at 1 in H.
  change (Path.render (Path.resolveSegments cwd from to))
    with (Path.resolve cwd from to) in H.
  rewrite resolve_absolute in H. rewrite H. reflexivity.
Qed.

Section WithDirs.

Variable configDir : string.
Variable cwd : string.

Local Abbreviation getConfig' := (getConfig configDir cwd).
Local Abbreviation resolve' := (Path.resolve cwd configDir).

Lemma assignDefaults_lookup inputConfig key :
  assignDefaults inputConfig !! key
  = match inputConfig with
    | Some input =>
        match input !! key with
        | Some v => Some v
        | None => defaults !! key
        end
    | None => defaults !! key
    end.
Proof.
  destruct inputConfig as [input |]; [| reflexivity]. simpl.
  rewrite lookup_union. destruct (input !! key), (defaults !! key); reflexivity.
Qed.

(** What [getConfig] returns, when it returns. *)
Lemma getConfig_returns inputConfig config :
  getConfig' inputConfig = inr config ->
  exists dir importTestFrom,
    prop "outputDir" (assignDefaults inputConfig) = Str dir /\
    resolveImportTestFrom configDir cwd (prop "importTestFrom" (assignDefaults inputConfig))
    = inr importTestFrom /\
    config = <["importTestFrom" := importTestFrom]>
             (<["outputDir" := Str (resolve' dir)]> (assignDefaults inputConfig)).
Proof.
  unfold getConfig. intros H.
  destruct (prop "outputDir" (assignDefaults inputConfig)) as [| | dir | |] eqn:Hdir;
    simpl in H; try discriminate.
  destruct (resolveImportTestFrom _ _ _) as [| itf] eqn:Hitf; [discriminate |].
  inversion H. eauto.
Qed.

(** X17. The output directory of a config is the one of the input,
    resolved against the directory of the Playwright config, and so
    absolute; the default [.features-gen] applies only when the input has
    no [outputDir] at all: an [outputDir] that is written out but is no
    string, [undefined] included, makes [getConfig] throw. *)
Theorem output_dir_is_resolved input :
  match input !! "outputDir" with
  | None =>
      match getConfig' (Some input) with
      | inr config => config !! "outputDir" = Some (Str (resolve' ".features-gen"))
      | inl _ => True
      end
  | Some (Str dir) =>
      match getConfig' (Some input) with
      | inr config =>
          config !! "outputDir" = Some (Str (resolve' dir)) /\
          Path.isAbsolute (resolve' dir) = true
      | inl _ => True
      end
  | Some _ => getConfig' (Some input) = inl TypeError
  end.
Proof.
  assert (Hprop : prop "outputDir" (assignDefaults (Some input))
                  = match input !! "outputDir" with
                    | Some v => v
                    | None => Str ".features-gen"
                    end).
  { unfold prop. rewrite assignDefaults_lookup.
    destruct (input !! "outputDir"); reflexivity. }
  destruct (input !! "outputDir") as [v |] eqn:Hin.
  - destruct v as [| b | dir | l | f n];
      try (unfold getConfig; rewrite Hprop; reflexivity).
    destruct (getConfig' (Some input)) as [| config] eqn:Hc; [exact I |].
    apply getConfig_returns in Hc as (d & itf & Hd & _ & ->).
    rewrite Hprop in Hd. inversion Hd; subst d.
    split; [| apply resolve_absolute].
    rewrite lookup_insert_ne by discriminate. apply lookup_insert_eq.
  - destruct (getConfig' (Some input)) as [| config] eqn:Hc; [exact I |].
    apply getConfig_returns in Hc as (d & itf & Hd & _ & ->).
    rewrite Hprop in Hd. inversion Hd; subst d.
    rewrite lookup_insert_ne by discriminate. apply lookup_insert_eq.
Qed.

(** X18. Apart from [outputDir] and [importTestFrom], every field of a
    config is the field of the input when the input has it, the default
    otherwise.  [importTestFrom] is always a field of the config: it is
    [undefined] when the input has none, or a false or empty one, and
    otherwise the file, resolved against the directory of the Playwright
    config, with the variable name when one is given. *)
Theorem config_fields inputConfig config :
  getConfig' inputConfig = inr config ->
  (forall key, key <> "outputDir"%string -> key <> "importTestFrom"%string ->
               config !! key = assignDefaults inputConfig !! key) /\
  config !! "importTestFrom"
  = Some (match prop "importTestFrom" (assignDefaults inputConfig) with
          | Str s => if String.eqb s EmptyString then Undefined
                     else Import (resolve' s) None
          | Import file varName => Import (resolve' file) varName
          | _ => Undefined
          end).
Proof.
  intros Hc. apply getConfig_returns in Hc as (d & itf & _ & Hitf & ->). split.
  - intros key H1 H2. rewrite !lookup_insert_ne by congruence. reflexivity.
  - rewrite lookup_insert_eq. f_equal. unfold resolveImportTestFrom in Hitf.
    destruct (prop "importTestFrom" (assignDefaults inputConfig)) as [| b | s | l | f n];
      simpl in Hitf.
    + inversion Hitf. reflexivity.
    + destruct b; [discriminate | inversion Hitf; reflexivity].
    + destruct (String.eqb s EmptyString); simpl in Hitf; inversion Hitf; reflexivity.
    + discriminate.
    + inversion Hitf. reflexivity.
Qed.

Lemma resolveImportTestFrom_resolved v w :
  resolveImportTestFrom configDir cwd v = inr w ->
  resolveImportTestFrom configDir cwd w = inr w.
Proof.
  unfold resolveImportTestFrom. intros H.
  destruct v as [| b | s | l | f n]; simpl in H.
  - inversion H. reflexivity.
  - destruct b; [discriminate | inversion H; reflexivity].
  - destruct (String.eqb s EmptyString); simpl in H; inversion H; [reflexivity |].
    simpl. rewrite resolve_resolved. reflexivity.
  - discriminate.
  - inversion H. simpl. rewrite resolve_resolved. reflexivity.
Qed.

(** X19. A config is its own resolution: [getConfig] applied to a config
    that it returned gives the same config back. *)
Theorem getConfig_is_idempotent inputConfig config :
  getConfig configDir cwd inputConfig = inr config ->
  getConfig configDir cwd (Some config) = inr config.
Proof.
  intros Hc. apply getConfig_returns in Hc as (d & itf & Hd & Hitf & ->).
  set (base := assignDefaults inputConfig) in *.
  set (config := <["importTestFrom" := itf]> (<["outputDir" := Str (resolve' d)]> base)).
  assert (Hdefaults : forall key v, defaults !! key = Some v -> is_Some (base !! key)).
  { intros key v Hv. subst base. rewrite assignDefaults_lookup.
    destruct inputConfig as [input |]; [| eauto].
    destruct (input !! key); eauto. }
  assert (Hassign : assignDefaults (Some config) = config).
  { simpl. apply map_eq. intros key. rewrite lookup_union.
    destruct (config !! key) as [v |] eqn:Hk; [destruct (defaults !! key); reflexivity |].
    destruct (defaults !! key) as [v |] eqn:Hv; [| reflexivity].
    exfalso. destruct (Hdefaults key v Hv) as (w & Hw).
    subst config. rewrite !lookup_insert in Hk.
    repeat case_decide; try discriminate. congruence. }
  unfold getConfig. rewrite Hassign.
  assert (Hout : prop "outputDir" config = Str (resolve' d)).
  { unfold prop. subst config.
    rewrite lookup_insert_ne by discriminate. rewrite lookup_insert_eq. reflexivity. }
  assert (Himport : prop "importTestFrom" config = itf).
  { unfold prop. subst config. rewrite lookup_insert_eq. reflexivity. }
  rewrite Hout, Himport. simpl.
  rewrite (resolveImportTestFrom_resolved _ _ Hitf), resolve_resolved.
  f_equal. subst config.
  rewrite insert_insert_ne by discriminate.
  rewrite insert_insert_eq.
  rewrite insert_insert_ne by discriminate.
  rewrite insert_insert_eq. reflexivity.
Qed.

(** X20. The Cucumber config taken from a config has neither
    [outputDir] nor [importTestFrom]; every other field of the config,
    the other fields of playwright-bdd itself ([verbose], [quotes], ...)
    among them, is passed on as it is. *)
Theorem cucumber_config_fields inputConfig config :
  getConfig' inputConfig = inr config ->
  extractCucumberConfig config !! "outputDir" = None /\
  extractCucumberConfig config !! "importTestFrom" = None /\
  (forall key, key <> "outputDir"%string -> key <> "importTestFrom"%string ->
               extractCucumberConfig config !! key = assignDefaults inputConfig !! key) /\
  is_Some (extractCucumberConfig config !! "verbose") /\
  is_Some (extractCucumberConfig config !! "quotes").
Proof.
  intros Hc. apply getConfig_returns in Hc as (d & itf & _ & _ & ->).
  unfold extractCucumberConfig.
  assert (Hother : forall key, key <> "outputDir"%string -> key <> "importTestFrom"%string ->
            delete "importTestFrom"
              (delete "outputDir"
                 (<["importTestFrom" := itf]>
                    (<["outputDir" := Str (resolve' d)]> (assignDefaults inputConfig))))
            !! key = assignDefaults inputConfig !! key).
  { intros key H1 H2.
    rewrite !lookup_delete_ne, !lookup_insert_ne by congruence. reflexivity. }
  split; [| split; [| split; [exact Hother | split]]].
  - rewrite lookup_delete_ne by discriminate. apply lookup_delete_eq.
  - apply lookup_delete_eq.
  - rewrite Hother by discriminate. rewrite assignDefaults_lookup.
    destruct inputConfig as [input |]; [destruct (input !! "verbose") |]; eauto.
  - rewrite Hother by discriminate. rewrite assignDefaults_lookup.
    destruct inputConfig as [input |]; [destruct (input !! "quotes") |]; eauto.
Qed.

(** X21. [defineBddConfig] returns the resolved output directory of the
    config, the same in the main process and in a worker; the config is
    stored in the environment in the main process and the environment is
    left alone in a worker. *)
Theorem defineBddConfig_in_main_and_worker {Env : Type}
    (saveConfigToEnv : ConfigObject -> Env -> Env) inputConfig (p : Process Env)
    testDir p' :
  defineBddConfig configDir cwd saveConfigToEnv inputConfig p = inr (testDir, p') ->
  exists config dir,
    getConfig' inputConfig = inr config /\
    testDir = Str dir /\ config !! "outputDir" = Some (Str dir) /\
    Path.isAbsolute dir = true /\
    TEST_WORKER_INDEX p' = TEST_WORKER_INDEX p /\
    environment p'
    = (if isWorker p then environment p else saveConfigToEnv config (environment p)) /\
    forall q : Process Env,
      fst <$> (match defineBddConfig configDir cwd saveConfigToEnv inputConfig q with
               | inr r => Some r
               | inl _ => None
               end)
      = Some testDir.
Proof.
  unfold defineBddConfig. intros H.
  destruct (getConfig' inputConfig) as [| config] eqn:Hc; [discriminate |].
  inversion H; subst testDir p'; clear H.
  pose proof Hc as Hret. apply getConfig_returns in Hret as (d & itf & _ & _ & Hconfig).
  assert (Hout : config !! "outputDir" = Some (Str (resolve' d))).
  { rewrite Hconfig. rewrite lookup_insert_ne by discriminate. apply lookup_insert_eq. }
  exists config, (resolve' d). split; [reflexivity |].
  split; [unfold prop; rewrite Hout; reflexivity |].
  split; [exact Hout |]. split; [apply resolve_absolute |].
  split; [destruct (isWorker p); reflexivity |].
  split; [destruct (isWorker p); reflexivity |].
  intros q. reflexivity.
Qed.

End WithDirs.

End ConfigFacts.

(** ** The properties on the config of a sample project *)

Module ConfigSamples.

Import Config.

Lemma projectOne_resolves :
  getConfig "/proj" "/proj" (Some projectOne) = inr resolvedProjectOne.
Proof. vm_compute. reflexivity. Qed.

Lemma config_fields_witness :
  resolvedProjectOne !! "paths" = Some (Strs ["one/*.feature"%string]) /\
  resolvedProjectOne !! "publishQuiet" = Some (Bool true) /\
  resolvedProjectOne !! "importTestFrom"
  = Some (Import "/proj/one/steps/fixtures.ts" None).
Proof.
  destruct (ConfigFacts.config_fields "/proj" "/proj" (Some projectOne)
              resolvedProjectOne projectOne_resolves) as [Hother Himport].
  split; [| split].
  - rewrite Hother by discriminate. vm_compute. reflexivity.
  - rewrite Hother by discriminate. vm_compute. reflexivity.
  - rewrite Himport. vm_compute. reflexivity.
Defined.

Lemma getConfig_is_idempotent_witness :
  getConfig "/proj" "/proj" (Some resolvedProjectOne) = inr resolvedProjectOne.
Proof.
  exact (ConfigFacts.getConfig_is_idempotent "/proj" "/proj" (Some projectOne)
           resolvedProjectOne projectOne_resolves).
Defined.

Lemma cucumber_config_fields_witness :
  extractCucumberConfig resolvedProjectOne !! "outputDir" = None /\
  extractCucumberConfig resolvedProjectOne !! "importTestFrom" = None /\
  extractCucumberConfig resolvedProjectOne !! "require"
  = Some (Strs ["one/steps/steps-*.ts"%string]).
Proof.
  destruct (ConfigFacts.cucumber_config_fields "/proj" "/proj" (Some projectOne)
              resolvedProjectOne projectOne_resolves)
    as (Hout & Himport & Hother & _).
  split; [exact Hout |]. split; [exact Himport |].
  rewrite Hother by discriminate. vm_compute. reflexivity.
Defined.

Lemma defineBddConfig_in_main_and_worker_witness :
  exists config,
    getConfig "/proj" "/proj" (Some projectOne) = inr config /\
    config !! "outputDir" = Some (Str "/proj/.features-gen/one").
Proof.
  destruct (ConfigFacts.defineBddConfig_in_main_and_worker "/proj" "/proj"
              (fun config saved => config :: saved) (Some projectOne) mainProcess
              (Str "/proj/.features-gen/one")
              {| TEST_WORKER_INDEX := None; environment := [resolvedProjectOne] |})
    as (config & dir & Hconfig & Hdir & Hout & _).
  - vm_compute. reflexivity.
  - exists config. split; [exact Hconfig |]. inversion Hdir; subst dir. exact Hout.
Defined.

End ConfigSamples.
